(** * Resource adapters of the AWS provider: a shallow embedding

    The development follows the Go sources

    - [internal/service/s3control/access_point.go]
    - [internal/service/config/configuration_recorder.go]
    - [internal/service/cloudwatchevents/list.go]

    Go values of type [interface{}] are an inductive type of dynamic
    values, [map[string]interface{}] is a [gmap string value], pointers
    are [option]s, and a function that can panic returns an [outcome].
    The CRUD functions run in a state monad over the resource data [d],
    the remote world behind the connection and the log of the API calls
    that were issued. *)

From stdpp Require Import gmap strings list fin_maps pretty.
From Stdlib Require Import String Ascii.

Local Open Scope string_scope.

(** ** Outcomes: a Go function either returns or panics *)

Inductive outcome (A : Type) : Type :=
| Done (a : A)
| Panic.
Arguments Done {A} a.
Arguments Panic {A}.

#[global] Instance outcome_ret : MRet outcome := @Done.
#[global] Instance outcome_bind : MBind outcome :=
  λ A B f m, match m with Done a => f a | Panic => Panic end.
#[global] Instance outcome_fmap : FMap outcome :=
  λ A B f m, match m with Done a => Done (f a) | Panic => Panic end.

(** ** Dynamic values ([interface{}])

    A slice is a list: the functions below only take the length of a
    slice and index it, so a nil slice and an empty one are the same. *)

#[warnings="-register-all"]
Inductive value : Type :=
| VNil
| VString (s : string)
| VBool (b : bool)
| VList (l : list value)
| VMap (m : gmap string value).

(** [reflect.DeepEqual] on dynamic values. *)
Fixpoint DeepEqual (v1 v2 : value) {struct v1} : bool :=
  match v1, v2 with
  | VNil, VNil => true
  | VString a, VString b => bool_decide (a = b)
  | VBool a, VBool b => bool_decide (a = b)
  | VList l1, VList l2 =>
      (fix go (l1 l2 : list value) : bool :=
         match l1, l2 with
         | [], [] => true
         | x :: l1, y :: l2 => DeepEqual x y && go l1 l2
         | _, _ => false
         end) l1 l2
  | VMap m1, VMap m2 =>
      bool_decide (dom m1 = dom m2) &&
      map_fold (λ k x acc,
                acc && match m2 !! k with
                       | Some y => DeepEqual x y
                       | None => false
                       end) true m1
  | _, _ => false
  end.

(** Type assertions [v.(T)] panic when the dynamic type is not [T]. *)
Definition asString (v : value) : outcome string :=
  match v with VString s => Done s | _ => Panic end.
Definition asBool (v : value) : outcome bool :=
  match v with VBool b => Done b | _ => Panic end.
Definition asList (v : value) : outcome (list value) :=
  match v with VList l => Done l | _ => Panic end.
Definition asMap (v : value) : outcome (gmap string value) :=
  match v with VMap m => Done m | _ => Panic end.

(** [m[key]]: a missing key yields the zero value of [interface{}]. *)
Definition mapIndex (m : gmap string value) (key : string) : value :=
  default VNil (m !! key).

(** ** Package [aws]: pointer helpers *)

Module aws.
Definition String (s : string) : option string := Some s.
Definition StringValue (p : option string) : string := default "" p.
Definition Bool (b : bool) : option bool := Some b.
Definition BoolValue (p : option bool) : bool := default false p.
Definition Int64 (n : Z) : option Z := Some n.
End aws.

(** ** Package [strings] *)

Module strings.
Definition HasPrefix (s pfx : string) : bool := String.prefix pfx s.

Definition Index (s sub : string) : option nat := String.index 0 sub s.

Definition Contains (s sub : string) : bool :=
  match Index s sub with Some _ => true | None => false end.

(** [strings.SplitN(s, sep, n)] for a non-empty [sep] and [n >= 0]:
    at most [n] pieces, the last one being the unsplit remainder. *)
Fixpoint SplitN (s sep : string) (n : nat) : list string :=
  match n with
  | 0 => []
  | S n' =>
      match n' with
      | 0 => [s]
      | S _ =>
          match Index s sep with
          | Some i =>
              let j := i + String.length sep in
              substring 0 i s
                :: SplitN (substring j (String.length s - j) s) sep n'
          | None => [s]
          end
      end
  end.

(** [strings.Replace(s, old, new, 1)] for a non-empty [old]. *)
Definition Replace1 (s old new : string) : string :=
  match Index s old with
  | Some i =>
      let j := i + String.length old in
      substring 0 i s +:+ new +:+ substring j (String.length s - j) s
  | None => s
  end.
End strings.

(** ** Errors

    A Go [error] value is [option error], [None] being [nil].  An error
    of the SDK implements [awserr.Error] and carries a code and a
    message next to its text; [fmt.Errorf] with the verb [%w] keeps the
    wrapped error reachable for [errors.As], with [%s] it does not. *)

Inductive error : Type :=
| awsError (code message text : string)
| errorString (text : string)
| wrapError (text : string) (err : error).

Definition Error (e : error) : string :=
  match e with
  | awsError _ _ text => text
  | errorString text => text
  | wrapError text _ => text
  end.

(** [errors.As(err, &awsErr)]: the first [awserr.Error] of the chain. *)
Fixpoint asAwsErr (e : error) : option (string * string) :=
  match e with
  | awsError code message _ => Some (code, message)
  | errorString _ => None
  | wrapError _ e' => asAwsErr e'
  end.

Module tfawserr.
Definition ErrCodeEquals (err : option error) (code : string) : bool :=
  match err ≫= asAwsErr with
  | Some (c, _) => bool_decide (c = code)
  | None => false
  end.

Definition ErrMessageContains (err : option error) (code message : string) : bool :=
  match err ≫= asAwsErr with
  | Some (c, m) => bool_decide (c = code) && strings.Contains m message
  | None => false
  end.
End tfawserr.

Module fmt.
(** [fmt.Errorf(prefix + "%s", err)] and [fmt.Errorf(prefix + "%w", err)]. *)
Definition Errorf_s (prefix : string) (err : error) : error :=
  errorString (prefix +:+ Error err).
Definition Errorf_w (prefix : string) (err : error) : error :=
  wrapError (prefix +:+ Error err) err.
Definition Errorf (text : string) : error := errorString text.
End fmt.

(** ** The schema of a configuration block *)

Inductive ValueType := TypeString | TypeBool | TypeList.

Definition has_type (v : value) (t : ValueType) : bool :=
  match v, t with
  | VString _, TypeString => true
  | VBool _, TypeBool => true
  | VList _, TypeList => true
  | _, _ => false
  end.

(** A map conforms to an element schema when it carries exactly the
    declared keys, each with a value of the declared type. *)
Definition conforms (sch : gmap string ValueType) (m : gmap string value) : bool :=
  bool_decide (dom m = dom sch) &&
  bool_decide (map_Forall (λ k t, from_option (λ v, has_type v t) false (m !! k) = true) sch).

(** A block list with [MinItems: 0] and [MaxItems: 1] is structurally
    valid when it is empty or holds one conforming map. *)
Definition block_valid (sch : gmap string ValueType) (x : list value) : bool :=
  match x with
  | [] => true
  | [VMap m] => conforms sch m
  | _ => false
  end.

(** ** Package [arn] of the SDK *)

Module arn.
Record ARN := {
  Partition : string;
  Service : string;
  Region : string;
  AccountID : string;
  Resource : string;
}.

Definition empty : ARN :=
  {| Partition := ""; Service := ""; Region := ""; AccountID := ""; Resource := "" |}.

(** [arn.Parse]: the prefix ["arn:"] and six colon-separated sections. *)
Definition Parse (s : string) : ARN * option error :=
  if negb (strings.HasPrefix s "arn:") then
    (empty, Some (errorString "arn: invalid prefix"))
  else
    match strings.SplitN s ":" 6 with
    | [_; partition; service; region; accountID; resource] =>
        ({| Partition := partition; Service := service; Region := region;
            AccountID := accountID; Resource := resource |}, None)
    | _ => (empty, Some (errorString "arn: not enough sections"))
    end.

Definition String (a : ARN) : string :=
  "arn:" +:+ Partition a +:+ ":" +:+ Service a +:+ ":" +:+ Region a
    +:+ ":" +:+ AccountID a +:+ ":" +:+ Resource a.
End arn.

(** ** Package [schema]: the resource data handed to a CRUD function

    [rd_state] holds the attributes of the prior state, [rd_attrs] the
    planned attributes merged with whatever the running operation has
    set so far.  The operations take the resource's top-level schema. *)

Record ResourceData := {
  rd_id : string;
  rd_isNew : bool;
  rd_state : gmap string value;
  rd_attrs : gmap string value;
}.

Module schema.
Definition Zero (t : ValueType) : value :=
  match t with
  | TypeString => VString ""
  | TypeBool => VBool false
  | TypeList => VList []
  end.

Section ops.
Context (sch : gmap string ValueType).

Definition read (m : gmap string value) (key : string) : value :=
  match sch !! key with
  | Some t => default (Zero t) (m !! key)
  | None => VNil
  end.

Definition Get (d : ResourceData) (key : string) : value :=
  read (rd_attrs d) key.

(** [GetOk]: the value, and whether it is set to a non-zero value. *)
Definition GetOk (d : ResourceData) (key : string) : value * bool :=
  match sch !! key, rd_attrs d !! key with
  | Some t, Some v => (v, negb (DeepEqual v (Zero t)))
  | _, _ => (Get d key, false)
  end.

Definition HasChange (d : ResourceData) (key : string) : bool :=
  negb (DeepEqual (read (rd_state d) key) (read (rd_attrs d) key)).

(** [d.Set] (named [Set_], [Set] being reserved): a nil value (a nil
    pointer) unsets the attribute; an unknown key or a value of
    another type than the declared one is rejected, with an error
    whose text stands for the framework's. *)
Definition Set_ (d : ResourceData) (key : string) (v : value)
  : ResourceData * option error :=
  match sch !! key, v with
  | None, _ => (d, Some (errorString ("Invalid address to set: " +:+ key)))
  | Some _, VNil =>
      ({| rd_id := rd_id d; rd_isNew := rd_isNew d; rd_state := rd_state d;
          rd_attrs := delete key (rd_attrs d) |}, None)
  | Some t, _ =>
      if has_type v t then
        ({| rd_id := rd_id d; rd_isNew := rd_isNew d; rd_state := rd_state d;
            rd_attrs := <[key := v]> (rd_attrs d) |}, None)
      else (d, Some (errorString (key +:+ ": value of the wrong type")))
  end.
End ops.

Definition SetId (d : ResourceData) (id : string) : ResourceData :=
  {| rd_id := id; rd_isNew := rd_isNew d; rd_state := rd_state d;
     rd_attrs := rd_attrs d |}.
End schema.

(** A pointer to a string or a bool handed to [d.Set]. *)
Definition ptrString (p : option string) : value :=
  match p with Some s => VString s | None => VNil end.
Definition ptrBool (p : option bool) : value :=
  match p with Some b => VBool b | None => VNil end.

(** ** The monad of the CRUD functions

    A computation reads and writes a state and either returns or
    panics; the state reached is kept in both cases.  The remote side
    is a world [W] together with the log of the calls issued so far; a
    connection answers a call [c : E] from the world and moves it on.
    The log is instrumentation: no function reads it. *)

Definition M (S A : Type) : Type := S → outcome A * S.

#[global] Instance M_ret {S} : MRet (M S) := λ A a s, (Done a, s).
#[global] Instance M_bind {S} : MBind (M S) :=
  λ A B f m s, match m s with
               | (Done a, s') => f a s'
               | (Panic, s') => (Panic, s')
               end.

Definition liftO {S A} (o : outcome A) : M S A := λ s, (o, s).

Record env (W E : Type) := { world : W; calls : list E }.
Arguments world {W E} _.
Arguments calls {W E} _.

Record rstate (W E : Type) := { res : ResourceData; remote : env W E }.
Arguments res {W E} _.
Arguments remote {W E} _.

Section effects.
Context {W E : Type} {R : E → Type}.

(** The connection: every call is answered with an output and an error. *)
Definition Conn : Type := ∀ c : E, W → (option (R c) * option error) * W.

Definition send (conn : Conn) (c : E) (e : env W E)
  : (option (R c) * option error) * env W E :=
  let '(r, w) := conn c (world e) in
  (r, {| world := w; calls := calls e ++ [c] |}).

Definition invoke (conn : Conn) (c : E)
  : M (rstate W E) (option (R c) * option error) :=
  λ s, let '(r, e) := send conn c (remote s) in
       (Done r, {| res := res s; remote := e |}).

Definition getData : M (rstate W E) ResourceData := λ s, (Done (res s), s).

Definition putData (d : ResourceData) : M (rstate W E) unit :=
  λ s, (Done tt, {| res := d; remote := remote s |}).

(** The state after the call [c] was answered and the world became [w]. *)
Definition called (s : rstate W E) (c : E) (w : W) : rstate W E :=
  {| res := res s;
     remote := {| world := w; calls := calls (remote s) ++ [c] |} |}.

(** The calls issued between the states [s] and [s']. *)
Definition issued (s s' : rstate W E) : list E :=
  drop (List.length (calls (remote s))) (calls (remote s')).
End effects.
Arguments Conn : clear implicits.

Definition withData {W E} (d : ResourceData) (s : rstate W E) : rstate W E :=
  {| res := d; remote := remote s |}.

Definition count {A} (p : A → bool) (l : list A) : nat :=
  List.length (List.filter p l).

(** An error returned by a step ends the function, as [return err] does. *)
Definition orReturn {S} (m : M S (option error)) (k : M S (option error))
  : M S (option error) :=
  err ← m; match err with Some e => mret (Some e) | None => k end.

Module s3control.

(** *** SDK structs *)

Record VpcConfiguration := { VpcId : option string }.

Record PublicAccessBlockConfiguration := {
  BlockPublicAcls : option bool;
  BlockPublicPolicy : option bool;
  IgnorePublicAcls : option bool;
  RestrictPublicBuckets : option bool;
}.

(** Element schemas of the two blocks of [ResourceAccessPoint]. *)
Definition vpc_configuration_elem : gmap string ValueType :=
  {[ "vpc_id" := TypeString ]}.

Definition public_access_block_configuration_elem : gmap string ValueType :=
  {[ "block_public_acls" := TypeBool;
     "block_public_policy" := TypeBool;
     "ignore_public_acls" := TypeBool;
     "restrict_public_buckets" := TypeBool ]}.

(** *** Shape translators *)

Definition expandS3AccessPointVpcConfiguration (vConfig : list value)
  : outcome (option VpcConfiguration) :=
  match vConfig with
  | [] => Done None
  | VNil :: _ => Done None
  | v0 :: _ =>
      mConfig ← asMap v0;
      vpc_id ← asString (mapIndex mConfig "vpc_id");
      Done (Some {| VpcId := aws.String vpc_id |})
  end.

Definition flattenS3AccessPointVpcConfiguration (config : option VpcConfiguration)
  : list value :=
  match config with
  | None => []
  | Some config =>
      [VMap {[ "vpc_id" := VString (aws.StringValue (VpcId config)) ]}]
  end.

Definition expandS3AccessPointPublicAccessBlockConfiguration (vConfig : list value)
  : outcome (option PublicAccessBlockConfiguration) :=
  match vConfig with
  | [] => Done None
  | VNil :: _ => Done None
  | v0 :: _ =>
      mConfig ← asMap v0;
      a ← asBool (mapIndex mConfig "block_public_acls");
      b ← asBool (mapIndex mConfig "block_public_policy");
      c ← asBool (mapIndex mConfig "ignore_public_acls");
      r ← asBool (mapIndex mConfig "restrict_public_buckets");
      Done (Some {| BlockPublicAcls := aws.Bool a;
                    BlockPublicPolicy := aws.Bool b;
                    IgnorePublicAcls := aws.Bool c;
                    RestrictPublicBuckets := aws.Bool r |})
  end.

Definition flattenS3AccessPointPublicAccessBlockConfiguration
  (config : option PublicAccessBlockConfiguration) : list value :=
  match config with
  | None => []
  | Some config =>
      [VMap {[ "block_public_acls" := VBool (aws.BoolValue (BlockPublicAcls config));
               "block_public_policy" := VBool (aws.BoolValue (BlockPublicPolicy config));
               "ignore_public_acls" := VBool (aws.BoolValue (IgnorePublicAcls config));
               "restrict_public_buckets" := VBool (aws.BoolValue (RestrictPublicBuckets config)) ]}]
  end.

(** *** Requests and responses of the S3 Control API *)

Module CreateAccessPointInput.
Record t := {
  AccountId : option string;
  Bucket : option string;
  Name : option string;
  PublicAccessBlockConfiguration : option PublicAccessBlockConfiguration;
  VpcConfiguration : option VpcConfiguration;
}.
End CreateAccessPointInput.

Module CreateAccessPointOutput.
Record t := { AccessPointArn : option string }.
End CreateAccessPointOutput.

Module PutAccessPointPolicyInput.
Record t := {
  AccountId : option string;
  Name : option string;
  Policy : option string;
}.
End PutAccessPointPolicyInput.

(** The inputs of [GetAccessPoint], [GetAccessPointPolicy],
    [GetAccessPointPolicyStatus], [DeleteAccessPointPolicy] and
    [DeleteAccessPoint] all have the two fields [AccountId] and [Name]. *)
Module AccessPointInput.
Record t := {
  AccountId : option string;
  Name : option string;
}.
End AccessPointInput.

Module GetAccessPointOutput.
Record t := {
  Bucket : option string;
  Name : option string;
  NetworkOrigin : option string;
  PublicAccessBlockConfiguration : option PublicAccessBlockConfiguration;
  VpcConfiguration : option VpcConfiguration;
}.
End GetAccessPointOutput.

Module GetAccessPointPolicyOutput.
Record t := { Policy : option string }.
End GetAccessPointPolicyOutput.

Record PolicyStatus := { IsPublic : option bool }.

Module GetAccessPointPolicyStatusOutput.
Record t := { PolicyStatus : option PolicyStatus }.
End GetAccessPointPolicyStatusOutput.

(** The operations of the connection, each with its input. *)
Inductive call : Type :=
| CreateAccessPoint (input : CreateAccessPointInput.t)
| PutAccessPointPolicy (input : PutAccessPointPolicyInput.t)
| DeleteAccessPointPolicy (input : AccessPointInput.t)
| GetAccessPoint (input : AccessPointInput.t)
| GetAccessPointPolicy (input : AccessPointInput.t)
| GetAccessPointPolicyStatus (input : AccessPointInput.t)
| DeleteAccessPoint (input : AccessPointInput.t).

Definition output (c : call) : Type :=
  match c with
  | CreateAccessPoint _ => CreateAccessPointOutput.t
  | PutAccessPointPolicy _ => unit
  | DeleteAccessPointPolicy _ => unit
  | GetAccessPoint _ => GetAccessPointOutput.t
  | GetAccessPointPolicy _ => GetAccessPointPolicyOutput.t
  | GetAccessPointPolicyStatus _ => GetAccessPointPolicyStatusOutput.t
  | DeleteAccessPoint _ => unit
  end.

(** The calls that change the remote object. *)
Definition is_mutation (c : call) : bool :=
  match c with
  | CreateAccessPoint _ | PutAccessPointPolicy _
  | DeleteAccessPointPolicy _ | DeleteAccessPoint _ => true
  | _ => false
  end.

Definition is_PutAccessPointPolicy (c : call) : bool :=
  match c with PutAccessPointPolicy _ => true | _ => false end.

Definition is_DeleteAccessPointPolicy (c : call) : bool :=
  match c with DeleteAccessPointPolicy _ => true | _ => false end.

(** Modelled from the spec: the constant [errCodeNoSuchAccessPoint] is
    declared in a file of the package that is not part of the sources;
    it is the error code [NoSuchAccessPoint] that [resourceAccessPointDelete]
    spells out. *)
Definition errCodeNoSuchAccessPoint : string := "NoSuchAccessPoint".

(** The top-level attribute types of [ResourceAccessPoint]. *)
Definition Schema : gmap string ValueType :=
  {[ "account_id" := TypeString;
     "arn" := TypeString;
     "bucket" := TypeString;
     "domain_name" := TypeString;
     "has_public_access_policy" := TypeBool;
     "name" := TypeString;
     "network_origin" := TypeString;
     "policy" := TypeString;
     "public_access_block_configuration" := TypeList;
     "vpc_configuration" := TypeList ]}.

(** *** Identifiers *)

Definition AccessPointParseID (id : string) : string * string * option error :=
  let '(parsedARN, err) := arn.Parse id in
  match err with
  | None => (arn.AccountID parsedARN, id, None)
  | Some _ =>
      let malformed :=
        ("", "", Some (fmt.Errorf ("unexpected format of ID (" +:+ id
                                     +:+ "), expected ACCOUNT_ID:NAME"))) in
      match strings.SplitN id ":" 2 with
      | [part0; part1] =>
          if bool_decide (part0 = "") || bool_decide (part1 = "")
          then malformed
          else (part0, part1, None)
      | _ => malformed
      end
  end.

(** *** The CRUD functions *)

Section crud.
Context {W : Type}.

(** The client behind [meta]: the connection and the provider's
    settings.  [RegionalHostname] is a method of the client whose
    code is not part of the sources. *)
Record AWSClient := {
  S3ControlConn : Conn W call output;
  AccountID : string;
  Partition : string;
  Region : string;
  RegionalHostname : string → string;
}.

Abbreviation St := (rstate W call).

Definition SetId (id : string) : M St unit :=
  d ← getData; putData (schema.SetId d id).

Definition Set_ (key : string) (v : value) : M St (option error) :=
  d ← getData;
  let '(d', err) := schema.Set_ Schema d key v in
  putData d';; mret err.

Definition key (accountId name : string) : AccessPointInput.t :=
  {| AccessPointInput.AccountId := aws.String accountId;
     AccessPointInput.Name := aws.String name |}.

(** The two secondary lookups that end [resourceAccessPointRead]
    (from [conn.GetAccessPointPolicy] to the final [return nil]). *)
Definition readSecondary (meta : AWSClient) (accountId name : string)
  : M St (option error) :=
  let conn := S3ControlConn meta in
  '(policyOutput, err) ← invoke conn (GetAccessPointPolicy (key accountId name));
  orReturn
    (if tfawserr.ErrMessageContains err "NoSuchAccessPointPolicy" "" then
       Set_ "policy" (VString "");; mret None
     else
       match err with
       | Some e =>
           d ← getData;
           mret (Some (fmt.Errorf_s ("error reading S3 Access Point (" +:+ rd_id d
                                       +:+ ") policy: ") e))
       | None =>
           match policyOutput with
           | None => liftO Panic
           | Some policyOutput =>
               Set_ "policy" (ptrString (GetAccessPointPolicyOutput.Policy policyOutput));;
               mret None
           end
       end) (
  (* Return early since S3 on Outposts cannot have public policies *)
  if strings.HasPrefix name "arn:" then
    Set_ "has_public_access_policy" (VBool false);; mret None
  else
  '(policyStatusOutput, err) ← invoke conn (GetAccessPointPolicyStatus (key accountId name));
  if tfawserr.ErrMessageContains err "NoSuchAccessPointPolicy" "" then
    Set_ "has_public_access_policy" (VBool false);; mret None
  else
    match err with
    | Some e =>
        d ← getData;
        mret (Some (fmt.Errorf_s ("error reading S3 Access Point (" +:+ rd_id d
                                    +:+ ") policy status: ") e))
    | None =>
        match policyStatusOutput ≫= GetAccessPointPolicyStatusOutput.PolicyStatus with
        | None => liftO Panic
        | Some policyStatus =>
            Set_ "has_public_access_policy" (ptrBool (IsPublic policyStatus));;
            mret None
        end
    end).

Definition resourceAccessPointRead (meta : AWSClient) : M St (option error) :=
  let conn := S3ControlConn meta in
  d ← getData;
  let '(accountId, name, err) := AccessPointParseID (rd_id d) in
  match err with
  | Some e => mret (Some e)
  | None =>
  '(output, err) ← invoke conn (GetAccessPoint (key accountId name));
  if negb (rd_isNew d) && tfawserr.ErrCodeEquals err errCodeNoSuchAccessPoint then
    SetId "";; mret None
  else
  match err with
  | Some e =>
      mret (Some (fmt.Errorf_w ("error reading S3 Access Point (" +:+ rd_id d +:+ "): ") e))
  | None =>
  match output with
  | None =>
      mret (Some (fmt.Errorf ("error reading S3 Access Point (" +:+ rd_id d
                                +:+ "): empty response")))
  | Some output =>
  orReturn
    (if strings.HasPrefix name "arn:" then
       let '(parsedAccessPointARN, err) := arn.Parse name in
       match err with
       | Some e =>
           mret (Some (fmt.Errorf_w ("error parsing S3 Control Access Point ARN ("
                                       +:+ name +:+ "): ") e))
       | None =>
           let bucketARN :=
             {| arn.AccountID := arn.AccountID parsedAccessPointARN;
                arn.Partition := arn.Partition parsedAccessPointARN;
                arn.Region := arn.Region parsedAccessPointARN;
                arn.Resource :=
                  strings.Replace1 (arn.Resource parsedAccessPointARN)
                    ("accesspoint/" +:+ aws.StringValue (GetAccessPointOutput.Name output))
                    ("bucket/" +:+ aws.StringValue (GetAccessPointOutput.Bucket output));
                arn.Service := arn.Service parsedAccessPointARN |} in
           Set_ "arn" (VString name);;
           Set_ "bucket" (VString (arn.String bucketARN));;
           mret None
       end
     else
       let accessPointARN :=
         {| arn.AccountID := accountId;
            arn.Partition := Partition meta;
            arn.Region := Region meta;
            arn.Resource :=
              "accesspoint/" +:+ aws.StringValue (GetAccessPointOutput.Name output);
            arn.Service := "s3" |} in
       Set_ "arn" (VString (arn.String accessPointARN));;
       Set_ "bucket" (ptrString (GetAccessPointOutput.Bucket output));;
       mret None) (
  Set_ "account_id" (VString accountId);;
  Set_ "domain_name"
    (VString (RegionalHostname meta
                (aws.StringValue (GetAccessPointOutput.Name output) +:+ "-"
                   +:+ accountId +:+ ".s3-accesspoint")));;
  Set_ "name" (ptrString (GetAccessPointOutput.Name output));;
  Set_ "network_origin" (ptrString (GetAccessPointOutput.NetworkOrigin output));;
  orReturn
    (err ← Set_ "public_access_block_configuration"
             (VList (flattenS3AccessPointPublicAccessBlockConfiguration
                       (GetAccessPointOutput.PublicAccessBlockConfiguration output)));
     mret (fmt.Errorf_s "error setting public_access_block_configuration: " <$> err)) (
  orReturn
    (err ← Set_ "vpc_configuration"
             (VList (flattenS3AccessPointVpcConfiguration
                       (GetAccessPointOutput.VpcConfiguration output)));
     mret (fmt.Errorf_s "error setting vpc_configuration: " <$> err)) (
  readSecondary meta accountId name)))
  end end end.

(** The policy step shared by Create and Update: the call, and the
    error it is reported with. *)
Definition putPolicy (meta : AWSClient) (accountId name : string) (v : value)
  : M St (option error) :=
  policy ← liftO (asString v);
  '(_, err) ← invoke (S3ControlConn meta)
                (PutAccessPointPolicy
                   {| PutAccessPointPolicyInput.AccountId := aws.String accountId;
                      PutAccessPointPolicyInput.Name := aws.String name;
                      PutAccessPointPolicyInput.Policy := aws.String policy |});
  d ← getData;
  mret (fmt.Errorf_s ("error putting S3 Access Point (" +:+ rd_id d +:+ ") policy: ")
          <$> err).

Definition resourceAccessPointCreate (meta : AWSClient) : M St (option error) :=
  let conn := S3ControlConn meta in
  d ← getData;
  accountId ← (let '(v, ok) := schema.GetOk Schema d "account_id" in
               if ok then liftO (asString v) else mret (AccountID meta));
  name ← liftO (asString (schema.Get Schema d "name"));
  bucket ← liftO (asString (schema.Get Schema d "bucket"));
  pab ← liftO (asList (schema.Get Schema d "public_access_block_configuration")
                 ≫= expandS3AccessPointPublicAccessBlockConfiguration);
  vpc ← liftO (asList (schema.Get Schema d "vpc_configuration")
                 ≫= expandS3AccessPointVpcConfiguration);
  let input :=
    {| CreateAccessPointInput.AccountId := aws.String accountId;
       CreateAccessPointInput.Bucket := aws.String bucket;
       CreateAccessPointInput.Name := aws.String name;
       CreateAccessPointInput.PublicAccessBlockConfiguration := pab;
       CreateAccessPointInput.VpcConfiguration := vpc |} in
  '(output, err) ← invoke conn (CreateAccessPoint input);
  match err with
  | Some e =>
      mret (Some (fmt.Errorf_w ("error creating S3 Control Access Point (" +:+ name
                                  +:+ "): ") e))
  | None =>
  match output with
  | None =>
      mret (Some (fmt.Errorf ("error creating S3 Control Access Point (" +:+ name
                                +:+ "): empty response")))
  | Some output =>
  let accessPointArn := aws.StringValue (CreateAccessPointOutput.AccessPointArn output) in
  let '(parsedARN, err) := arn.Parse accessPointArn in
  let outposts :=
    bool_decide (err = None) && strings.HasPrefix (arn.Resource parsedARN) "outpost/" in
  (if outposts then SetId accessPointArn
   else SetId (accountId +:+ ":" +:+ name));;
  let name := if outposts then accessPointArn else name in
  d ← getData;
  orReturn
    (let '(v, ok) := schema.GetOk Schema d "policy" in
     if ok then putPolicy meta accountId name v else mret None)
    (resourceAccessPointRead meta)
  end end.

Definition resourceAccessPointUpdate (meta : AWSClient) : M St (option error) :=
  let conn := S3ControlConn meta in
  d ← getData;
  let '(accountId, name, err) := AccessPointParseID (rd_id d) in
  match err with
  | Some e => mret (Some e)
  | None =>
  orReturn
    (if schema.HasChange Schema d "policy" then
       let '(v, ok) := schema.GetOk Schema d "policy" in
       if ok then putPolicy meta accountId name v
       else
         '(_, err) ← invoke conn (DeleteAccessPointPolicy (key accountId name));
         mret (fmt.Errorf_s ("error deleting S3 Access Point (" +:+ rd_id d
                               +:+ ") policy: ") <$> err)
     else mret None)
    (resourceAccessPointRead meta)
  end.

Definition resourceAccessPointDelete (meta : AWSClient) : M St (option error) :=
  let conn := S3ControlConn meta in
  d ← getData;
  let '(accountId, name, err) := AccessPointParseID (rd_id d) in
  match err with
  | Some e => mret (Some e)
  | None =>
  '(_, err) ← invoke conn (DeleteAccessPoint (key accountId name));
  if tfawserr.ErrMessageContains err "NoSuchAccessPoint" "" then mret None
  else
    mret (fmt.Errorf_s ("error deleting S3 Access Point (" +:+ rd_id d +:+ "): ")
            <$> err)
  end.

End crud.
Arguments AWSClient W : clear implicits.

End s3control.

Module config.

(** *** SDK structs of the Config service *)

Section recorder.
(** [configservice.RecordingGroup] and its two translators are
    declared in files of the package that are not part of the
    sources; the resource functions are stated over any of them.
    [goSyntax] renders a recorder list with the verb [%#v], which
    prints the pointers' addresses. *)
Context {W : Type} {RecordingGroup : Type}.
Context (expandRecordingGroup : list value → outcome (option RecordingGroup)).
Context (flattenRecordingGroup : RecordingGroup → list value).

Record ConfigurationRecorder := {
  Name : option string;
  RoleARN : option string;
  RecordingGroup_ : option RecordingGroup;
}.

Record DescribeConfigurationRecordersOutput := {
  ConfigurationRecorders : list (option ConfigurationRecorder);
}.

Context (goSyntax : list (option ConfigurationRecorder) → string).

Inductive call : Type :=
| PutConfigurationRecorder (ConfigurationRecorder_ : option ConfigurationRecorder)
| DescribeConfigurationRecorders (ConfigurationRecorderNames : list (option string))
| DeleteConfigurationRecorder (ConfigurationRecorderName : option string).

Definition output (c : call) : Type :=
  match c with
  | PutConfigurationRecorder _ => unit
  | DescribeConfigurationRecorders _ => DescribeConfigurationRecordersOutput
  | DeleteConfigurationRecorder _ => unit
  end.

Definition is_mutation (c : call) : bool :=
  match c with
  | PutConfigurationRecorder _ | DeleteConfigurationRecorder _ => true
  | DescribeConfigurationRecorders _ => false
  end.

(** [configservice.ErrCodeNoSuchConfigurationRecorderException] *)
Definition ErrCodeNoSuchConfigurationRecorderException : string :=
  "NoSuchConfigurationRecorderException".

(** The top-level attribute types of [ResourceConfigurationRecorder]. *)
Definition Schema : gmap string ValueType :=
  {[ "name" := TypeString;
     "role_arn" := TypeString;
     "recording_group" := TypeList ]}.

Record AWSClient := { ConfigConn : Conn W call output }.

Abbreviation St := (rstate W call).

Definition SetId (id : string) : M St unit :=
  d ← getData; putData (schema.SetId d id).

Definition Set_ (key : string) (v : value) : M St (option error) :=
  d ← getData;
  let '(d', err) := schema.Set_ Schema d key v in
  putData d';; mret err.

Definition resourceConfigurationRecorderRead (meta : AWSClient) : M St (option error) :=
  let conn := ConfigConn meta in
  d ← getData;
  '(out, err) ← invoke conn (DescribeConfigurationRecorders [aws.String (rd_id d)]);
  match err with
  | Some e =>
      if tfawserr.ErrMessageContains err ErrCodeNoSuchConfigurationRecorderException "" then
        SetId "";; mret None
      else mret (Some (fmt.Errorf_s "Getting Configuration Recorder failed: " e))
  | None =>
  match out with
  | None => liftO Panic
  | Some out =>
  let numberOfRecorders := List.length (ConfigurationRecorders out) in
  if bool_decide (numberOfRecorders < 1) then
    SetId "";; mret None
  else if bool_decide (1 < numberOfRecorders) then
    mret (Some (fmt.Errorf ("Expected exactly 1 Configuration Recorder, received "
                              +:+ pretty numberOfRecorders +:+ ": "
                              +:+ goSyntax (ConfigurationRecorders out))))
  else
  match ConfigurationRecorders out with
  | Some recorder :: _ =>
      Set_ "name" (ptrString (Name recorder));;
      Set_ "role_arn" (ptrString (RoleARN recorder));;
      match RecordingGroup_ recorder with
      | Some g =>
          let flattened := flattenRecordingGroup g in
          err ← Set_ "recording_group" (VList flattened);
          mret (fmt.Errorf_s "Failed to set recording_group: " <$> err)
      | None => mret None
      end
  | _ => liftO Panic
  end
  end end.

Definition resourceConfigurationRecorderPut (meta : AWSClient) : M St (option error) :=
  let conn := ConfigConn meta in
  d ← getData;
  name ← liftO (asString (schema.Get Schema d "name"));
  role_arn ← liftO (asString (schema.Get Schema d "role_arn"));
  group ← (let '(g, ok) := schema.GetOk Schema d "recording_group" in
           if ok then liftO (asList g ≫= expandRecordingGroup) else mret None);
  let recorder :=
    {| Name := aws.String name; RoleARN := aws.String role_arn;
       RecordingGroup_ := group |} in
  '(_, err) ← invoke conn (PutConfigurationRecorder (Some recorder));
  match err with
  | Some e => mret (Some (fmt.Errorf_s "Creating Configuration Recorder failed: " e))
  | None => SetId name;; resourceConfigurationRecorderRead meta
  end.

Definition resourceConfigurationRecorderDelete (meta : AWSClient) : M St (option error) :=
  let conn := ConfigConn meta in
  d ← getData;
  '(_, err) ← invoke conn (DeleteConfigurationRecorder (aws.String (rd_id d)));
  match err with
  | Some e =>
      if negb (tfawserr.ErrMessageContains err ErrCodeNoSuchConfigurationRecorderException "")
      then mret (Some (fmt.Errorf_s "Deleting Configuration Recorder failed: " e))
      else mret None
  | None => mret None
  end.

End recorder.
Arguments AWSClient : clear implicits.
Arguments call : clear implicits.
Arguments ConfigurationRecorder : clear implicits.
Arguments DescribeConfigurationRecordersOutput : clear implicits.

End config.

Module cloudwatchevents.

Module ListTargetsByRuleInput.
Record t := {
  EventBusName : option string;
  Limit : option Z;
  NextToken : option string;
  Rule : option string;
}.
End ListTargetsByRuleInput.

Module ListTargetsByRuleOutput.
Record t (Target : Type) := {
  NextToken : option string;
  Targets : list Target;
}.
Arguments NextToken {Target} _.
Arguments Targets {Target} _.
End ListTargetsByRuleOutput.

Inductive call : Type :=
| ListTargetsByRule (input : ListTargetsByRuleInput.t).

Definition input_of (c : call) : ListTargetsByRuleInput.t :=
  match c with ListTargetsByRule input => input end.

Section list.
Context {W Target : Type}.

Definition output (c : call) : Type := ListTargetsByRuleOutput.t Target.

Abbreviation Output := (ListTargetsByRuleOutput.t Target).

(** The per-page callback: it sees the page and whether it is the
    last one, answers whether to go on, and may update what it
    captured (a part of the world). *)
Definition Callback : Type := Output → bool → W → bool * W.

(** Modelled from the spec: [ListTargetsByRulePages] is generated code
    ([list_pages_gen.go]) that is not part of the sources.  It
    repeatedly issues the listing call, hands each page to the
    callback and stops when the callback returns false or when no
    continuation cursor remains; otherwise the next request carries
    the cursor of the previous response.  An error of the call is
    returned.  [fuel] bounds the number of requests: [None] means
    that the bound was reached. *)
Fixpoint ListTargetsByRulePages (fuel : nat) (conn : Conn W call output)
    (input : ListTargetsByRuleInput.t) (fn : Callback) (e : env W call)
  : option (outcome (option error) * env W call) :=
  match fuel with
  | 0 => None
  | S fuel =>
      let '((output, err), e) := send conn (ListTargetsByRule input) e in
      match err with
      | Some err => Some (Done (Some err), e)
      | None =>
          match output with
          | None => Some (Panic, e)
          | Some output =>
              let lastPage :=
                bool_decide (aws.StringValue (ListTargetsByRuleOutput.NextToken output) = "") in
              let '(continue, w) := fn output lastPage (world e) in
              let e := {| world := w; calls := calls e |} in
              if negb continue || lastPage then Some (Done None, e)
              else
                ListTargetsByRulePages fuel conn
                  {| ListTargetsByRuleInput.EventBusName :=
                       ListTargetsByRuleInput.EventBusName input;
                     ListTargetsByRuleInput.Limit :=
                       ListTargetsByRuleInput.Limit input;
                     ListTargetsByRuleInput.NextToken :=
                       ListTargetsByRuleOutput.NextToken output;
                     ListTargetsByRuleInput.Rule :=
                       ListTargetsByRuleInput.Rule input |}
                  fn e
          end
      end
  end.

Definition ListAllTargetsForRulePages (fuel : nat) (conn : Conn W call output)
    (busName ruleName : string) (fn : Callback)
  : env W call → option (outcome (option error) * env W call) :=
  let input :=
    {| ListTargetsByRuleInput.Rule := aws.String ruleName;
       ListTargetsByRuleInput.Limit := aws.Int64 100;
       ListTargetsByRuleInput.EventBusName := None;
       ListTargetsByRuleInput.NextToken := None |} in
  let input :=
    if bool_decide (busName ≠ "") then
      {| ListTargetsByRuleInput.Rule := ListTargetsByRuleInput.Rule input;
         ListTargetsByRuleInput.Limit := ListTargetsByRuleInput.Limit input;
         ListTargetsByRuleInput.EventBusName := aws.String busName;
         ListTargetsByRuleInput.NextToken := ListTargetsByRuleInput.NextToken input |}
    else input in
  ListTargetsByRulePages fuel conn input fn.

End list.
Arguments Callback : clear implicits.

End cloudwatchevents.

(** ** Vocabulary of the statements *)

(** An identifier of the composite form: an account without a colon, a
    colon and a name, both non-empty. *)
Definition composite (id account name : string) : Prop :=
  id = account +:+ ":" +:+ name ∧ strings.Contains account ":" = false
  ∧ account ≠ "" ∧ name ≠ "".

Definition malformedID (id : string) : string * string * option error :=
  ("", "", Some (errorString ("unexpected format of ID (" +:+ id
                                +:+ "), expected ACCOUNT_ID:NAME"))).

Section statements.
Context {W E : Type} {R : E → Type}.

(** What the connection answers to the call [c] in the state [s]. *)
Definition answers (conn : Conn W E R) (c : E) (s : rstate W E)
    (r : option (R c) * option error) (w : W) : Prop :=
  conn c (world (remote s)) = (r, w).

(** A computation only appends calls that satisfy [P] to the log. *)
Definition appends {A} (P : E → Prop) (m : M (rstate W E) A) : Prop :=
  ∀ s, ∃ l, calls (remote (m s).2) = (calls (remote s) ++ l)%list ∧ Forall P l.
End statements.

Definition lookup_only (c : s3control.call) : Prop := s3control.is_mutation c = false.

(** The errors of the access point adapter, as [fmt.Errorf] renders them. *)
Definition readError (id : string) (e : error) : error :=
  fmt.Errorf_w ("error reading S3 Access Point (" +:+ id +:+ "): ") e.

(** The configuration [d] is well typed for Create: it yields the account
    id, the name and the creation request. *)
Definition configured {W} (meta : s3control.AWSClient W) (d : ResourceData)
    (accountId name : string) (input : s3control.CreateAccessPointInput.t) : Prop :=
  (let '(v, ok) := schema.GetOk s3control.Schema d "account_id" in
   if ok then asString v else Done (s3control.AccountID meta)) = Done accountId
  ∧ schema.Get s3control.Schema d "name" = VString name
  ∧ ∃ bucket pl vl pab vpc,
      schema.Get s3control.Schema d "bucket" = VString bucket
      ∧ schema.Get s3control.Schema d "public_access_block_configuration" = VList pl
      ∧ s3control.expandS3AccessPointPublicAccessBlockConfiguration pl = Done pab
      ∧ schema.Get s3control.Schema d "vpc_configuration" = VList vl
      ∧ s3control.expandS3AccessPointVpcConfiguration vl = Done vpc
      ∧ input = {| s3control.CreateAccessPointInput.AccountId := aws.String accountId;
                   s3control.CreateAccessPointInput.Bucket := aws.String bucket;
                   s3control.CreateAccessPointInput.Name := aws.String name;
                   s3control.CreateAccessPointInput.PublicAccessBlockConfiguration := pab;
                   s3control.CreateAccessPointInput.VpcConfiguration := vpc |}.

(** The identifier Create derives from the ARN of the created access point. *)
Definition isOutposts (accessPointArn : string) : bool :=
  bool_decide ((arn.Parse accessPointArn).2 = None)
  && strings.HasPrefix (arn.Resource (arn.Parse accessPointArn).1) "outpost/".

Definition createdId (accountId name accessPointArn : string) : string :=
  if isOutposts accessPointArn then accessPointArn else accountId +:+ ":" +:+ name.

Definition putPolicyInput (accountId name policy : string) : s3control.call :=
  s3control.PutAccessPointPolicy
    {| s3control.PutAccessPointPolicyInput.AccountId := aws.String accountId;
       s3control.PutAccessPointPolicyInput.Name := aws.String name;
       s3control.PutAccessPointPolicyInput.Policy := aws.String policy |}.

(** The secondary lookups of Read: the absence signal, and the value each
    answer is mapped to ([None] when the answer makes Read fail). *)
Definition absent (err : option error) : bool :=
  tfawserr.ErrMessageContains err "NoSuchAccessPointPolicy" "".

Definition policy_of
    (r : option s3control.GetAccessPointPolicyOutput.t * option error) : option string :=
  if absent r.2 then Some ""
  else match r with
       | (Some policyOutput, None) =>
           Some (aws.StringValue (s3control.GetAccessPointPolicyOutput.Policy policyOutput))
       | _ => None
       end.

Definition public_of
    (r : option s3control.GetAccessPointPolicyStatusOutput.t * option error) : option bool :=
  if absent r.2 then Some false
  else match r with
       | (Some statusOutput, None) =>
           s3control.GetAccessPointPolicyStatusOutput.PolicyStatus statusOutput
             ≫= λ policyStatus, Some (aws.BoolValue (s3control.IsPublic policyStatus))
       | _ => None
       end.

Definition policyError (id : string) (e : error) : error :=
  fmt.Errorf_s ("error reading S3 Access Point (" +:+ id +:+ ") policy: ") e.

Definition statusError (id : string) (e : error) : error :=
  fmt.Errorf_s ("error reading S3 Access Point (" +:+ id +:+ ") policy status: ") e.

(** A step that only sets attributes leaves the identifier and the
    remote side alone. *)
Definition sets_only {W E A} (m : M (rstate W E) A) (a : A) : Prop :=
  ∀ s, ∃ d, rd_id d = rd_id (res s) ∧ m s = (Done a, withData d s).

(** The configuration [d] of a recorder is well typed for Put: it yields
    the recorder that is sent. *)
Definition recorder_configured {RecordingGroup}
    (expandRecordingGroup : list value → outcome (option RecordingGroup))
    (d : ResourceData) (name : string)
    (recorder : config.ConfigurationRecorder RecordingGroup) : Prop :=
  schema.Get config.Schema d "name" = VString name
  ∧ ∃ role_arn group,
      schema.Get config.Schema d "role_arn" = VString role_arn
      ∧ (let '(g, ok) := schema.GetOk config.Schema d "recording_group" in
         if ok then asList g ≫= expandRecordingGroup else Done None) = Done group
      ∧ recorder = {| config.Name := aws.String name;
                      config.RoleARN := aws.String role_arn;
                      config.RecordingGroup_ := group |}.

(** The absence signal of the Config service. *)
Definition recorder_gone (err : option error) : bool :=
  tfawserr.ErrMessageContains err config.ErrCodeNoSuchConfigurationRecorderException "".

(** The request [ListAllTargetsForRulePages] starts from, and what every
    later request keeps of it. *)
Definition listInput (busName ruleName : string) : cloudwatchevents.ListTargetsByRuleInput.t :=
  {| cloudwatchevents.ListTargetsByRuleInput.EventBusName :=
       if bool_decide (busName = "") then None else Some busName;
     cloudwatchevents.ListTargetsByRuleInput.Limit := Some 100%Z;
     cloudwatchevents.ListTargetsByRuleInput.NextToken := None;
     cloudwatchevents.ListTargetsByRuleInput.Rule := Some ruleName |}.

Definition withToken (token : option string) (input : cloudwatchevents.ListTargetsByRuleInput.t)
  : cloudwatchevents.ListTargetsByRuleInput.t :=
  {| cloudwatchevents.ListTargetsByRuleInput.EventBusName :=
       cloudwatchevents.ListTargetsByRuleInput.EventBusName input;
     cloudwatchevents.ListTargetsByRuleInput.Limit :=
       cloudwatchevents.ListTargetsByRuleInput.Limit input;
     cloudwatchevents.ListTargetsByRuleInput.NextToken := token;
     cloudwatchevents.ListTargetsByRuleInput.Rule :=
       cloudwatchevents.ListTargetsByRuleInput.Rule input |}.

Definition sameListing (input : cloudwatchevents.ListTargetsByRuleInput.t)
    (c : cloudwatchevents.call) : Prop :=
  ∃ token, cloudwatchevents.input_of c = withToken token input.

(** A page has no continuation cursor when its token is nil or empty. *)
Definition noCursor {Target} (output : cloudwatchevents.ListTargetsByRuleOutput.t Target) : bool :=
  bool_decide (aws.StringValue (cloudwatchevents.ListTargetsByRuleOutput.NextToken output) = "").

(** [e] is an error of the SDK with the code [code]. *)
Definition hasCode (e : error) (code : string) : bool :=
  tfawserr.ErrCodeEquals (Some e) code.

(** The remote answered without an error, or with the absence signal. *)
Definition done_or_gone (code : string) (err : option error) : Prop :=
  match err with
  | None => True
  | Some e => hasCode e code = true
  end.

(** ** Sample remotes

    Small connections used to run the functions on concrete inputs. *)

Module sample.
Import s3control.

Definition noSuchAccessPoint : error :=
  awsError "NoSuchAccessPoint" "The specified accesspoint does not exist"
    "NoSuchAccessPoint: The specified accesspoint does not exist".

Definition noSuchAccessPointPolicy : error :=
  awsError "NoSuchAccessPointPolicy" "The specified accesspoint policy does not exist"
    "NoSuchAccessPointPolicy: The specified accesspoint policy does not exist".

Definition accessDenied : error :=
  awsError "AccessDenied" "Access Denied" "AccessDenied: Access Denied".

Definition found : GetAccessPointOutput.t :=
  {| GetAccessPointOutput.Bucket := Some "bucket-1";
     GetAccessPointOutput.Name := Some "ap";
     GetAccessPointOutput.NetworkOrigin := Some "Internet";
     GetAccessPointOutput.PublicAccessBlockConfiguration := None;
     GetAccessPointOutput.VpcConfiguration := None |}.

(** A remote whose world says whether the access point exists.  It has
    no policy, and [statusDenied] makes the status lookup fail with
    [AccessDenied]. *)
Definition conn (statusDenied : bool) : Conn bool call output :=
  λ c present,
    match c with
    | CreateAccessPoint input =>
        ((Some {| CreateAccessPointOutput.AccessPointArn :=
                    Some ("arn:aws:s3:us-west-2:"
                            +:+ aws.StringValue (CreateAccessPointInput.AccountId input)
                            +:+ ":accesspoint/"
                            +:+ aws.StringValue (CreateAccessPointInput.Name input)) |},
          None), true)
    | PutAccessPointPolicy _ => ((Some tt, None), present)
    | DeleteAccessPointPolicy _ => ((Some tt, None), present)
    | GetAccessPoint _ =>
        (if present then (Some found, None) else (None, Some noSuchAccessPoint), present)
    | GetAccessPointPolicy _ => ((None, Some noSuchAccessPointPolicy), present)
    | GetAccessPointPolicyStatus _ =>
        ((None, Some (if statusDenied then accessDenied else noSuchAccessPointPolicy)),
         present)
    | DeleteAccessPoint _ =>
        (if present then (Some tt, None) else (None, Some noSuchAccessPoint), false)
    end.

Definition meta (statusDenied : bool) : AWSClient bool :=
  {| S3ControlConn := conn statusDenied;
     AccountID := "123456789012";
     Partition := "aws";
     Region := "us-west-2";
     RegionalHostname := λ prefix, prefix +:+ ".us-west-2.amazonaws.com" |}.

Definition state (id : string) (isNew present : bool)
    (old new : gmap string value) : rstate bool call :=
  {| res := {| rd_id := id; rd_isNew := isNew; rd_state := old; rd_attrs := new |};
     remote := {| world := present; calls := [] |} |}.

Definition planned : gmap string value :=
  {[ "name" := VString "ap"; "bucket" := VString "bucket-1" ]}.

(** A recorder remote: the world is the list of recorders it holds. *)
Definition recorders : Type := list (option (config.ConfigurationRecorder unit)).

Definition noSuchRecorder : error :=
  awsError "NoSuchConfigurationRecorderException"
    "Cannot find configuration recorder with the specified name"
    "NoSuchConfigurationRecorderException: Cannot find configuration recorder with the specified name".

Definition configConn : Conn recorders (config.call unit) config.output :=
  λ c held,
    match c with
    | config.PutConfigurationRecorder r => ((Some tt, None), [r])
    | config.DescribeConfigurationRecorders _ =>
        ((Some {| config.ConfigurationRecorders := held |}, None), held)
    | config.DeleteConfigurationRecorder _ =>
        (match held with
         | [] => (None, Some noSuchRecorder)
         | _ => (Some tt, None)
         end, [])
    end.

Definition configMeta : config.AWSClient recorders unit :=
  {| config.ConfigConn := configConn |}.

Definition recorder (name : string) : option (config.ConfigurationRecorder unit) :=
  Some {| config.Name := Some name; config.RoleARN := Some "arn:aws:iam::123456789012:role/r";
          config.RecordingGroup_ := None |}.

Definition configState (id : string) (held : recorders) (new : gmap string value)
  : rstate recorders (config.call unit) :=
  {| res := {| rd_id := id; rd_isNew := false; rd_state := ∅; rd_attrs := new |};
     remote := {| world := held; calls := [] |} |}.

(** A listing of three pages; the world counts the pages the callback saw. *)
Definition page (token : option string) : cloudwatchevents.ListTargetsByRuleOutput.t string :=
  match token with
  | None =>
      {| cloudwatchevents.ListTargetsByRuleOutput.NextToken := Some "t2";
         cloudwatchevents.ListTargetsByRuleOutput.Targets := ["a"] |}
  | Some "t2" =>
      {| cloudwatchevents.ListTargetsByRuleOutput.NextToken := Some "t3";
         cloudwatchevents.ListTargetsByRuleOutput.Targets := ["b"] |}
  | Some _ =>
      {| cloudwatchevents.ListTargetsByRuleOutput.NextToken := None;
         cloudwatchevents.ListTargetsByRuleOutput.Targets := ["c"] |}
  end.

Definition listConn : Conn nat cloudwatchevents.call (cloudwatchevents.output (Target:=string)) :=
  λ c seen,
    ((Some (page (cloudwatchevents.ListTargetsByRuleInput.NextToken
                    (cloudwatchevents.input_of c))), None), seen).

(** A callback that goes on while it has seen fewer than [n] pages. *)
Definition upTo (n : nat) : cloudwatchevents.Callback nat string :=
  λ _ _ seen, (bool_decide (S seen < n), S seen).

Definition fresh : env nat cloudwatchevents.call := {| world := 0; calls := [] |}.
End sample.

(** ** Vocabulary of the further statements *)

(** The resource data [d'] differs from [d] at most in the attributes
    [keys]: the identifier, the new-resource flag, the prior state and
    every other attribute are the same. *)
Definition touches (keys : list string) (d d' : ResourceData) : Prop :=
  rd_id d' = rd_id d
  ∧ rd_isNew d' = rd_isNew d
  ∧ rd_state d' = rd_state d
  ∧ ∀ k, k ∉ keys → rd_attrs d' !! k = rd_attrs d !! k.

(** A computation changes the resource data along the relation [R]. *)
Definition evolves {W E A} (R : ResourceData → ResourceData → Prop)
    (m : M (rstate W E) A) : Prop :=
  ∀ s, R (res s) (res (m s).2).

(** The keys of [ResourceAccessPoint] that Read sets. *)
Definition allKeys : list string :=
  ["arn"; "bucket"; "account_id"; "domain_name"; "name"; "network_origin";
   "public_access_block_configuration"; "vpc_configuration"; "policy";
   "has_public_access_policy"].

(** A computation issues no call, and one issues a prefix of [L]. *)
Definition silent {W E A} (m : M (rstate W E) A) : Prop :=
  ∀ s, remote (m s).2 = remote s.

Definition atmost {W E A} (L : list E) (m : M (rstate W E) A) : Prop :=
  ∀ s, ∃ l, calls (remote (m s).2) = (calls (remote s) ++ l)%list ∧ l `prefix_of` L.

(** The ARN and the bucket Read stores: for a name that is an ARN, the
    name itself and the ARN of the bucket; otherwise the ARN built from
    the provider's partition and region, and the bucket as returned. *)
Definition arnOf {W} (meta : s3control.AWSClient W) (accountId name : string)
    (out : s3control.GetAccessPointOutput.t) : string :=
  if strings.HasPrefix name "arn:" then name
  else arn.String {| arn.AccountID := accountId; arn.Partition := s3control.Partition meta;
                     arn.Region := s3control.Region meta;
                     arn.Resource := "accesspoint/"
                                       +:+ aws.StringValue (s3control.GetAccessPointOutput.Name out);
                     arn.Service := "s3" |}.

Definition bucketOf (name : string) (out : s3control.GetAccessPointOutput.t) : string :=
  if strings.HasPrefix name "arn:" then
    let p := (arn.Parse name).1 in
    arn.String {| arn.AccountID := arn.AccountID p; arn.Partition := arn.Partition p;
                  arn.Region := arn.Region p;
                  arn.Resource :=
                    strings.Replace1 (arn.Resource p)
                      ("accesspoint/" +:+ aws.StringValue (s3control.GetAccessPointOutput.Name out))
                      ("bucket/" +:+ aws.StringValue (s3control.GetAccessPointOutput.Bucket out));
                  arn.Service := arn.Service p |}
  else aws.StringValue (s3control.GetAccessPointOutput.Bucket out).

(** ** More sample remotes *)

Module failing.
Import s3control.

(** A remote that answers every call with neither an output nor an
    error. *)
Definition emptyConn {W E} {R : E → Type} : Conn W E R := λ c w, ((None, None), w).

(** A remote that creates access points and denies everything else. *)
Definition denyingConn : Conn bool call output :=
  λ c present,
    match c with
    | CreateAccessPoint input => sample.conn false c present
    | _ => ((None, Some sample.accessDenied), present)
    end.

(** A remote that answers the lookup of the access point, and every
    other call with neither an output nor an error. *)
Definition hollowConn : Conn bool call output :=
  λ c present,
    match c with
    | GetAccessPoint _ => ((Some sample.found, None), present)
    | _ => ((None, None), present)
    end.

Definition meta (conn : Conn bool call output) : AWSClient bool :=
  {| S3ControlConn := conn;
     AccountID := "123456789012";
     Partition := "aws";
     Region := "us-west-2";
     RegionalHostname := λ prefix, prefix +:+ ".us-west-2.amazonaws.com" |}.

Definition planned : gmap string value :=
  {[ "name" := VString "ap"; "bucket" := VString "bucket-1"; "policy" := VString "{}" ]}.

Definition input : CreateAccessPointInput.t :=
  {| CreateAccessPointInput.AccountId := Some "123456789012";
     CreateAccessPointInput.Bucket := Some "bucket-1";
     CreateAccessPointInput.Name := Some "ap";
     CreateAccessPointInput.PublicAccessBlockConfiguration := None;
     CreateAccessPointInput.VpcConfiguration := None |}.
End failing.

(** ** Termination without a panic *)

(** A computation never panics, and its result satisfies [Q]. *)
Definition post {S A} (Q : A → Prop) (m : M S A) : Prop :=
  ∀ s, match (m s).1 with Done a => Q a | Panic => False end.

(** The contract of the SDK that Read relies on without checking it: a
    policy lookup that reports no error carries an output, and a status
    lookup that reports no error carries an output with a status. *)
Definition sdkAnswer (c : s3control.call)
  : option (s3control.output c) * option error → Prop :=
  match c with
  | s3control.GetAccessPointPolicy _ => λ r, r.2 = None → is_Some r.1
  | s3control.GetAccessPointPolicyStatus _ =>
      λ r, r.2 = None
           → is_Some (r.1 ≫= s3control.GetAccessPointPolicyStatusOutput.PolicyStatus)
  | _ => λ _, True
  end.

Definition sdkContract {W} (conn : Conn W s3control.call s3control.output) : Prop :=
  ∀ c w, sdkAnswer c (conn c w).1.

(** The attributes of a recorder that Read may set. *)
Definition recorderKeys : list string := ["name"; "role_arn"; "recording_group"].

(** * Theorems *)

Example expand_vpc_ex :
  s3control.expandS3AccessPointVpcConfiguration [VMap {[ "vpc_id" := VString "vpc-1" ]}]
  = Done (Some {| s3control.VpcId := Some "vpc-1" |}).
Proof. reflexivity. Qed.

Example valid_vpc_ex :
  block_valid s3control.vpc_configuration_elem [VMap {[ "vpc_id" := VString "vpc-1" ]}] = true.
Proof. vm_compute. reflexivity. Qed.

Example valid_pab_ex :
  block_valid s3control.public_access_block_configuration_elem
    [VMap {[ "block_public_acls" := VBool true; "block_public_policy" := VBool false;
             "ignore_public_acls" := VBool true; "restrict_public_buckets" := VBool false ]}] = true.
Proof. vm_compute. reflexivity. Qed.

(** A list holding a nil element expands to nil, and a struct whose field
    is nil flattens to the zero value: neither comes back. *)
Example expand_nil_element_ex :
  s3control.flattenS3AccessPointVpcConfiguration
    <$> s3control.expandS3AccessPointVpcConfiguration [VNil] = Done [].
Proof. reflexivity. Qed.

Example flatten_nil_field_ex :
  s3control.expandS3AccessPointVpcConfiguration
    (s3control.flattenS3AccessPointVpcConfiguration (Some {| s3control.VpcId := None |}))
  = Done (Some {| s3control.VpcId := Some "" |}).
Proof. reflexivity. Qed.

Example expand_not_a_map_ex :
  s3control.expandS3AccessPointVpcConfiguration [VString "vpc-1"] = Panic.
Proof. reflexivity. Qed.

Example isOutposts_ex :
  isOutposts "arn:aws:s3-outposts:us-west-2:123456789012:outpost/op-1/accesspoint/ap" = true
  ∧ isOutposts "arn:aws:s3:us-west-2:123456789012:accesspoint/ap" = false
  ∧ createdId "123456789012" "ap" "arn:aws:s3:us-west-2:123456789012:accesspoint/ap"
    = "123456789012:ap".
Proof. by repeat split. Qed.

Example ParseID_name_is_arn_ex :
  s3control.AccessPointParseID "123:arn:x" = ("123", "arn:x", None)
  ∧ (arn.Parse "arn:x").2 = Some (errorString "arn: not enough sections").
Proof. by split. Qed.

(** ** Round trip of the shape translators *)

Section conforms.
Context (sch : gmap string ValueType) (m : gmap string value).
Hypothesis Hc : conforms sch m = true.

Lemma conforms_declared k t :
  sch !! k = Some t → ∃ v, m !! k = Some v ∧ has_type v t = true.
Proof using Hc.
  intros Hk. unfold conforms in Hc.
  apply andb_prop in Hc as [_ Hall].
  apply bool_decide_eq_true_1 in Hall.
  specialize (Hall k t Hk). simpl in Hall.
  destruct (m !! k) as [v|]; [eauto | discriminate].
Qed.

Lemma conforms_undeclared k : sch !! k = None → m !! k = None.
Proof using Hc.
  intros Hk. unfold conforms in Hc.
  apply andb_prop in Hc as [Hdom _].
  apply bool_decide_eq_true_1 in Hdom.
  apply not_elem_of_dom. rewrite Hdom. by apply not_elem_of_dom.
Qed.

Lemma conforms_string k :
  sch !! k = Some TypeString → ∃ s, m !! k = Some (VString s).
Proof using Hc.
  intros Hk. destruct (conforms_declared k _ Hk) as ([] & Hv & Ht);
    try discriminate; eauto.
Qed.

Lemma conforms_bool k :
  sch !! k = Some TypeBool → ∃ b, m !! k = Some (VBool b).
Proof using Hc.
  intros Hk. destruct (conforms_declared k _ Hk) as ([] & Hv & Ht);
    try discriminate; eauto.
Qed.
End conforms.

Lemma conforms_vpc m :
  conforms s3control.vpc_configuration_elem m = true →
  ∃ s, m = {[ "vpc_id" := VString s ]}.
Proof.
  intros Hc.
  destruct (conforms_string _ _ Hc "vpc_id") as [s Hs]; [done|].
  exists s. apply map_eq; intros k.
  destruct (decide (k = "vpc_id")) as [->|Hne].
  - by rewrite Hs, lookup_singleton_eq.
  - rewrite lookup_singleton_ne by done.
    apply (conforms_undeclared _ _ Hc).
    unfold s3control.vpc_configuration_elem. by rewrite lookup_singleton_ne.
Qed.

Lemma conforms_pab m :
  conforms s3control.public_access_block_configuration_elem m = true →
  ∃ a b c r,
    m = {[ "block_public_acls" := VBool a; "block_public_policy" := VBool b;
           "ignore_public_acls" := VBool c; "restrict_public_buckets" := VBool r ]}.
Proof.
  intros Hc.
  destruct (conforms_bool _ _ Hc "block_public_acls") as [a Ha]; [done|].
  destruct (conforms_bool _ _ Hc "block_public_policy") as [b Hb]; [done|].
  destruct (conforms_bool _ _ Hc "ignore_public_acls") as [c Hc']; [done|].
  destruct (conforms_bool _ _ Hc "restrict_public_buckets") as [r Hr]; [done|].
  exists a, b, c, r. apply map_eq; intros k.
  destruct (decide (k = "block_public_acls")) as [->|N1]; [by rewrite Ha|].
  destruct (decide (k = "block_public_policy")) as [->|N2]; [by rewrite Hb|].
  destruct (decide (k = "ignore_public_acls")) as [->|N3]; [by rewrite Hc'|].
  destruct (decide (k = "restrict_public_buckets")) as [->|N4]; [by rewrite Hr|].
  rewrite !lookup_insert_ne, lookup_singleton_ne by done.
  apply (conforms_undeclared _ _ Hc).
  unfold s3control.public_access_block_configuration_elem.
  by rewrite !lookup_insert_ne, lookup_singleton_ne.
Qed.

(** C1. For every structurally valid block list [x] (empty, or one map
    carrying exactly the declared keys), flattening the expansion of [x]
    gives [x] back; and for every non-nil struct [y] that expansion can
    produce, expanding the flattening of [y] gives [y] back.  Both hold
    for the VPC configuration pair and for the public access block pair. *)
Theorem expand_flatten_round_trip :
  (∀ x, block_valid s3control.vpc_configuration_elem x = true →
        s3control.flattenS3AccessPointVpcConfiguration
          <$> s3control.expandS3AccessPointVpcConfiguration x = Done x) ∧
  (∀ x y, s3control.expandS3AccessPointVpcConfiguration x = Done (Some y) →
          s3control.expandS3AccessPointVpcConfiguration
            (s3control.flattenS3AccessPointVpcConfiguration (Some y)) = Done (Some y)) ∧
  (∀ x, block_valid s3control.public_access_block_configuration_elem x = true →
        s3control.flattenS3AccessPointPublicAccessBlockConfiguration
          <$> s3control.expandS3AccessPointPublicAccessBlockConfiguration x = Done x) ∧
  (∀ x y, s3control.expandS3AccessPointPublicAccessBlockConfiguration x = Done (Some y) →
          s3control.expandS3AccessPointPublicAccessBlockConfiguration
            (s3control.flattenS3AccessPointPublicAccessBlockConfiguration (Some y))
          = Done (Some y)).
Proof.
  repeat split.
  - intros [|[| | | |m] [|]] Hv; try discriminate; [done|].
    apply conforms_vpc in Hv as [s ->]. reflexivity.
  - intros [|v0 x] y Hx; [discriminate|].
    destruct v0 as [| | | |m]; try discriminate. simpl in Hx.
    destruct (mapIndex m "vpc_id"); try discriminate.
    by injection Hx as <-.
  - intros [|[| | | |m] [|]] Hv; try discriminate; [done|].
    apply conforms_pab in Hv as (a & b & c & r & ->). reflexivity.
  - intros [|v0 x] y Hx; [discriminate|].
    destruct v0 as [| | | |m]; try discriminate. simpl in Hx.
    destruct (mapIndex m "block_public_acls"); try discriminate.
    destruct (mapIndex m "block_public_policy"); try discriminate.
    destruct (mapIndex m "ignore_public_acls"); try discriminate.
    destruct (mapIndex m "restrict_public_buckets"); try discriminate.
    by injection Hx as <-.
Qed.

Lemma expand_flatten_round_trip_witness :
  let x := [VMap {[ "vpc_id" := VString "vpc-0a1b" ]}] in
  let p := [VMap {[ "block_public_acls" := VBool true; "block_public_policy" := VBool false;
                    "ignore_public_acls" := VBool true; "restrict_public_buckets" := VBool false ]}] in
  (s3control.flattenS3AccessPointVpcConfiguration
     <$> s3control.expandS3AccessPointVpcConfiguration x = Done x) ∧
  (s3control.expandS3AccessPointVpcConfiguration
     (s3control.flattenS3AccessPointVpcConfiguration
        (Some {| s3control.VpcId := Some "vpc-0a1b" |}))
   = Done (Some {| s3control.VpcId := Some "vpc-0a1b" |})) ∧
  (s3control.flattenS3AccessPointPublicAccessBlockConfiguration
     <$> s3control.expandS3AccessPointPublicAccessBlockConfiguration p = Done p) ∧
  (∀ y, s3control.expandS3AccessPointPublicAccessBlockConfiguration p = Done (Some y) →
        s3control.expandS3AccessPointPublicAccessBlockConfiguration
          (s3control.flattenS3AccessPointPublicAccessBlockConfiguration (Some y))
        = Done (Some y)).
Proof.
  intros x p.
  destruct expand_flatten_round_trip as (H1 & H2 & H3 & H4).
  split; [apply H1; vm_compute; reflexivity|].
  split; [apply (H2 x); reflexivity|].
  split; [apply H3; vm_compute; reflexivity|].
  intros y. apply H4.
Defined.

(** ** Splitting an identifier on its first colon *)

Section first_colon.
Local Open Scope string_scope.

Lemma Index_colon_cons c s :
  strings.Index (String c s) ":" =
  if ascii_dec ":" c then Some 0 else S <$> strings.Index s ":".
Proof.
  unfold strings.Index. cbn [index prefix].
  destruct (ascii_dec ":" c); [by destruct s|].
  by destruct (index 0 ":" s).
Qed.

Lemma substring_all s : substring 0 (String.length s) s = s.
Proof. induction s as [|c s IH]; simpl; [done|by rewrite IH]. Qed.

Lemma substring_zero n s : substring n 0 s = "".
Proof. revert n; induction s as [|c s IH]; intros [|n]; simpl; auto. Qed.

Lemma Index_colon_split s i :
  strings.Index s ":" = Some i →
  s = substring 0 i s +:+ ":" +:+ substring (i + 1) (String.length s - (i + 1)) s
  ∧ strings.Index (substring 0 i s) ":" = None.
Proof.
  revert i; induction s as [|c s IH]; intros i Hi.
  - discriminate.
  - rewrite Index_colon_cons in Hi.
    destruct (ascii_dec ":" c) as [<-|Hc].
    + injection Hi as <-. simpl. by rewrite Nat.sub_0_r, substring_all.
    + destruct (strings.Index s ":") as [j|] eqn:Hj; [|discriminate].
      injection Hi as <-. destruct (IH j eq_refl) as [Hs Hn].
      simpl. split; [exact (f_equal (String c) Hs)|].
      rewrite Index_colon_cons. destruct (ascii_dec ":" c); [done|].
      by rewrite Hn.
Qed.

Lemma Index_colon_app a b :
  strings.Index a ":" = None →
  strings.Index (a +:+ ":" +:+ b) ":" = Some (String.length a).
Proof.
  induction a as [|c a IH]; intros Ha.
  - change ("" +:+ ":" +:+ b) with (String ":" b). rewrite Index_colon_cons.
    by destruct (ascii_dec ":" ":").
  - rewrite Index_colon_cons in Ha.
    change (String c a +:+ ":" +:+ b) with (String c (a +:+ ":" +:+ b)).
    rewrite Index_colon_cons.
    destruct (ascii_dec ":" c); [done|].
    destruct (strings.Index a ":") eqn:Hi; [discriminate|].
    by rewrite IH.
Qed.

Lemma substring_app_l a r : substring 0 (String.length a) (a +:+ r) = a.
Proof.
  induction a as [|c a IH]; simpl; [by rewrite substring_zero|by rewrite IH].
Qed.

Lemma substring_app_r a r n :
  substring (String.length a + n) (String.length (a +:+ r) - (String.length a + n)) (a +:+ r)
  = substring n (String.length r - n) r.
Proof. induction a as [|c a IH]; simpl; [done|apply IH]. Qed.

(** [strings.SplitN(s, ":", 2)] cuts at the first colon, if there is one. *)
Lemma SplitN_colon_2 s :
  strings.SplitN s ":" 2 =
  match strings.Index s ":" with
  | Some i => [substring 0 i s; substring (i + 1) (String.length s - (i + 1)) s]
  | None => [s]
  end.
Proof. simpl. by destruct (strings.Index s ":"). Qed.

Lemma SplitN_colon_app a b :
  strings.Index a ":" = None →
  strings.SplitN (a +:+ ":" +:+ b) ":" 2 = [a; b].
Proof.
  intros Ha. rewrite SplitN_colon_2, Index_colon_app by done.
  rewrite substring_app_l, substring_app_r. simpl.
  by rewrite Nat.sub_0_r, substring_all.
Qed.
End first_colon.

Lemma Contains_None s sub : strings.Contains s sub = false ↔ strings.Index s sub = None.
Proof. unfold strings.Contains. destruct (strings.Index s sub); naive_solver. Qed.

Lemma AccessPointParseID_arn id a :
  arn.Parse id = (a, None) →
  s3control.AccessPointParseID id = (arn.AccountID a, id, None).
Proof. unfold s3control.AccessPointParseID. by intros ->. Qed.

Lemma AccessPointParseID_composite id account name e :
  (arn.Parse id).2 = Some e → composite id account name →
  s3control.AccessPointParseID id = (account, name, None).
Proof.
  intros He (-> & Hc & Ha & Hn). apply Contains_None in Hc.
  unfold s3control.AccessPointParseID.
  destruct (arn.Parse _) as [p err]; simpl in He; subst err.
  rewrite SplitN_colon_app by done.
  by rewrite !bool_decide_eq_false_2.
Qed.

Lemma AccessPointParseID_malformed id e :
  (arn.Parse id).2 = Some e →
  (∀ account name, ¬ composite id account name) →
  s3control.AccessPointParseID id = malformedID id.
Proof.
  intros He Hnot. unfold s3control.AccessPointParseID.
  destruct (arn.Parse _) as [p err]; simpl in He; subst err.
  rewrite SplitN_colon_2.
  destruct (strings.Index id ":") as [i|] eqn:Hi; [|done].
  destruct (Index_colon_split _ _ Hi) as [Hid Hno].
  case_bool_decide as H0; [done|]. case_bool_decide as H1; [done|].
  exfalso. eapply Hnot. repeat split; [exact Hid| |done..].
  by apply Contains_None.
Qed.

(** C2. [AccessPointParseID] first tries the ARN parse and, when it
    succeeds, returns the ARN's account id and the whole input as the
    name; otherwise an input of the form account, colon, name with both
    parts non-empty (cut at the first colon) yields the two parts; every
    other input is rejected with the error that names the expected
    ACCOUNT_ID:NAME format.  ["123456789012:my-name"] yields
    ["123456789012"] and ["my-name"], and ["invalid"] is rejected. *)
Theorem AccessPointParseID_spec :
  (∀ id a, arn.Parse id = (a, None) →
           s3control.AccessPointParseID id = (arn.AccountID a, id, None)) ∧
  (∀ id account name e,
     (arn.Parse id).2 = Some e → composite id account name →
     s3control.AccessPointParseID id = (account, name, None)) ∧
  (∀ id e,
     (arn.Parse id).2 = Some e → (∀ account name, ¬ composite id account name) →
     s3control.AccessPointParseID id
     = ("", "", Some (errorString ("unexpected format of ID (" +:+ id
                                     +:+ "), expected ACCOUNT_ID:NAME")))) ∧
  s3control.AccessPointParseID "123456789012:my-name"
  = ("123456789012", "my-name", None) ∧
  s3control.AccessPointParseID "invalid"
  = ("", "", Some (errorString "unexpected format of ID (invalid), expected ACCOUNT_ID:NAME")) ∧
  s3control.AccessPointParseID
    "arn:aws:s3-outposts:us-west-2:123456789012:outpost/op-1/accesspoint/ap"
  = ("123456789012",
     "arn:aws:s3-outposts:us-west-2:123456789012:outpost/op-1/accesspoint/ap", None).
Proof.
  split; [exact AccessPointParseID_arn|].
  split; [exact AccessPointParseID_composite|].
  split; [exact AccessPointParseID_malformed|].
  by repeat split.
Qed.

Lemma AccessPointParseID_spec_witness :
  s3control.AccessPointParseID "arn:aws:s3:eu-west-1:111122223333:accesspoint/a"
  = ("111122223333", "arn:aws:s3:eu-west-1:111122223333:accesspoint/a", None) ∧
  s3control.AccessPointParseID "111122223333:a" = ("111122223333", "a", None).
Proof.
  destruct AccessPointParseID_spec as (H1 & H2 & _).
  split.
  - apply (H1 _ {| arn.Partition := "aws"; arn.Service := "s3"; arn.Region := "eu-west-1";
                   arn.AccountID := "111122223333"; arn.Resource := "accesspoint/a" |}).
    reflexivity.
  - apply (H2 _ _ _ (errorString "arn: invalid prefix")); [reflexivity|].
    repeat split; discriminate.
Defined.

(** ** Running computations *)

Section running.
Context {W E : Type} {R : E → Type}.
Implicit Types (s : rstate W E) (conn : Conn W E R).

Lemma invoke_run conn c s r w :
  answers conn c s r w → invoke conn c s = (Done r, called s c w).
Proof. unfold answers, invoke, send. by intros ->. Qed.

Lemma bind_run {A B} (m : M (rstate W E) A) (f : A → M (rstate W E) B) s a s' :
  m s = (Done a, s') → (m ≫= f) s = f a s'.
Proof. unfold mbind, M_bind. by intros ->. Qed.

Lemma bind_invoke {B} conn c (f : _ → M (rstate W E) B) s r w :
  answers conn c s r w → (invoke conn c ≫= f) s = f r (called s c w).
Proof. intros H. by apply bind_run, invoke_run. Qed.

Lemma orReturn_run (m k : M (rstate W E) (option error)) s s' :
  m s = (Done None, s') → orReturn m k s = k s'.
Proof. intros H. unfold orReturn. by rewrite (bind_run _ _ _ _ _ H). Qed.

Lemma orReturn_error (m k : M (rstate W E) (option error)) s s' e :
  m s = (Done (Some e), s') → orReturn m k s = (Done (Some e), s').
Proof. intros H. unfold orReturn. by rewrite (bind_run _ _ _ _ _ H). Qed.

Lemma orReturn_panic (m k : M (rstate W E) (option error)) s s' :
  m s = (Panic, s') → orReturn m k s = (Panic, s').
Proof. intros H. unfold orReturn, mbind, M_bind. by rewrite H. Qed.

Lemma issued_called s c w : issued s (called s c w) = [c].
Proof. unfold issued, called. simpl. by rewrite drop_app_length. Qed.

Lemma issued_refl s : issued s s = [].
Proof. unfold issued. by rewrite drop_all. Qed.

Lemma issued_app s s' l :
  calls (remote s') = (calls (remote s) ++ l)%list → issued s s' = l.
Proof. unfold issued. intros ->. by rewrite drop_app_length. Qed.

Lemma appends_ret {A} P (a : A) : appends (W:=W) (E:=E) P (mret a).
Proof. intros s. exists []. by rewrite app_nil_r. Qed.

Lemma appends_liftO {A} P (o : outcome A) : appends (W:=W) (E:=E) P (liftO o).
Proof. intros s. exists []. by rewrite app_nil_r. Qed.

Lemma appends_getData P : appends (W:=W) (E:=E) P getData.
Proof. intros s. exists []. by rewrite app_nil_r. Qed.

Lemma appends_putData P d : appends (W:=W) (E:=E) P (putData d).
Proof. intros s. exists []. simpl. by rewrite app_nil_r. Qed.

Lemma appends_invoke (P : E → Prop) conn c : P c → appends P (invoke conn c).
Proof.
  intros Hc s. exists [c]. unfold invoke, send.
  destruct (conn c _) as [r w]. simpl. split; [done|by constructor].
Qed.

Lemma appends_bind {A B} P (m : M (rstate W E) A) (f : A → M (rstate W E) B) :
  appends P m → (∀ a, appends P (f a)) → appends P (m ≫= f).
Proof.
  intros Hm Hf s. unfold mbind, M_bind.
  destruct (Hm s) as (l1 & E1 & F1).
  destruct (m s) as [[a|] s1]; simpl in *.
  - destruct (Hf a s1) as (l2 & E2 & F2).
    exists (l1 ++ l2)%list. rewrite E2, E1, app_assoc.
    split; [done|by apply Forall_app].
  - by exists l1.
Qed.

Lemma appends_orReturn P (m k : M (rstate W E) (option error)) :
  appends P m → appends P k → appends P (orReturn m k).
Proof.
  intros Hm Hk. apply appends_bind; [done|].
  intros [e|]; [apply appends_ret|done].
Qed.
End running.

Ltac appends_step :=
  first
    [ apply appends_ret | apply appends_liftO | apply appends_getData
    | apply appends_putData
    | apply appends_orReturn
    | apply appends_bind; [|intros ?]
    | match goal with
      | |- appends _ (let '(_, _) := ?x in _) => destruct x
      | |- appends _ (match ?x with _ => _ end) => destruct x
      | |- appends _ (if ?b then _ else _) => destruct b
      end ].

(** ** The access point adapter *)

Section access_point.
Context {W : Type}.
Implicit Types (meta : s3control.AWSClient W) (s : rstate W s3control.call).
Import s3control.

Lemma appends_SetId P id : appends (W:=W) P (SetId id).
Proof. unfold SetId. repeat appends_step. Qed.

Lemma appends_Set_ P k v : appends (W:=W) P (Set_ k v).
Proof. unfold Set_. repeat appends_step. Qed.

(** Read issues lookups only. *)
Lemma Read_lookup_only meta : appends lookup_only (resourceAccessPointRead meta).
Proof.
  unfold resourceAccessPointRead.
  repeat first [ apply appends_SetId | apply appends_Set_ | appends_step ].
  all: match goal with
       | |- appends ?P (invoke ?conn ?c) =>
           by apply (appends_invoke (R:=output) P conn c)
       end.
Qed.

(** *** Read: the early exits *)

Lemma Read_malformed meta s accountId name e :
  AccessPointParseID (rd_id (res s)) = (accountId, name, Some e) →
  resourceAccessPointRead meta s = (Done (Some e), s).
Proof.
  intros Hid. unfold resourceAccessPointRead.
  unfold mbind at 1, M_bind at 1, getData. by rewrite Hid.
Qed.

Lemma Read_lookup meta s accountId name r w :
  AccessPointParseID (rd_id (res s)) = (accountId, name, None) →
  answers (S3ControlConn meta) (GetAccessPoint (key accountId name)) s r w →
  ∃ k, resourceAccessPointRead meta s =
       (if negb (rd_isNew (res s)) && tfawserr.ErrCodeEquals r.2 errCodeNoSuchAccessPoint
        then (Done None, withData (schema.SetId (res s) "")
                           (called s (GetAccessPoint (key accountId name)) w))
        else match r.2 with
             | Some e => (Done (Some (readError (rd_id (res s)) e)),
                          called s (GetAccessPoint (key accountId name)) w)
             | None => k
             end).
Proof.
  intros Hid Hget. unfold resourceAccessPointRead.
  unfold mbind at 1, M_bind at 1, getData. rewrite Hid. cbv beta iota.
  rewrite (bind_invoke _ _ _ _ _ _ Hget). destruct r as [out err]. cbn [snd].
  destruct (negb _ && _); [by exists (Done None, s)|].
  destruct err; [by exists (Done None, s)|by eexists].
Qed.

Lemma Read_absent meta s accountId name out e w :
  AccessPointParseID (rd_id (res s)) = (accountId, name, None) →
  answers (S3ControlConn meta) (GetAccessPoint (key accountId name)) s (out, Some e) w →
  tfawserr.ErrCodeEquals (Some e) errCodeNoSuchAccessPoint = true →
  rd_isNew (res s) = false →
  resourceAccessPointRead meta s =
  (Done None, withData (schema.SetId (res s) "")
                (called s (GetAccessPoint (key accountId name)) w)).
Proof.
  intros Hid Hget Hcode Hnew.
  destruct (Read_lookup _ _ _ _ _ _ Hid Hget) as [k ->].
  cbn [snd]. by rewrite Hnew, Hcode.
Qed.

Lemma Read_failed meta s accountId name out e w :
  AccessPointParseID (rd_id (res s)) = (accountId, name, None) →
  answers (S3ControlConn meta) (GetAccessPoint (key accountId name)) s (out, Some e) w →
  rd_isNew (res s) = true ∨ tfawserr.ErrCodeEquals (Some e) errCodeNoSuchAccessPoint = false →
  resourceAccessPointRead meta s =
  (Done (Some (readError (rd_id (res s)) e)),
   called s (GetAccessPoint (key accountId name)) w).
Proof.
  intros Hid Hget Hor.
  destruct (Read_lookup _ _ _ _ _ _ Hid Hget) as [k ->].
  cbn [snd]. destruct Hor as [-> | ->]; [done|by rewrite andb_false_r].
Qed.
End access_point.

Section access_point_writes.
Context {W : Type}.
Implicit Types (meta : s3control.AWSClient W) (s : rstate W s3control.call).
Import s3control.

(** *** Delete *)

Lemma Delete_malformed meta s accountId name e :
  AccessPointParseID (rd_id (res s)) = (accountId, name, Some e) →
  resourceAccessPointDelete meta s = (Done (Some e), s).
Proof.
  intros Hid. unfold resourceAccessPointDelete.
  unfold mbind at 1, M_bind at 1, getData. by rewrite Hid.
Qed.

Lemma Delete_run meta s accountId name r w :
  AccessPointParseID (rd_id (res s)) = (accountId, name, None) →
  answers (S3ControlConn meta) (DeleteAccessPoint (key accountId name)) s r w →
  resourceAccessPointDelete meta s =
  (Done (if tfawserr.ErrMessageContains r.2 "NoSuchAccessPoint" "" then None
         else fmt.Errorf_s ("error deleting S3 Access Point (" +:+ rd_id (res s) +:+ "): ")
                <$> r.2),
   called s (DeleteAccessPoint (key accountId name)) w).
Proof.
  intros Hid Hdel. unfold resourceAccessPointDelete.
  unfold mbind at 1, M_bind at 1, getData. rewrite Hid. cbv beta iota.
  rewrite (bind_invoke _ _ _ _ _ _ Hdel). destruct r as [out err]. cbn [snd].
  by destruct (tfawserr.ErrMessageContains _ _ _).
Qed.

(** *** The policy call of Create and Update *)

Lemma putPolicy_run meta s accountId name policy r w :
  answers (S3ControlConn meta) (putPolicyInput accountId name policy) s r w →
  putPolicy meta accountId name (VString policy) s =
  (Done (fmt.Errorf_s ("error putting S3 Access Point (" +:+ rd_id (res s) +:+ ") policy: ")
           <$> r.2),
   called s (putPolicyInput accountId name policy) w).
Proof.
  intros Hput. unfold putPolicy.
  unfold mbind at 1, M_bind at 1, liftO. cbn [asString].
  unfold putPolicyInput in Hput.
  rewrite (bind_invoke _ _ _ _ _ _ Hput). by destruct r.
Qed.

(** *** Update *)

Lemma Update_malformed meta s accountId name e :
  AccessPointParseID (rd_id (res s)) = (accountId, name, Some e) →
  resourceAccessPointUpdate meta s = (Done (Some e), s).
Proof.
  intros Hid. unfold resourceAccessPointUpdate.
  unfold mbind at 1, M_bind at 1, getData. by rewrite Hid.
Qed.

Lemma Update_unchanged meta s accountId name :
  AccessPointParseID (rd_id (res s)) = (accountId, name, None) →
  schema.HasChange Schema (res s) "policy" = false →
  resourceAccessPointUpdate meta s = resourceAccessPointRead meta s.
Proof.
  intros Hid Hch. unfold resourceAccessPointUpdate.
  unfold mbind at 1, M_bind at 1, getData. rewrite Hid. cbv beta iota.
  by rewrite Hch.
Qed.

Lemma Update_put meta s accountId name policy r w :
  AccessPointParseID (rd_id (res s)) = (accountId, name, None) →
  schema.HasChange Schema (res s) "policy" = true →
  schema.GetOk Schema (res s) "policy" = (VString policy, true) →
  answers (S3ControlConn meta) (putPolicyInput accountId name policy) s r w →
  resourceAccessPointUpdate meta s =
  match r.2 with
  | Some e =>
      (Done (Some (fmt.Errorf_s ("error putting S3 Access Point (" +:+ rd_id (res s)
                                   +:+ ") policy: ") e)),
       called s (putPolicyInput accountId name policy) w)
  | None => resourceAccessPointRead meta (called s (putPolicyInput accountId name policy) w)
  end.
Proof.
  intros Hid Hch Hok Hput. unfold resourceAccessPointUpdate.
  unfold mbind at 1, M_bind at 1, getData. rewrite Hid. cbv beta iota.
  rewrite Hch, Hok. unfold orReturn.
  rewrite (bind_run _ _ _ _ _ (putPolicy_run _ _ _ _ _ _ _ Hput)).
  by destruct r as [? [?|]].
Qed.

Lemma Update_delete_policy meta s accountId name v r w :
  AccessPointParseID (rd_id (res s)) = (accountId, name, None) →
  schema.HasChange Schema (res s) "policy" = true →
  schema.GetOk Schema (res s) "policy" = (v, false) →
  answers (S3ControlConn meta) (DeleteAccessPointPolicy (key accountId name)) s r w →
  resourceAccessPointUpdate meta s =
  match r.2 with
  | Some e =>
      (Done (Some (fmt.Errorf_s ("error deleting S3 Access Point (" +:+ rd_id (res s)
                                   +:+ ") policy: ") e)),
       called s (DeleteAccessPointPolicy (key accountId name)) w)
  | None => resourceAccessPointRead meta (called s (DeleteAccessPointPolicy (key accountId name)) w)
  end.
Proof.
  intros Hid Hch Hok Hdel. unfold resourceAccessPointUpdate.
  unfold mbind at 1, M_bind at 1, getData. rewrite Hid. cbv beta iota.
  rewrite Hch, Hok. unfold orReturn.
  unfold mbind at 1, M_bind at 1.
  rewrite (bind_invoke _ _ _ _ _ _ Hdel).
  by destruct r as [? [?|]].
Qed.
End access_point_writes.
Section access_point_create.
Context {W : Type}.
Implicit Types (meta : s3control.AWSClient W) (s : rstate W s3control.call).
Import s3control.

(** *** Create *)

Lemma Create_call meta s accountId name input r w :
  configured meta (res s) accountId name input →
  answers (S3ControlConn meta) (CreateAccessPoint input) s r w →
  resourceAccessPointCreate meta s =
  match r with
  | (_, Some e) =>
      (Done (Some (fmt.Errorf_w ("error creating S3 Control Access Point (" +:+ name
                                   +:+ "): ") e)),
       called s (CreateAccessPoint input) w)
  | (None, None) =>
      (Done (Some (fmt.Errorf ("error creating S3 Control Access Point (" +:+ name
                                 +:+ "): empty response"))),
       called s (CreateAccessPoint input) w)
  | (Some output, None) =>
      let accessPointArn := aws.StringValue (CreateAccessPointOutput.AccessPointArn output) in
      let s1 := withData (schema.SetId (res s) (createdId accountId name accessPointArn))
                  (called s (CreateAccessPoint input) w) in
      orReturn
        (let '(v, ok) := schema.GetOk Schema (res s1) "policy" in
         if ok then
           putPolicy meta accountId
             (if isOutposts accessPointArn then accessPointArn else name) v
         else mret None)
        (resourceAccessPointRead meta) s1
  end.
Proof.
  intros (Hacct & Hname & bucket & pl & vl & pab & vpc & Hb & Hp & Hpe & Hv & Hve & ->) Hcall.
  unfold resourceAccessPointCreate.
  unfold mbind at 1, M_bind at 1, getData.
  unfold mbind at 1, M_bind at 1.
  destruct (schema.GetOk Schema (res s) "account_id") as [v ok].
  assert ((if ok then liftO (asString v) else mret (AccountID meta)) s
          = (Done accountId, s)) as ->.
  { destruct ok; [unfold liftO; by rewrite Hacct|by injection Hacct as ->]. }
  rewrite Hname, Hb, Hp, Hv.
  unfold mbind at 1, M_bind at 1, liftO at 1. cbn [asString].
  unfold mbind at 1, M_bind at 1, liftO at 1. cbn [asString].
  unfold mbind at 1, M_bind at 1, liftO at 1. cbn [asList mbind outcome_bind]. rewrite Hpe.
  unfold mbind at 1, M_bind at 1, liftO at 1. cbn [asList mbind outcome_bind]. rewrite Hve.
  rewrite (bind_invoke _ _ _ _ _ _ Hcall).
  destruct r as [[output|] [e|]]; try done.
  cbv zeta. unfold createdId, isOutposts.
  destruct (arn.Parse _) as [parsedARN err]. cbn [fst snd].
  unfold mbind at 1, M_bind at 1.
  destruct (bool_decide (err = None) && _); reflexivity.
Qed.
End access_point_create.

Section access_point_read.
Context {W : Type}.
Implicit Types (meta : s3control.AWSClient W) (s : rstate W s3control.call).
Implicit Types (d : ResourceData).
Import s3control.

Lemma Set__run key v s :
  Set_ key v s = (Done (schema.Set_ Schema (res s) key v).2,
                  withData (schema.Set_ Schema (res s) key v).1 s).
Proof.
  unfold Set_, mbind, M_bind, getData, putData, mret, M_ret, withData.
  by destruct (schema.Set_ _ _ _ _).
Qed.

Lemma Set__id d key v : rd_id (schema.Set_ Schema d key v).1 = rd_id d.
Proof.
  unfold schema.Set_. destruct (Schema !! key); [|done].
  destruct v; try done; by destruct (has_type _ _).
Qed.

Lemma sets_only_ret {A} (a : A) : sets_only (W:=W) (E:=call) (mret a) a.
Proof. intros s. exists (res s). by destruct s. Qed.

Lemma sets_only_Set_ {A} key v (m : M (rstate W call) A) a :
  sets_only (W:=W) m a → sets_only (W:=W) (Set_ key v;; m) a.
Proof.
  intros Hm s. rewrite (bind_run _ _ _ _ _ (Set__run _ _ _)).
  destruct (Hm (withData (schema.Set_ Schema (res s) key v).1 s)) as (d & Hd & ->).
  exists d. split; [|done]. rewrite Hd. apply Set__id.
Qed.

Lemma Set__then {B} key v (g : option error → M (rstate W call) B) s :
  ∃ d, rd_id d = rd_id (res s) ∧
       (Set_ key v ≫= g) s = g (schema.Set_ Schema (res s) key v).2 (withData d s).
Proof.
  rewrite (bind_run _ _ _ _ _ (Set__run _ _ _)).
  eexists. split; [|reflexivity]. apply Set__id.
Qed.

Ltac Set__step d H :=
  match goal with
  | |- context [(Set_ ?k ?v ≫= ?g) ?s] =>
      destruct (Set__then k v g s) as (d & H & ->); cbv beta
  end.

Lemma Set__list key l d :
  Schema !! key = Some TypeList → (schema.Set_ Schema d key (VList l)).2 = None.
Proof. unfold schema.Set_. by intros ->. Qed.

Lemma sets_only_checked key l prefix :
  Schema !! key = Some TypeList →
  sets_only (W:=W) (err ← Set_ key (VList l); mret (fmt.Errorf_s prefix <$> err)) None.
Proof.
  intros Hk s. rewrite (bind_run _ _ _ _ _ (Set__run _ _ _)).
  rewrite Set__list by done.
  eexists. split; [|reflexivity]. apply Set__id.
Qed.

Lemma orReturn_sets_only (m k : M (rstate W call) (option error)) s :
  sets_only (W:=W) m None →
  ∃ d, rd_id d = rd_id (res s) ∧ orReturn m k s = k (withData d s).
Proof.
  intros Hm. destruct (Hm s) as (d & Hd & Hrun). exists d. split; [done|].
  unfold orReturn. by rewrite (bind_run _ _ _ _ _ Hrun).
Qed.

(** When the primary lookup succeeds, Read sets the primary attributes
    and goes on to the secondary lookups. *)
Lemma Read_primary meta s accountId name out w1 :
  AccessPointParseID (rd_id (res s)) = (accountId, name, None) →
  answers (S3ControlConn meta) (GetAccessPoint (key accountId name)) s (Some out, None) w1 →
  (strings.HasPrefix name "arn:" = true → (arn.Parse name).2 = None) →
  ∃ d, rd_id d = rd_id (res s) ∧
       resourceAccessPointRead meta s =
       readSecondary meta accountId name
         (withData d (called s (GetAccessPoint (key accountId name)) w1)).
Proof.
  intros Hid Hget Harn.
  unfold resourceAccessPointRead.
  unfold mbind at 1, M_bind at 1, getData. rewrite Hid. cbv beta iota.
  rewrite (bind_invoke _ _ _ _ _ _ Hget).
  replace (tfawserr.ErrCodeEquals None errCodeNoSuchAccessPoint) with false by done.
  rewrite andb_false_r.
  set (s1 := called s _ w1).
  edestruct (orReturn_sets_only) as (d1 & Hd1 & ->).
  { destruct (strings.HasPrefix name "arn:").
    - specialize (Harn eq_refl). destruct (arn.Parse name) as [p err].
      simpl in Harn. subst err.
      apply sets_only_Set_, sets_only_Set_, sets_only_ret.
    - apply sets_only_Set_, sets_only_Set_, sets_only_ret. }
  Set__step d2 Hd2. Set__step d3 Hd3. Set__step d4 Hd4. Set__step d5 Hd5.
  edestruct (orReturn_sets_only) as (d6 & Hd6 & ->).
  { by apply sets_only_checked. }
  edestruct (orReturn_sets_only) as (d7 & Hd7 & ->).
  { by apply sets_only_checked. }
  cbn [withData res remote] in *.
  exists d7. split; [|done].
  rewrite Hd7, Hd6, Hd5, Hd4, Hd3, Hd2, Hd1. done.
Qed.

(** *** Reading back what was set *)

Lemma Get_Set__string d key p :
  Schema !! key = Some TypeString →
  schema.Get Schema (schema.Set_ Schema d key (ptrString p)).1 key
  = VString (aws.StringValue p).
Proof.
  intros Hk. unfold schema.Get, schema.read, schema.Set_. rewrite Hk.
  destruct p as [p|]; simpl.
  - by rewrite lookup_insert_eq.
  - by rewrite lookup_delete_eq.
Qed.

Lemma Get_Set__bool d key p :
  Schema !! key = Some TypeBool →
  schema.Get Schema (schema.Set_ Schema d key (ptrBool p)).1 key
  = VBool (aws.BoolValue p).
Proof.
  intros Hk. unfold schema.Get, schema.read, schema.Set_. rewrite Hk.
  destruct p as [p|]; simpl.
  - by rewrite lookup_insert_eq.
  - by rewrite lookup_delete_eq.
Qed.

Lemma Get_Set__ne d key key' v :
  key ≠ key' →
  schema.Get Schema (schema.Set_ Schema d key v).1 key' = schema.Get Schema d key'.
Proof.
  intros Hne. unfold schema.Get, schema.read, schema.Set_.
  destruct (Schema !! key) as [t|]; [|done].
  destruct v; simpl; rewrite ?lookup_delete_ne by done; try done;
    destruct t; simpl; by rewrite ?lookup_insert_ne by done.
Qed.

(** *** The secondary lookups *)

Abbreviation policyCall a n := (GetAccessPointPolicy (key a n)).
Abbreviation statusCall a n := (GetAccessPointPolicyStatus (key a n)).

(** The policy lookup: an answer that is not mapped to a value ends Read. *)
Lemma Secondary_policy_failed meta accountId name s r2 w2 :
  answers (S3ControlConn meta) (policyCall accountId name) s r2 w2 →
  policy_of r2 = None →
  readSecondary meta accountId name s =
  (match r2.2 with
   | Some e => Done (Some (policyError (rd_id (res s)) e))
   | None => Panic
   end, called s (policyCall accountId name) w2).
Proof.
  intros Hpol Hof. unfold readSecondary.
  rewrite (bind_invoke _ _ _ _ _ _ Hpol).
  unfold policy_of, absent in Hof. destruct r2 as [po err]. cbn [snd] in *.
  destruct (tfawserr.ErrMessageContains err _ _); [discriminate|].
  destruct err as [e|].
  - by erewrite orReturn_error.
  - destruct po; [discriminate|]. by erewrite orReturn_panic.
Qed.

Lemma Secondary_policy_set s
    (r2 : option GetAccessPointPolicyOutput.t * option error) pol
    (k : M (rstate W call) (option error)) :
  policy_of r2 = Some pol →
  ∃ d, rd_id d = rd_id (res s) ∧ schema.Get Schema d "policy" = VString pol ∧
  orReturn
    (if tfawserr.ErrMessageContains r2.2 "NoSuchAccessPointPolicy" "" then
       Set_ "policy" (VString "");; mret None
     else
       match r2.2 with
       | Some e =>
           d ← getData;
           mret (Some (fmt.Errorf_s ("error reading S3 Access Point (" +:+ rd_id d
                                       +:+ ") policy: ") e))
       | None =>
           match r2.1 with
           | None => liftO Panic
           | Some policyOutput =>
               Set_ "policy" (ptrString (GetAccessPointPolicyOutput.Policy policyOutput));;
               mret None
           end
       end) k s = k (withData d s).
Proof.
  intros Hof. unfold policy_of, absent in Hof. destruct r2 as [po err]. cbn [fst snd] in *.
  destruct (tfawserr.ErrMessageContains err _ _).
  - injection Hof as <-. eexists. split; [|split]; cycle 2.
    + apply orReturn_run. by rewrite (bind_run _ _ _ _ _ (Set__run _ _ _)).
    + apply Set__id.
    + by apply (Get_Set__string _ _ (Some "")).
  - destruct po as [po|], err as [e|]; try discriminate. injection Hof as <-.
    eexists. split; [|split]; cycle 2.
    + apply orReturn_run. by rewrite (bind_run _ _ _ _ _ (Set__run _ _ _)).
    + apply Set__id.
    + by apply Get_Set__string.
Qed.

(** An Outposts access point (a name that is an ARN): no status lookup. *)
Lemma Secondary_outposts meta accountId name s r2 w2 pol :
  answers (S3ControlConn meta) (policyCall accountId name) s r2 w2 →
  policy_of r2 = Some pol →
  strings.HasPrefix name "arn:" = true →
  ∃ d, rd_id d = rd_id (res s)
       ∧ schema.Get Schema d "policy" = VString pol
       ∧ schema.Get Schema d "has_public_access_policy" = VBool false
       ∧ readSecondary meta accountId name s
         = (Done None, withData d (called s (policyCall accountId name) w2)).
Proof.
  intros Hpol Hof Harn. unfold readSecondary.
  rewrite (bind_invoke _ _ _ _ _ _ Hpol). destruct r2 as [po err].
  match goal with
  | |- context [orReturn _ ?k ?s0] =>
      destruct (Secondary_policy_set s0 (po, err) pol k Hof) as (d1 & Hid1 & Hp1 & Hrun)
  end.
  cbn [fst snd] in Hrun. rewrite Hrun. clear Hrun.
  rewrite Harn. rewrite (bind_run _ _ _ _ _ (Set__run _ _ _)).
  eexists. split; [|split; [|split; [|reflexivity]]]; cbn [withData res called] in *.
  - by rewrite Set__id.
  - by rewrite Get_Set__ne.
  - by apply (Get_Set__bool _ _ (Some false)).
Qed.

(** Any other access point: the status lookup follows. *)
Lemma Secondary_status meta accountId name s r2 w2 pol r3 w3 :
  answers (S3ControlConn meta) (policyCall accountId name) s r2 w2 →
  policy_of r2 = Some pol →
  strings.HasPrefix name "arn:" = false →
  answers (S3ControlConn meta) (statusCall accountId name)
    (called s (policyCall accountId name) w2) r3 w3 →
  let s3 := called (called s (policyCall accountId name) w2)
              (statusCall accountId name) w3 in
  ∃ d, rd_id d = rd_id (res s)
       ∧ schema.Get Schema d "policy" = VString pol
       ∧ match public_of r3 with
         | Some pub =>
             schema.Get Schema d "has_public_access_policy" = VBool pub
             ∧ readSecondary meta accountId name s = (Done None, withData d s3)
         | None =>
             readSecondary meta accountId name s
             = (match r3.2 with
                | Some e => Done (Some (statusError (rd_id (res s)) e))
                | None => Panic
                end, withData d s3)
         end.
Proof.
  intros Hpol Hof Harn Hst s3. unfold readSecondary.
  rewrite (bind_invoke _ _ _ _ _ _ Hpol). destruct r2 as [po err].
  match goal with
  | |- context [orReturn _ ?k ?s0] =>
      destruct (Secondary_policy_set s0 (po, err) pol k Hof) as (d1 & Hid1 & Hp1 & Hrun)
  end.
  cbn [fst snd] in Hrun. rewrite Hrun. clear Hrun.
  rewrite Harn. cbv beta iota. cbn [withData res called] in Hid1.
  assert (answers (S3ControlConn meta) (statusCall accountId name)
            (withData d1 (called s (policyCall accountId name) w2)) r3 w3) as Hst' by done.
  pose proof (λ B (f : _ → M (rstate W call) B), bind_invoke _ _ f _ _ _ Hst') as Hrun.
  unfold public_of, absent. destruct r3 as [so err3]. cbn [snd].
  destruct (tfawserr.ErrMessageContains err3 _ _) eqn:Habs.
  - eexists. split; [|split; [|split]]; cycle 3.
    + rewrite Hrun. cbv beta iota. rewrite Habs.
      by rewrite (bind_run _ _ _ _ _ (Set__run _ _ _)).
    + cbn [withData res called]. by rewrite Set__id.
    + cbn [withData res called]. by rewrite Get_Set__ne.
    + by apply (Get_Set__bool _ _ (Some false)).
  - destruct err3 as [e|].
    { exists d1. repeat split; try done.
      rewrite Hrun. cbv beta iota. rewrite Habs.
      unfold mbind, M_bind, getData, mret, M_ret. cbn [res withData called].
      unfold statusError. rewrite Hid1. by destruct so. }
    destruct so as [[[ps|]]|];
      cbn [mbind option_bind GetAccessPointPolicyStatusOutput.PolicyStatus].
    + eexists. split; [|split; [|split]]; cycle 3.
      * rewrite Hrun. cbv beta iota. rewrite Habs.
        cbn [mbind option_bind GetAccessPointPolicyStatusOutput.PolicyStatus].
        by rewrite (bind_run _ _ _ _ _ (Set__run _ _ _)).
      * cbn [withData res called]. by rewrite Set__id.
      * cbn [withData res called]. by rewrite Get_Set__ne.
      * by apply Get_Set__bool.
    + exists d1. repeat split; try done; rewrite Hrun; cbv beta iota; by rewrite Habs.
    + exists d1. repeat split; try done; rewrite Hrun; cbv beta iota; by rewrite Habs.
Qed.
End access_point_read.

(** ** The configuration recorder adapter *)

Section recorder.
Context {W RecordingGroup : Type}.
Context (expandRecordingGroup : list value → outcome (option RecordingGroup)).
Context (flattenRecordingGroup : RecordingGroup → list value).
Context (goSyntax : list (option (config.ConfigurationRecorder RecordingGroup)) → string).
Implicit Types (meta : config.AWSClient W RecordingGroup).
Implicit Types (s : rstate W (config.call RecordingGroup)).
Import config.

Abbreviation Read := (resourceConfigurationRecorderRead flattenRecordingGroup goSyntax).
Abbreviation Put :=
  (resourceConfigurationRecorderPut expandRecordingGroup flattenRecordingGroup goSyntax).
Abbreviation describeCall s := (DescribeConfigurationRecorders [aws.String (rd_id (res s))]).
Abbreviation deleteCall s := (DeleteConfigurationRecorder (aws.String (rd_id (res s)))).

(** Read, when the describe call returns an error. *)
Lemma recorder_Read_error meta s out e w :
  answers (ConfigConn meta) (describeCall s) s (out, Some e) w →
  Read meta s =
  if recorder_gone (Some e)
  then (Done None, withData (schema.SetId (res s) "") (called s (describeCall s) w))
  else (Done (Some (fmt.Errorf_s "Getting Configuration Recorder failed: " e)),
        called s (describeCall s) w).
Proof.
  intros Hd. unfold resourceConfigurationRecorderRead.
  unfold mbind at 1, M_bind at 1, getData.
  rewrite (bind_invoke _ _ _ _ _ _ Hd). unfold recorder_gone.
  by destruct (tfawserr.ErrMessageContains _ _ _).
Qed.

(** Read, when the describe call returns no recorder. *)
Lemma recorder_Read_empty meta s w :
  answers (ConfigConn meta) (describeCall s) s
    (Some {| ConfigurationRecorders := [] |}, None) w →
  Read meta s =
  (Done None, withData (schema.SetId (res s) "") (called s (describeCall s) w)).
Proof.
  intros Hd. unfold resourceConfigurationRecorderRead.
  unfold mbind at 1, M_bind at 1, getData.
  by rewrite (bind_invoke _ _ _ _ _ _ Hd).
Qed.

(** Read, when the describe call returns more than one recorder. *)
Lemma recorder_Read_many meta s out w :
  answers (ConfigConn meta) (describeCall s) s (Some out, None) w →
  1 < List.length (ConfigurationRecorders out) →
  Read meta s =
  (Done (Some (errorString
                 ("Expected exactly 1 Configuration Recorder, received "
                    +:+ pretty (List.length (ConfigurationRecorders out)) +:+ ": "
                    +:+ goSyntax (ConfigurationRecorders out)))),
   called s (describeCall s) w).
Proof.
  intros Hd Hn. unfold resourceConfigurationRecorderRead.
  unfold mbind at 1, M_bind at 1, getData.
  rewrite (bind_invoke _ _ _ _ _ _ Hd). cbv beta iota zeta.
  rewrite bool_decide_eq_false_2 by lia.
  by rewrite bool_decide_eq_true_2 by lia.
Qed.

(** Delete answers with success unless the remote error is another one
    than the absence signal. *)
Lemma recorder_Delete_run meta s r w :
  answers (ConfigConn meta) (deleteCall s) s r w →
  resourceConfigurationRecorderDelete meta s =
  (Done (match r.2 with
         | Some e =>
             if recorder_gone (Some e) then None
             else Some (fmt.Errorf_s "Deleting Configuration Recorder failed: " e)
         | None => None
         end), called s (deleteCall s) w).
Proof.
  intros Hd. unfold resourceConfigurationRecorderDelete.
  unfold mbind at 1, M_bind at 1, getData.
  rewrite (bind_invoke _ _ _ _ _ _ Hd). unfold recorder_gone.
  destruct r as [o [e|]]; [|done]. cbn [snd].
  by destruct (tfawserr.ErrMessageContains _ _ _).
Qed.

(** Put: the call, then the identifier and the trailing Read. *)
Lemma recorder_Put_run meta s name recorder r w :
  recorder_configured expandRecordingGroup (res s) name recorder →
  answers (ConfigConn meta) (PutConfigurationRecorder (Some recorder)) s r w →
  Put meta s =
  match r.2 with
  | Some e =>
      (Done (Some (fmt.Errorf_s "Creating Configuration Recorder failed: " e)),
       called s (PutConfigurationRecorder (Some recorder)) w)
  | None =>
      Read meta (withData (schema.SetId (res s) name)
                   (called s (PutConfigurationRecorder (Some recorder)) w))
  end.
Proof.
  intros (Hname & role & group & Hrole & Hgroup & ->) Hput.
  unfold resourceConfigurationRecorderPut.
  unfold mbind at 1, M_bind at 1, getData. rewrite Hname, Hrole.
  unfold mbind at 1, M_bind at 1, liftO at 1. cbn [asString].
  unfold mbind at 1, M_bind at 1, liftO at 1. cbn [asString].
  unfold mbind at 1, M_bind at 1.
  destruct (schema.GetOk Schema (res s) "recording_group") as [g ok].
  assert ((if ok then liftO (asList g ≫= expandRecordingGroup) else mret None) s
          = (Done group, s)) as ->.
  { destruct ok; [unfold liftO; by rewrite Hgroup|by injection Hgroup as <-]. }
  rewrite (bind_invoke _ _ _ _ _ _ Hput).
  destruct r as [o [e|]]; [done|]. cbn [snd].
  unfold mbind at 1, M_bind at 1. reflexivity.
Qed.
End recorder.

(** ** Listing the targets of a rule *)

Section list_pages.
Context {W Target : Type}.
Implicit Types (conn : Conn W cloudwatchevents.call (cloudwatchevents.output (Target:=Target))).
Implicit Types (fn : cloudwatchevents.Callback W Target).
Implicit Types (e : env W cloudwatchevents.call).
Implicit Types (input : cloudwatchevents.ListTargetsByRuleInput.t).
Import cloudwatchevents.

Lemma ListAll_input fuel conn busName ruleName fn e :
  ListAllTargetsForRulePages fuel conn busName ruleName fn e
  = ListTargetsByRulePages fuel conn (listInput busName ruleName) fn e.
Proof.
  unfold ListAllTargetsForRulePages, listInput.
  by destruct (decide (busName = ""));
    [rewrite bool_decide_eq_false_2, bool_decide_eq_true_2 by (done || by intros [])
    |rewrite bool_decide_eq_true_2, bool_decide_eq_false_2 by done].
Qed.

(** One request: the page is handed to the callback; there is no further
    request when the callback returns false or the page has no cursor. *)
Lemma Pages_stop fuel conn input fn e output e1 continue w :
  send conn (ListTargetsByRule input) e = ((Some output, None), e1) →
  fn output (noCursor output) (world e1) = (continue, w) →
  continue = false ∨ noCursor output = true →
  ListTargetsByRulePages (S fuel) conn input fn e
  = Some (Done None, {| world := w; calls := calls e1 |}).
Proof.
  intros Hsend Hfn Hstop. cbn [ListTargetsByRulePages].
  rewrite Hsend. fold (noCursor output). rewrite Hfn.
  by destruct Hstop as [-> | ->]; [|rewrite orb_true_r].
Qed.

Lemma Pages_continue fuel conn input fn e output e1 w :
  send conn (ListTargetsByRule input) e = ((Some output, None), e1) →
  fn output (noCursor output) (world e1) = (true, w) →
  noCursor output = false →
  ListTargetsByRulePages (S fuel) conn input fn e
  = ListTargetsByRulePages fuel conn
      (withToken (ListTargetsByRuleOutput.NextToken output) input) fn
      {| world := w; calls := calls e1 |}.
Proof.
  intros Hsend Hfn Hlast. cbn [ListTargetsByRulePages].
  rewrite Hsend. fold (noCursor output). by rewrite Hfn, Hlast.
Qed.

Lemma Pages_error fuel conn input fn e output err e1 :
  send conn (ListTargetsByRule input) e = ((output, Some err), e1) →
  ListTargetsByRulePages (S fuel) conn input fn e = Some (Done (Some err), e1).
Proof. intros Hsend. cbn [ListTargetsByRulePages]. by rewrite Hsend. Qed.

Lemma send_calls conn c e :
  calls (send conn c e).2 = (calls e ++ [c])%list.
Proof. unfold send. by destruct (conn c (world e)). Qed.

(** Every request of the iteration is the first one up to its cursor. *)
Lemma Pages_requests fuel conn input fn e r e' :
  ListTargetsByRulePages fuel conn input fn e = Some (r, e') →
  ∃ l, calls e' = (calls e ++ l)%list ∧ Forall (sameListing input) l.
Proof.
  revert input e. induction fuel as [|fuel IH]; intros input e Hrun; [done|].
  cbn [ListTargetsByRulePages] in Hrun.
  pose proof (send_calls conn (ListTargetsByRule input) e) as Hc.
  assert (sameListing input (ListTargetsByRule input)) as Hsame.
  { exists (ListTargetsByRuleInput.NextToken input). by destruct input. }
  destruct (send conn _ e) as [[output err] e1]. cbn [snd] in Hc.
  destruct err as [err|].
  { injection Hrun as <- <-. exists [ListTargetsByRule input]. by split; [|constructor]. }
  destruct output as [output|]; cycle 1.
  { injection Hrun as <- <-. exists [ListTargetsByRule input]. by split; [|constructor]. }
  destruct (fn output _ (world e1)) as [continue w].
  destruct (negb continue || _).
  { injection Hrun as <- <-. exists [ListTargetsByRule input]. by split; [|constructor]. }
  apply IH in Hrun as (l & Hl & Hall). cbn [calls] in Hl.
  exists (ListTargetsByRule input :: l). split.
  - by rewrite Hl, Hc, <- app_assoc.
  - constructor; [done|]. eapply Forall_impl; [exact Hall|].
    intros c [token Hc']. exists token. by rewrite Hc'.
Qed.

(** More fuel does not change a result. *)
Lemma Pages_fuel fuel conn input fn e result :
  ListTargetsByRulePages fuel conn input fn e = Some result →
  ∀ fuel', (fuel ≤ fuel')%nat →
           ListTargetsByRulePages fuel' conn input fn e = Some result.
Proof.
  revert input e. induction fuel as [|fuel IH]; intros input e Hrun fuel' Hle; [done|].
  destruct fuel' as [|fuel']; [lia|].
  cbn [ListTargetsByRulePages] in *.
  destruct (send conn _ e) as [[output err] e1].
  destruct err; [done|]. destruct output as [output|]; [|done].
  destruct (fn output _ (world e1)) as [continue w].
  destruct (negb continue || _); [done|].
  apply IH; [done|lia].
Qed.
End list_pages.

(** ** The claims about the not-found signal *)

Lemma Contains_empty m : strings.Contains m "" = true.
Proof. by destruct m. Qed.

Lemma ErrMessageContains_code e code :
  tfawserr.ErrMessageContains (Some e) code "" = hasCode e code.
Proof.
  unfold tfawserr.ErrMessageContains, hasCode, tfawserr.ErrCodeEquals. simpl.
  destruct (asAwsErr e) as [[c m]|]; [|done].
  by rewrite Contains_empty, andb_true_r.
Qed.

(** C3, as amended.  When the remote lookup of Read reports that the
    object is absent, Read returns without error and sets the stored
    identifier to the empty string: for the configuration recorder on
    the error NoSuchConfigurationRecorderException and on an empty
    recorder list, and for the access point on the error
    NoSuchAccessPoint provided the resource is not new. *)
Theorem Read_absent_clears_id :
  ∀ (W RecordingGroup : Type)
    (flattenRecordingGroup : RecordingGroup → list value)
    (goSyntax : list (option (config.ConfigurationRecorder RecordingGroup)) → string),
  (∀ (meta : config.AWSClient W RecordingGroup) s out e w,
     let c := config.DescribeConfigurationRecorders [aws.String (rd_id (res s))] in
     answers (config.ConfigConn meta) c s (out, Some e) w →
     hasCode e "NoSuchConfigurationRecorderException" = true →
     config.resourceConfigurationRecorderRead flattenRecordingGroup goSyntax meta s
     = (Done None, withData (schema.SetId (res s) "") (called s c w)))
  ∧ (∀ (meta : config.AWSClient W RecordingGroup) s w,
     let c := config.DescribeConfigurationRecorders [aws.String (rd_id (res s))] in
     answers (config.ConfigConn meta) c s
       (Some {| config.ConfigurationRecorders := [] |}, None) w →
     config.resourceConfigurationRecorderRead flattenRecordingGroup goSyntax meta s
     = (Done None, withData (schema.SetId (res s) "") (called s c w)))
  ∧ (∀ (meta : s3control.AWSClient W) s accountId name out e w,
     let c := s3control.GetAccessPoint (s3control.key accountId name) in
     s3control.AccessPointParseID (rd_id (res s)) = (accountId, name, None) →
     answers (s3control.S3ControlConn meta) c s (out, Some e) w →
     hasCode e "NoSuchAccessPoint" = true →
     rd_isNew (res s) = false →
     s3control.resourceAccessPointRead meta s
     = (Done None, withData (schema.SetId (res s) "") (called s c w))).
Proof.
  intros W RG flatten goSyntax. repeat split.
  - intros meta s out e w c Hd He.
    rewrite (recorder_Read_error _ _ _ _ _ _ _ Hd).
    unfold recorder_gone, config.ErrCodeNoSuchConfigurationRecorderException.
    by rewrite ErrMessageContains_code, He.
  - intros meta s w c Hd. by apply recorder_Read_empty.
  - intros meta s accountId name out e w c Hid Hget He Hnew.
    by eapply Read_absent.
Qed.

Lemma Read_absent_clears_id_witness :
  config.resourceConfigurationRecorderRead (λ _ : unit, []) (λ _, "") sample.configMeta
    (sample.configState "default" [] ∅)
  = (Done None,
     withData (schema.SetId (res (sample.configState "default" [] ∅)) "")
       (called (sample.configState "default" [] ∅)
          (config.DescribeConfigurationRecorders [Some "default"]) []))
  ∧ s3control.resourceAccessPointRead (sample.meta false)
      (sample.state "123456789012:ap" false false ∅ ∅)
    = (Done None,
       withData (schema.SetId (res (sample.state "123456789012:ap" false false ∅ ∅)) "")
         (called (sample.state "123456789012:ap" false false ∅ ∅)
            (s3control.GetAccessPoint (s3control.key "123456789012" "ap")) false)).
Proof.
  destruct (Read_absent_clears_id bool unit (λ _, []) (λ _, "")) as (_ & _ & Hap).
  destruct (Read_absent_clears_id sample.recorders unit (λ _, []) (λ _, "")) as (_ & Hempty & _).
  split.
  - apply (Hempty sample.configMeta (sample.configState "default" [] ∅) []).
    reflexivity.
  - apply (Hap (sample.meta false) (sample.state "123456789012:ap" false false ∅ ∅)
             "123456789012" "ap" None sample.noSuchAccessPoint false);
      reflexivity.
Defined.

(** C3, as stated, fails for a new resource: the lookup reports
    NoSuchAccessPoint, and Read returns an error and keeps the identifier. *)
Lemma Read_absent_new_counterexample :
  let s := sample.state "123456789012:ap" true false ∅ ∅ in
  let c := s3control.GetAccessPoint (s3control.key "123456789012" "ap") in
  s3control.AccessPointParseID (rd_id (res s)) = ("123456789012", "ap", None)
  ∧ answers (s3control.S3ControlConn (sample.meta false)) c s
      (None, Some sample.noSuchAccessPoint) false
  ∧ hasCode sample.noSuchAccessPoint "NoSuchAccessPoint" = true
  ∧ s3control.resourceAccessPointRead (sample.meta false) s
    = (Done (Some (readError "123456789012:ap" sample.noSuchAccessPoint)), called s c false)
  ∧ rd_id (res (s3control.resourceAccessPointRead (sample.meta false) s).2) ≠ "".
Proof.
  intros s c.
  assert (s3control.AccessPointParseID (rd_id (res s)) = ("123456789012", "ap", None))
    as Hid by reflexivity.
  assert (answers (s3control.S3ControlConn (sample.meta false)) c s
            (None, Some sample.noSuchAccessPoint) false) as Hget by reflexivity.
  pose proof (Read_failed (sample.meta false) s _ _ _ _ _ Hid Hget (or_introl eq_refl)) as Hrun.
  split; [exact Hid|]. split; [exact Hget|]. split; [reflexivity|].
  split; [exact Hrun|]. by rewrite Hrun.
Qed.

(** C10.  In the access point adapter the not-found signal is
    suppressed for a new resource: when the lookup fails with
    NoSuchAccessPoint, Read of a new resource returns an error that
    wraps the remote one and keeps the identifier, and Read of a
    resource that is not new clears the identifier and returns no
    error.  So Create of a new resource, whose trailing Read meets
    NoSuchAccessPoint, returns that error. *)
Theorem Read_absent_new_resource :
  ∀ (W : Type) (meta : s3control.AWSClient W),
  (∀ s accountId name out e w,
     let c := s3control.GetAccessPoint (s3control.key accountId name) in
     s3control.AccessPointParseID (rd_id (res s)) = (accountId, name, None) →
     answers (s3control.S3ControlConn meta) c s (out, Some e) w →
     hasCode e "NoSuchAccessPoint" = true →
     s3control.resourceAccessPointRead meta s
     = if rd_isNew (res s)
       then (Done (Some (wrapError (("error reading S3 Access Point (" +:+ rd_id (res s)
                                       +:+ "): ") +:+ Error e) e)),
             called s c w)
       else (Done None, withData (schema.SetId (res s) "") (called s c w)))
  ∧ (∀ s accountId name input output w v account name' out e w',
       let create := s3control.CreateAccessPoint input in
       let id := createdId accountId name
                   (aws.StringValue (s3control.CreateAccessPointOutput.AccessPointArn output)) in
       let s1 := withData (schema.SetId (res s) id) (called s create w) in
       let get := s3control.GetAccessPoint (s3control.key account name') in
       rd_isNew (res s) = true →
       configured meta (res s) accountId name input →
       answers (s3control.S3ControlConn meta) create s (Some output, None) w →
       schema.GetOk s3control.Schema (res s) "policy" = (v, false) →
       s3control.AccessPointParseID id = (account, name', None) →
       answers (s3control.S3ControlConn meta) get s1 (out, Some e) w' →
       hasCode e "NoSuchAccessPoint" = true →
       s3control.resourceAccessPointCreate meta s
       = (Done (Some (wrapError (("error reading S3 Access Point (" +:+ id +:+ "): ")
                                   +:+ Error e) e)),
          called s1 get w')).
Proof.
  intros W meta. split.
  - intros s accountId name out e w c Hid Hget He.
    destruct (rd_isNew (res s)) eqn:Hnew.
    + by rewrite (Read_failed _ _ _ _ _ _ _ Hid Hget (or_introl Hnew)).
    + by eapply Read_absent.
  - intros s accountId name input output w v account name' out e w'. cbv zeta.
    intros Hnew Hconf Hcreate Hok Hid Hget He.
    rewrite (Create_call _ _ _ _ _ _ _ Hconf Hcreate). cbv zeta.
    change (schema.GetOk s3control.Schema (res (withData _ _)) "policy")
      with (schema.GetOk s3control.Schema (res s) "policy").
    rewrite Hok. erewrite orReturn_run; [|reflexivity].
    set (s1 := withData _ (called s _ w)) in *.
    by rewrite (Read_failed meta s1 account name' out e w' Hid Hget (or_introl Hnew)).
Qed.

Lemma Read_absent_new_resource_witness :
  let s := sample.state "123456789012:ap" true false ∅ ∅ in
  let c := s3control.GetAccessPoint (s3control.key "123456789012" "ap") in
  s3control.resourceAccessPointRead (sample.meta false) s
  = (Done (Some (wrapError
                   ("error reading S3 Access Point (123456789012:ap): "
                      +:+ Error sample.noSuchAccessPoint) sample.noSuchAccessPoint)),
     called s c false).
Proof.
  intros s c.
  destruct (Read_absent_new_resource bool (sample.meta false)) as [Hread _].
  apply (Hread s "123456789012" "ap" None sample.noSuchAccessPoint false); reflexivity.
Defined.

(** ** The claims about Delete and about the uniqueness of a recorder *)

(** C4.  When the deletion call reports that the object is already
    absent (NoSuchAccessPoint, NoSuchConfigurationRecorderException),
    Delete returns success; hence two Deletes of the same identifier in
    succession, each answered without an error or with the absence
    signal, both return success; and any other error of the deletion
    call is returned to the caller, with its text. *)
Theorem Delete_idempotent :
  ∀ (W RecordingGroup : Type),
  (∀ (meta : s3control.AWSClient W) s accountId name r w,
     let c := s3control.DeleteAccessPoint (s3control.key accountId name) in
     s3control.AccessPointParseID (rd_id (res s)) = (accountId, name, None) →
     answers (s3control.S3ControlConn meta) c s r w →
     (done_or_gone "NoSuchAccessPoint" r.2 →
      s3control.resourceAccessPointDelete meta s = (Done None, called s c w))
     ∧ (∀ r' w', answers (s3control.S3ControlConn meta) c (called s c w) r' w' →
                 done_or_gone "NoSuchAccessPoint" r.2 →
                 done_or_gone "NoSuchAccessPoint" r'.2 →
                 s3control.resourceAccessPointDelete meta s = (Done None, called s c w)
                 ∧ s3control.resourceAccessPointDelete meta (called s c w)
                   = (Done None, called (called s c w) c w'))
     ∧ (∀ e, r.2 = Some e → hasCode e "NoSuchAccessPoint" = false →
             s3control.resourceAccessPointDelete meta s
             = (Done (Some (errorString (("error deleting S3 Access Point ("
                                            +:+ rd_id (res s) +:+ "): ") +:+ Error e))),
                called s c w)))
  ∧ (∀ (meta : config.AWSClient W RecordingGroup) s r w,
     let c := config.DeleteConfigurationRecorder (aws.String (rd_id (res s))) in
     answers (config.ConfigConn meta) c s r w →
     (done_or_gone "NoSuchConfigurationRecorderException" r.2 →
      config.resourceConfigurationRecorderDelete meta s = (Done None, called s c w))
     ∧ (∀ r' w', answers (config.ConfigConn meta) c (called s c w) r' w' →
                 done_or_gone "NoSuchConfigurationRecorderException" r.2 →
                 done_or_gone "NoSuchConfigurationRecorderException" r'.2 →
                 config.resourceConfigurationRecorderDelete meta s = (Done None, called s c w)
                 ∧ config.resourceConfigurationRecorderDelete meta (called s c w)
                   = (Done None, called (called s c w) c w'))
     ∧ (∀ e, r.2 = Some e → hasCode e "NoSuchConfigurationRecorderException" = false →
             config.resourceConfigurationRecorderDelete meta s
             = (Done (Some (errorString ("Deleting Configuration Recorder failed: "
                                           +:+ Error e))),
                called s c w))).
Proof.
  intros W RG. split.
  - intros meta s accountId name r w c Hid Hdel.
    assert (∀ s r w,
              s3control.AccessPointParseID (rd_id (res s)) = (accountId, name, None) →
              answers (s3control.S3ControlConn meta) c s r w →
              done_or_gone "NoSuchAccessPoint" r.2 →
              s3control.resourceAccessPointDelete meta s = (Done None, called s c w)) as Hok.
    { clear. intros s [o [e|]] w Hid Hdel Hgone; rewrite (Delete_run _ _ _ _ _ _ Hid Hdel);
        cbn [snd] in *; [|done].
      by rewrite ErrMessageContains_code, Hgone. }
    split; [intros Hg; by apply (Hok s r w)|]. split.
    + intros r' w' Hdel' Hg Hg'. split; [by apply (Hok s r w)|].
      by apply (Hok (called s c w) r' w').
    + intros e He Hcode. rewrite (Delete_run _ _ _ _ _ _ Hid Hdel), He.
      by rewrite ErrMessageContains_code, Hcode.
  - intros meta s r w c Hdel.
    assert (∀ s r w,
              answers (config.ConfigConn meta)
                (config.DeleteConfigurationRecorder (aws.String (rd_id (res s)))) s r w →
              done_or_gone "NoSuchConfigurationRecorderException" r.2 →
              config.resourceConfigurationRecorderDelete meta s
              = (Done None,
                 called s (config.DeleteConfigurationRecorder (aws.String (rd_id (res s)))) w))
      as Hok.
    { clear. intros s [o [e|]] w Hdel Hgone; rewrite (recorder_Delete_run _ _ _ _ Hdel);
        cbn [snd] in *; [|done].
      unfold recorder_gone, config.ErrCodeNoSuchConfigurationRecorderException.
      by rewrite ErrMessageContains_code, Hgone. }
    split; [intros Hg; by apply (Hok s r w)|]. split.
    + intros r' w' Hdel' Hg Hg'. split; [by apply (Hok s r w)|].
      by apply (Hok (called s c w) r' w').
    + intros e He Hcode. rewrite (recorder_Delete_run _ _ _ _ Hdel), He.
      unfold recorder_gone, config.ErrCodeNoSuchConfigurationRecorderException.
      by rewrite ErrMessageContains_code, Hcode.
Qed.

Lemma Delete_idempotent_witness :
  let s := sample.state "123456789012:ap" false true ∅ ∅ in
  let c := s3control.DeleteAccessPoint (s3control.key "123456789012" "ap") in
  let t := sample.configState "default" [sample.recorder "default"] ∅ in
  let k := config.DeleteConfigurationRecorder (Some "default") in
  (s3control.resourceAccessPointDelete (sample.meta false) s = (Done None, called s c false)
   ∧ s3control.resourceAccessPointDelete (sample.meta false) (called s c false)
     = (Done None, called (called s c false) c false))
  ∧ (config.resourceConfigurationRecorderDelete sample.configMeta t = (Done None, called t k [])
     ∧ config.resourceConfigurationRecorderDelete sample.configMeta (called t k [])
       = (Done None, called (called t k []) k [])).
Proof.
  intros s c t k.
  destruct (Delete_idempotent bool unit) as [Hap _].
  destruct (Delete_idempotent sample.recorders unit) as [_ Hrec].
  split.
  - destruct (Hap (sample.meta false) s "123456789012" "ap" (Some tt, None) false
                eq_refl eq_refl) as (_ & Htwice & _).
    apply (Htwice (None, Some sample.noSuchAccessPoint) false); [reflexivity|exact I|reflexivity].
  - destruct (Hrec sample.configMeta t (Some tt, None) [] eq_refl) as (_ & Htwice & _).
    apply (Htwice (None, Some sample.noSuchRecorder) []); [reflexivity|exact I|reflexivity].
Defined.

(** C7.  When the describe call of the recorder's Read succeeds with
    more than one recorder, Read returns an error that says that exactly
    1 recorder was expected and gives the number received, and the
    resource data is left as it was. *)
Theorem Read_more_than_one_recorder :
  ∀ (W RecordingGroup : Type)
    (flattenRecordingGroup : RecordingGroup → list value)
    (goSyntax : list (option (config.ConfigurationRecorder RecordingGroup)) → string)
    (meta : config.AWSClient W RecordingGroup) s out w,
    let c := config.DescribeConfigurationRecorders [aws.String (rd_id (res s))] in
    let n := List.length (config.ConfigurationRecorders out) in
    answers (config.ConfigConn meta) c s (Some out, None) w →
    1 < n →
    let result := config.resourceConfigurationRecorderRead flattenRecordingGroup goSyntax meta s in
    result.1 = Done (Some (errorString
                             ("Expected exactly 1 Configuration Recorder, received "
                                +:+ pretty n +:+ ": "
                                +:+ goSyntax (config.ConfigurationRecorders out))))
    ∧ res result.2 = res s
    ∧ issued s result.2 = [c].
Proof.
  intros W RG flatten goSyntax meta s out w c n Hd Hn result. subst result.
  rewrite (recorder_Read_many _ _ _ _ _ _ Hd Hn).
  split; [done|]. split; [done|]. apply issued_called.
Qed.

Lemma Read_more_than_one_recorder_witness :
  let held := [sample.recorder "default"; sample.recorder "other"] in
  let s := sample.configState "default" held ∅ in
  let result := config.resourceConfigurationRecorderRead (λ _ : unit, []) (λ _, "[2 recorders]")
                  sample.configMeta s in
  result.1 = Done (Some (errorString
                           "Expected exactly 1 Configuration Recorder, received 2: [2 recorders]"))
  ∧ res result.2 = res s
  ∧ issued s result.2 = [config.DescribeConfigurationRecorders [Some "default"]].
Proof.
  intros held s.
  apply (Read_more_than_one_recorder sample.recorders unit (λ _, []) (λ _, "[2 recorders]")
           sample.configMeta s {| config.ConfigurationRecorders := held |} held).
  - reflexivity.
  - simpl. lia.
Defined.

(** ** The claims about Update and Create *)

Section counting.
Context {W : Type}.
Implicit Types (meta : s3control.AWSClient W) (s : rstate W s3control.call).
Import s3control.

Lemma count_cons (p : call → bool) c l :
  count p (c :: l) = ((if p c then 1 else 0) + count p l)%nat.
Proof. unfold count. simpl. by destruct (p c). Qed.

Lemma count_lookup_only (p : call → bool) l :
  (∀ c, p c = true → is_mutation c = true) →
  Forall lookup_only l → count p l = 0%nat.
Proof.
  intros Hp. induction 1 as [|c l Hc _ IH]; [done|].
  rewrite count_cons, IH. destruct (p c) eqn:Hpc; [|done].
  apply Hp in Hpc. unfold lookup_only in Hc. congruence.
Qed.

(** The calls of a mutation followed by Read: the mutation, then lookups. *)
Lemma issued_then_Read meta s c w :
  ∃ l, issued s (resourceAccessPointRead meta (called s c w)).2 = c :: l
       ∧ Forall lookup_only l.
Proof.
  destruct (Read_lookup_only meta (called s c w)) as (l & Hl & Hall).
  exists l. split; [|done]. apply issued_app.
  rewrite Hl. cbn [called remote calls]. by rewrite <- app_assoc.
Qed.

Lemma issued_Read meta s :
  Forall lookup_only (issued s (resourceAccessPointRead meta s).2).
Proof.
  destruct (Read_lookup_only meta s) as (l & Hl & Hall).
  by rewrite (issued_app _ _ _ Hl).
Qed.

Lemma Update_put_calls meta s accountId name policy :
  AccessPointParseID (rd_id (res s)) = (accountId, name, None) →
  schema.HasChange Schema (res s) "policy" = true →
  schema.GetOk Schema (res s) "policy" = (VString policy, true) →
  ∃ l, issued s (resourceAccessPointUpdate meta s).2
       = putPolicyInput accountId name policy :: l
       ∧ Forall lookup_only l.
Proof.
  intros Hid Hch Hok.
  destruct (S3ControlConn meta (putPolicyInput accountId name policy) (world (remote s)))
    as [r w] eqn:Hput.
  rewrite (Update_put _ _ _ _ _ _ _ Hid Hch Hok Hput).
  destruct r as [o [e|]]; cbn [snd].
  - exists []. by rewrite issued_called.
  - apply issued_then_Read.
Qed.

Lemma Update_delete_policy_calls meta s accountId name v :
  AccessPointParseID (rd_id (res s)) = (accountId, name, None) →
  schema.HasChange Schema (res s) "policy" = true →
  schema.GetOk Schema (res s) "policy" = (v, false) →
  ∃ l, issued s (resourceAccessPointUpdate meta s).2
       = DeleteAccessPointPolicy (key accountId name) :: l
       ∧ Forall lookup_only l.
Proof.
  intros Hid Hch Hok.
  destruct (S3ControlConn meta (DeleteAccessPointPolicy (key accountId name))
              (world (remote s))) as [r w] eqn:Hdel.
  rewrite (Update_delete_policy _ _ _ _ _ _ _ Hid Hch Hok Hdel).
  destruct r as [o [e|]]; cbn [snd].
  - exists []. by rewrite issued_called.
  - apply issued_then_Read.
Qed.
End counting.

(** C5, as amended.  For every Update of an access point whose stored
    identifier parses: when the policy changed to a non-empty value,
    exactly one PutAccessPointPolicy call is issued and it is the only
    mutation; when the policy changed to empty, exactly one
    DeleteAccessPointPolicy call is issued and it is the only mutation;
    when nothing changed, no mutation call is issued; and whenever the
    mutation call (if any) succeeds, Update ends by running Read on the
    state reached. *)
Theorem Update_minimal_mutations :
  ∀ (W : Type) (meta : s3control.AWSClient W) s accountId name,
    s3control.AccessPointParseID (rd_id (res s)) = (accountId, name, None) →
    let calls := issued s (s3control.resourceAccessPointUpdate meta s).2 in
    (∀ policy,
       schema.HasChange s3control.Schema (res s) "policy" = true →
       schema.GetOk s3control.Schema (res s) "policy" = (VString policy, true) →
       let put := putPolicyInput accountId name policy in
       head calls = Some put
       ∧ count s3control.is_PutAccessPointPolicy calls = 1%nat
       ∧ count s3control.is_mutation calls = 1%nat
       ∧ ∀ r w, answers (s3control.S3ControlConn meta) put s r w → r.2 = None →
                s3control.resourceAccessPointUpdate meta s
                = s3control.resourceAccessPointRead meta (called s put w))
    ∧ (∀ v,
       schema.HasChange s3control.Schema (res s) "policy" = true →
       schema.GetOk s3control.Schema (res s) "policy" = (v, false) →
       let del := s3control.DeleteAccessPointPolicy (s3control.key accountId name) in
       head calls = Some del
       ∧ count s3control.is_DeleteAccessPointPolicy calls = 1%nat
       ∧ count s3control.is_mutation calls = 1%nat
       ∧ ∀ r w, answers (s3control.S3ControlConn meta) del s r w → r.2 = None →
                s3control.resourceAccessPointUpdate meta s
                = s3control.resourceAccessPointRead meta (called s del w))
    ∧ (schema.HasChange s3control.Schema (res s) "policy" = false →
       count s3control.is_mutation calls = 0%nat
       ∧ s3control.resourceAccessPointUpdate meta s
         = s3control.resourceAccessPointRead meta s).
Proof.
  intros W meta s accountId name Hid calls. subst calls.
  split; [|split].
  - intros policy Hch Hok put.
    destruct (Update_put_calls meta s _ _ _ Hid Hch Hok) as (l & -> & Hl).
    split; [done|]. split; [|split].
    + rewrite count_cons, (count_lookup_only _ l); [done| |done]. by intros [].
    + by rewrite count_cons, (count_lookup_only _ l).
    + intros r w Hput Hr. rewrite (Update_put _ _ _ _ _ _ _ Hid Hch Hok Hput).
      by destruct r as [o [e|]].
  - intros v Hch Hok del.
    destruct (Update_delete_policy_calls meta s _ _ _ Hid Hch Hok) as (l & -> & Hl).
    split; [done|]. split; [|split].
    + rewrite count_cons, (count_lookup_only _ l); [done| |done]. by intros [].
    + by rewrite count_cons, (count_lookup_only _ l).
    + intros r w Hdel Hr. rewrite (Update_delete_policy _ _ _ _ _ _ _ Hid Hch Hok Hdel).
      by destruct r as [o [e|]].
  - intros Hch. rewrite (Update_unchanged _ _ _ _ Hid Hch). split; [|done].
    apply count_lookup_only; [done|apply issued_Read].
Qed.

Lemma Update_minimal_mutations_witness :
  let s := sample.state "123456789012:ap" false true ∅ {[ "policy" := VString "{}" ]} in
  let put := putPolicyInput "123456789012" "ap" "{}" in
  let calls := issued s (s3control.resourceAccessPointUpdate (sample.meta false) s).2 in
  head calls = Some put
  ∧ count s3control.is_PutAccessPointPolicy calls = 1%nat
  ∧ count s3control.is_mutation calls = 1%nat
  ∧ s3control.resourceAccessPointUpdate (sample.meta false) s
    = s3control.resourceAccessPointRead (sample.meta false) (called s put true).
Proof.
  intros s put calls.
  destruct (Update_minimal_mutations bool (sample.meta false) s "123456789012" "ap" eq_refl)
    as (Hput & _ & _).
  destruct (Hput "{}" eq_refl eq_refl) as (H1 & H2 & H3 & H4).
  split; [exact H1|]. split; [exact H2|]. split; [exact H3|].
  apply (H4 (Some tt, None) true); reflexivity.
Defined.

(** C5, as stated, fails when the stored identifier does not parse: the
    policy changed to a non-empty value, and Update returns the format
    error without issuing any call. *)
Lemma Update_malformed_id_counterexample :
  let s := sample.state "invalid" false true ∅ {[ "policy" := VString "{}" ]} in
  let result := s3control.resourceAccessPointUpdate (sample.meta false) s in
  schema.HasChange s3control.Schema (res s) "policy" = true
  ∧ schema.GetOk s3control.Schema (res s) "policy" = (VString "{}", true)
  ∧ result.1 = Done (Some (errorString
                             "unexpected format of ID (invalid), expected ACCOUNT_ID:NAME"))
  ∧ issued s result.2 = []
  ∧ count s3control.is_PutAccessPointPolicy (issued s result.2) ≠ 1%nat.
Proof.
  intros s result.
  assert (result = (Done (Some (errorString
                                  "unexpected format of ID (invalid), expected ACCOUNT_ID:NAME")),
                    s)) as ->.
  { by apply (Update_malformed _ _ "" ""). }
  repeat split; discriminate.
Qed.

(** C6.  When the creation call succeeds, Create stores the identifier
    derived from its result (the ARN the remote assigned when that ARN
    parses and names an Outposts resource, the composite
    [accountId:name] otherwise) and, once the policy call (issued when
    a policy is configured) has succeeded too, ends by running Read on
    the state reached; the recorder's Put stores the name and ends by
    running Read.  When the remote reports an error, the function
    returns an error that carries it. *)
Theorem Create_derives_id_then_reads :
  ∀ (W RecordingGroup : Type)
    (expandRecordingGroup : list value → outcome (option RecordingGroup))
    (flattenRecordingGroup : RecordingGroup → list value)
    (goSyntax : list (option (config.ConfigurationRecorder RecordingGroup)) → string),
  (∀ (meta : s3control.AWSClient W) s accountId name input r w,
     let c := s3control.CreateAccessPoint input in
     configured meta (res s) accountId name input →
     answers (s3control.S3ControlConn meta) c s r w →
     (∀ e, r.2 = Some e →
           s3control.resourceAccessPointCreate meta s
           = (Done (Some (wrapError (("error creating S3 Control Access Point (" +:+ name
                                        +:+ "): ") +:+ Error e) e)),
              called s c w))
     ∧ (∀ output, r = (Some output, None) →
          let accessPointArn :=
            aws.StringValue (s3control.CreateAccessPointOutput.AccessPointArn output) in
          let id := if isOutposts accessPointArn then accessPointArn
                    else accountId +:+ ":" +:+ name in
          let s1 := withData (schema.SetId (res s) id) (called s c w) in
          (∀ v, schema.GetOk s3control.Schema (res s) "policy" = (v, false) →
                s3control.resourceAccessPointCreate meta s
                = s3control.resourceAccessPointRead meta s1)
          ∧ (∀ policy r2 w2,
               let put := putPolicyInput accountId
                            (if isOutposts accessPointArn then accessPointArn else name)
                            policy in
               schema.GetOk s3control.Schema (res s) "policy" = (VString policy, true) →
               answers (s3control.S3ControlConn meta) put s1 r2 w2 →
               r2.2 = None →
               s3control.resourceAccessPointCreate meta s
               = s3control.resourceAccessPointRead meta (called s1 put w2))))
  ∧ (∀ (meta : config.AWSClient W RecordingGroup) s name recorder r w,
       let c := config.PutConfigurationRecorder (Some recorder) in
       recorder_configured expandRecordingGroup (res s) name recorder →
       answers (config.ConfigConn meta) c s r w →
       (∀ e, r.2 = Some e →
             config.resourceConfigurationRecorderPut expandRecordingGroup
               flattenRecordingGroup goSyntax meta s
             = (Done (Some (errorString ("Creating Configuration Recorder failed: "
                                           +:+ Error e))),
                called s c w))
       ∧ (r.2 = None →
          config.resourceConfigurationRecorderPut expandRecordingGroup
            flattenRecordingGroup goSyntax meta s
          = config.resourceConfigurationRecorderRead flattenRecordingGroup goSyntax meta
              (withData (schema.SetId (res s) name) (called s c w)))).
Proof.
  intros W RG expand flatten goSyntax. split.
  - intros meta s accountId name input r w c Hconf Hcall.
    pose proof (Create_call _ _ _ _ _ _ _ Hconf Hcall) as Hrun. split.
    + intros e He. rewrite Hrun. by destruct r as [[o|] [e'|]]; simplify_eq/=.
    + intros output -> accessPointArn id s1. rewrite Hrun. cbv zeta.
      unfold createdId. fold accessPointArn. fold id.
      change (schema.GetOk s3control.Schema (res (withData _ _)) "policy")
        with (schema.GetOk s3control.Schema (res s) "policy").
      split.
      * intros v Hok. rewrite Hok. by apply orReturn_run.
      * intros policy r2 w2 Hok Hput Hr2. rewrite Hok.
        pose proof (putPolicy_run _ _ _ _ _ _ _ Hput) as Hp.
        destruct r2 as [o [e|]]; [discriminate|].
        exact (orReturn_run _ _ _ _ Hp).
  - intros meta s name recorder r w c Hconf Hput.
    pose proof (recorder_Put_run expand flatten goSyntax _ _ _ _ _ _ Hconf Hput) as Hrun.
    split.
    + intros e He. rewrite Hrun. by destruct r as [o [e'|]]; simplify_eq/=.
    + intros Hr. rewrite Hrun. by destruct r as [o [e'|]]; simplify_eq/=.
Qed.

Lemma Create_derives_id_then_reads_witness :
  let s := sample.state "" true false ∅ sample.planned in
  let input :=
    {| s3control.CreateAccessPointInput.AccountId := Some "123456789012";
       s3control.CreateAccessPointInput.Bucket := Some "bucket-1";
       s3control.CreateAccessPointInput.Name := Some "ap";
       s3control.CreateAccessPointInput.PublicAccessBlockConfiguration := None;
       s3control.CreateAccessPointInput.VpcConfiguration := None |} in
  s3control.resourceAccessPointCreate (sample.meta false) s
  = s3control.resourceAccessPointRead (sample.meta false)
      (withData (schema.SetId (res s) "123456789012:ap")
         (called s (s3control.CreateAccessPoint input) true)).
Proof.
  intros s input.
  destruct (Create_derives_id_then_reads bool unit (λ _, Done None) (λ _, []) (λ _, ""))
    as [Hap _].
  destruct (Hap (sample.meta false) s "123456789012" "ap" input
              (Some {| s3control.CreateAccessPointOutput.AccessPointArn :=
                         Some "arn:aws:s3:us-west-2:123456789012:accesspoint/ap" |}, None)
              true) as [_ Hok].
  - split; [reflexivity|]. split; [reflexivity|].
    exists "bucket-1", [], [], None, None. by repeat split.
  - reflexivity.
  - destruct (Hok _ eq_refl) as [Hnone _]. apply (Hnone (VString "")). reflexivity.
Defined.

(** ** The claim about the secondary lookups of Read *)

Lemma absent_policy_of r : absent r.2 = true → policy_of r = Some "".
Proof. unfold policy_of. by intros ->. Qed.

Lemma absent_public_of r : absent r.2 = true → public_of r = Some false.
Proof. unfold public_of. by intros ->. Qed.

(** C8, as amended.  For every access point Read where the primary
    lookup succeeds, a name that starts with "arn:" parses as an ARN,
    and every secondary lookup that is issued either succeeds or
    reports absence (NoSuchAccessPointPolicy), Read returns success: an
    absent policy is mapped to the empty string and an absent policy
    status to has_public_access_policy = false (which is also what an
    access point named by an ARN gets, without a status lookup). *)
Theorem Read_tolerates_absent_secondary :
  ∀ (W : Type) (meta : s3control.AWSClient W) s accountId name out w1 r2 w2 pol,
    let get := s3control.GetAccessPoint (s3control.key accountId name) in
    let getPolicy := s3control.GetAccessPointPolicy (s3control.key accountId name) in
    let getStatus := s3control.GetAccessPointPolicyStatus (s3control.key accountId name) in
    let result := s3control.resourceAccessPointRead meta s in
    s3control.AccessPointParseID (rd_id (res s)) = (accountId, name, None) →
    answers (s3control.S3ControlConn meta) get s (Some out, None) w1 →
    (strings.HasPrefix name "arn:" = true → (arn.Parse name).2 = None) →
    answers (s3control.S3ControlConn meta) getPolicy (called s get w1) r2 w2 →
    policy_of r2 = Some pol →
    (absent r2.2 = true → pol = "")
    ∧ (strings.HasPrefix name "arn:" = true →
       result.1 = Done None
       ∧ schema.Get s3control.Schema (res result.2) "policy" = VString pol
       ∧ schema.Get s3control.Schema (res result.2) "has_public_access_policy" = VBool false
       ∧ issued s result.2 = [get; getPolicy])
    ∧ (strings.HasPrefix name "arn:" = false →
       ∀ r3 w3 pub,
         answers (s3control.S3ControlConn meta) getStatus
           (called (called s get w1) getPolicy w2) r3 w3 →
         public_of r3 = Some pub →
         (absent r3.2 = true → pub = false)
         ∧ result.1 = Done None
         ∧ schema.Get s3control.Schema (res result.2) "policy" = VString pol
         ∧ schema.Get s3control.Schema (res result.2) "has_public_access_policy" = VBool pub
         ∧ issued s result.2 = [get; getPolicy; getStatus]).
Proof.
  intros W meta s accountId name out w1 r2 w2 pol. cbv zeta.
  intros Hid Hget Harn Hpol Hof.
  destruct (Read_primary _ _ _ _ _ _ Hid Hget Harn) as (d & Hd & Hrun).
  rewrite Hrun. clear Hrun.
  split; [|split].
  - intros Habs. apply absent_policy_of in Habs. congruence.
  - intros Hout.
    destruct (Secondary_outposts meta accountId name
                (withData d (called s _ w1)) r2 w2 pol Hpol Hof Hout)
      as (d' & _ & Hp & Hpub & ->).
    repeat split; try done. apply issued_app. cbn. by rewrite <- app_assoc.
  - intros Hnot r3 w3 pub Hst Hpubof.
    destruct (Secondary_status meta accountId name
                (withData d (called s _ w1)) r2 w2 pol r3 w3 Hpol Hof Hnot Hst)
      as (d' & _ & Hp & Hres).
    rewrite Hpubof in Hres. destruct Hres as [Hpub ->].
    split; [|repeat split; try done].
    + intros Habs. apply absent_public_of in Habs. congruence.
    + apply issued_app. cbn. by rewrite <- !app_assoc.
Qed.

Lemma Read_tolerates_absent_secondary_witness :
  let s := sample.state "123456789012:ap" false true ∅ ∅ in
  let result := s3control.resourceAccessPointRead (sample.meta false) s in
  result.1 = Done None
  ∧ schema.Get s3control.Schema (res result.2) "policy" = VString ""
  ∧ schema.Get s3control.Schema (res result.2) "has_public_access_policy" = VBool false.
Proof.
  intros s result.
  destruct (Read_tolerates_absent_secondary bool (sample.meta false) s
              "123456789012" "ap" sample.found true
              (None, Some sample.noSuchAccessPointPolicy) true "")
    as (_ & _ & Hst); try reflexivity; [discriminate|].
  destruct (Hst eq_refl (None, Some sample.noSuchAccessPointPolicy) true false)
    as (_ & H1 & H2 & H3 & _); try reflexivity.
  by repeat split.
Defined.

(** C8, as stated, fails when the policy lookup reports absence and the
    status lookup fails with another error: Read returns that error. *)
Lemma Read_absent_policy_status_denied_counterexample :
  let s := sample.state "123456789012:ap" false true ∅ ∅ in
  let key := s3control.key "123456789012" "ap" in
  let get := s3control.GetAccessPoint key in
  let getPolicy := s3control.GetAccessPointPolicy key in
  let getStatus := s3control.GetAccessPointPolicyStatus key in
  answers (s3control.S3ControlConn (sample.meta true)) get s (Some sample.found, None) true
  ∧ answers (s3control.S3ControlConn (sample.meta true)) getPolicy (called s get true)
      (None, Some sample.noSuchAccessPointPolicy) true
  ∧ absent (Some sample.noSuchAccessPointPolicy) = true
  ∧ answers (s3control.S3ControlConn (sample.meta true)) getStatus
      (called (called s get true) getPolicy true) (None, Some sample.accessDenied) true
  ∧ (s3control.resourceAccessPointRead (sample.meta true) s).1
    = Done (Some (statusError "123456789012:ap" sample.accessDenied)).
Proof.
  intros s key get getPolicy getStatus. subst key get getPolicy getStatus.
  split; [reflexivity|]. split; [reflexivity|]. split; [reflexivity|].
  split; [reflexivity|].
  destruct (Read_primary (sample.meta true) s "123456789012" "ap" sample.found true
              eq_refl eq_refl) as (d & Hd & ->); [discriminate|].
  destruct (Secondary_status (sample.meta true) "123456789012" "ap"
              (withData d (called s (s3control.GetAccessPoint
                                       (s3control.key "123456789012" "ap")) true))
              (None, Some sample.noSuchAccessPointPolicy) true ""
              (None, Some sample.accessDenied) true eq_refl eq_refl eq_refl eq_refl)
    as (d' & _ & _ & ->).
  cbn [fst snd withData res]. by rewrite Hd.
Qed.

(** ** The claim about the pagination helper *)

(** C9.  [ListAllTargetsForRulePages] starts the iteration from a request
    whose page-size limit is 100 and whose event bus name is set exactly
    when the bus name is non-empty; every request of the iteration keeps
    the limit, the rule and the bus name; the iteration ends, without a
    further request, after a page for which the callback returns false
    or which carries no continuation cursor, and otherwise goes on with
    the cursor of the page; a result, once reached, is the result for
    every larger bound on the number of requests. *)
Theorem ListAllTargetsForRulePages_spec :
  ∀ (W Target : Type)
    (conn : Conn W cloudwatchevents.call (cloudwatchevents.output (Target:=Target)))
    (busName ruleName : string) (fn : cloudwatchevents.Callback W Target),
    let first :=
      {| cloudwatchevents.ListTargetsByRuleInput.EventBusName :=
           if bool_decide (busName = "") then None else Some busName;
         cloudwatchevents.ListTargetsByRuleInput.Limit := Some 100%Z;
         cloudwatchevents.ListTargetsByRuleInput.NextToken := None;
         cloudwatchevents.ListTargetsByRuleInput.Rule := Some ruleName |} in
    (∀ fuel e,
       cloudwatchevents.ListAllTargetsForRulePages fuel conn busName ruleName fn e
       = cloudwatchevents.ListTargetsByRulePages fuel conn first fn e)
    ∧ (∀ fuel e r e',
         cloudwatchevents.ListAllTargetsForRulePages fuel conn busName ruleName fn e
         = Some (r, e') →
         ∃ l, calls e' = (calls e ++ l)%list
              ∧ Forall (λ c, ∃ token, cloudwatchevents.input_of c = withToken token first) l)
    ∧ (∀ fuel input e output e1 continue w,
         send conn (cloudwatchevents.ListTargetsByRule input) e = ((Some output, None), e1) →
         fn output (noCursor output) (world e1) = (continue, w) →
         (continue = false ∨ noCursor output = true →
          cloudwatchevents.ListTargetsByRulePages (S fuel) conn input fn e
          = Some (Done None, {| world := w; calls := calls e1 |}))
         ∧ (continue = true ∧ noCursor output = false →
            cloudwatchevents.ListTargetsByRulePages (S fuel) conn input fn e
            = cloudwatchevents.ListTargetsByRulePages fuel conn
                (withToken (cloudwatchevents.ListTargetsByRuleOutput.NextToken output) input)
                fn {| world := w; calls := calls e1 |}))
    ∧ (∀ fuel fuel' input e result,
         cloudwatchevents.ListTargetsByRulePages fuel conn input fn e = Some result →
         (fuel ≤ fuel')%nat →
         cloudwatchevents.ListTargetsByRulePages fuel' conn input fn e = Some result).
Proof.
  intros W Target conn busName ruleName fn first.
  split; [|split; [|split]].
  - intros fuel e. apply ListAll_input.
  - intros fuel e r e' Hrun. rewrite ListAll_input in Hrun.
    by apply Pages_requests in Hrun.
  - intros fuel input e output e1 continue w Hsend Hfn. split.
    + intros Hstop. by eapply Pages_stop.
    + intros [-> Hlast]. by apply Pages_continue.
  - intros fuel fuel' input e result Hrun Hle. by eapply Pages_fuel.
Qed.

Lemma ListAllTargetsForRulePages_spec_witness :
  let request token :=
    cloudwatchevents.ListTargetsByRule
      {| cloudwatchevents.ListTargetsByRuleInput.EventBusName := None;
         cloudwatchevents.ListTargetsByRuleInput.Limit := Some 100%Z;
         cloudwatchevents.ListTargetsByRuleInput.NextToken := token;
         cloudwatchevents.ListTargetsByRuleInput.Rule := Some "rule" |} in
  cloudwatchevents.ListAllTargetsForRulePages 5 sample.listConn "" "rule" (sample.upTo 2)
    sample.fresh
  = Some (Done None, {| world := 2; calls := [request None; request (Some "t2")] |}).
Proof.
  intros request.
  destruct (ListAllTargetsForRulePages_spec nat string sample.listConn "" "rule" (sample.upTo 2))
    as (Hfirst & _ & Hstep & _).
  rewrite Hfirst.
  destruct (Hstep 4 (cloudwatchevents.input_of (request None)) sample.fresh
              (sample.page None)
              {| world := 0; calls := [request None] |} true 1 eq_refl eq_refl)
    as [_ Hgo].
  etrans; [apply Hgo; by split|].
  destruct (Hstep 3 (cloudwatchevents.input_of (request (Some "t2")))
              {| world := 1; calls := [request None] |}
              (sample.page (Some "t2"))
              {| world := 1; calls := [request None; request (Some "t2")] |}
              false 2 eq_refl eq_refl)
    as [Hstop _].
  apply Hstop. by left.
Defined.
Set Warnings "-clear-no-such-hyp".

(** ** How the functions change the resource data *)

Section evolving.
Context {W E : Type} {R : E → Type}.
Context (Rel : ResourceData → ResourceData → Prop).
Context `{!Reflexive Rel, !Transitive Rel}.

Lemma evolves_ret {A} (a : A) : evolves (W:=W) (E:=E) Rel (mret a).
Proof. intros s. reflexivity. Qed.

Lemma evolves_liftO {A} (o : outcome A) : evolves (W:=W) (E:=E) Rel (liftO o).
Proof. intros s. reflexivity. Qed.

Lemma evolves_getData : evolves (W:=W) (E:=E) Rel getData.
Proof. intros s. reflexivity. Qed.

Lemma evolves_invoke (conn : Conn W E R) c : evolves Rel (invoke conn c).
Proof.
intros s. unfold invoke, send. destruct (conn c _). reflexivity.
Qed.

Lemma evolves_bind {A B} (m : M (rstate W E) A) (f : A → M (rstate W E) B) :
evolves Rel m → (∀ a, evolves Rel (f a)) → evolves Rel (m ≫= f).
Proof.
intros Hm Hf s. unfold mbind, M_bind. specialize (Hm s).
destruct (m s) as [[a|] s1]; [|done].
etrans; [exact Hm|apply Hf].
Qed.

Lemma evolves_orReturn (m k : M (rstate W E) (option error)) :
evolves Rel m → evolves Rel k → evolves Rel (orReturn m k).
Proof.
intros Hm Hk. apply evolves_bind; [done|].
intros [e|]; [apply evolves_ret|done].
Qed.
End evolving.

#[global] Instance touches_refl keys : Reflexive (touches keys).
Proof. by intros d. Qed.

#[global] Instance touches_trans keys : Transitive (touches keys).
Proof.
  intros d1 d2 d3 (Hi & Hn & Hs & Ha) (Hi' & Hn' & Hs' & Ha').
  repeat split; try congruence. intros k Hk. by rewrite Ha', Ha.
Qed.

Lemma touches_weaken keys keys' d d' :
  keys ⊆ keys' → touches keys d d' → touches keys' d d'.
Proof.
  intros Hsub (Hi & Hn & Hs & Ha). repeat split; try done.
  intros k Hk. apply Ha. intros Hin. by apply Hk, Hsub.
Qed.

Lemma touches_Set_ sch d key v keys :
  key ∈ keys → touches keys d (schema.Set_ sch d key v).1.
Proof.
  intros Hin. unfold schema.Set_.
  destruct (sch !! key) as [t|]; [|done].
  assert (∀ k, k ∉ keys → k ≠ key) as Hne by (intros k Hk ->; done).
  destruct v; try (by destruct (has_type _ t); [repeat split; try done; simpl;
    intros k Hk; rewrite lookup_insert_ne by (by apply not_eq_sym, Hne)|]).
  repeat split; try done. simpl. intros k Hk.
  by rewrite lookup_delete_ne by (by apply not_eq_sym, Hne).
Qed.

Ltac evolves_step :=
  first
    [ by apply evolves_ret | by apply evolves_liftO | by apply evolves_getData
    | (apply evolves_orReturn; try apply _); [|]
    | (apply evolves_bind; try apply _); [|intros ?]
    | match goal with
      | |- evolves _ (let '(_, _) := ?x in _) => destruct x
      | |- evolves _ (match ?x with _ => _ end) => destruct x
      | |- evolves _ (if ?b then _ else _) => destruct b
      end ].

(** ** The calls a function issues, in order *)

Section ordered_calls.
Context {W E : Type} {R : E → Type}.
Implicit Types (s : rstate W E).

Lemma silent_ret {A} (a : A) : silent (W:=W) (E:=E) (mret a).
Proof. by intros s. Qed.

Lemma silent_liftO {A} (o : outcome A) : silent (W:=W) (E:=E) (liftO o).
Proof. by intros s. Qed.

Lemma silent_getData : silent (W:=W) (E:=E) getData.
Proof. by intros s. Qed.

Lemma silent_putData d : silent (W:=W) (E:=E) (putData d).
Proof. by intros s. Qed.

Lemma silent_bind {A B} (m : M (rstate W E) A) (f : A → M (rstate W E) B) :
silent m → (∀ a, silent (f a)) → silent (m ≫= f).
Proof.
intros Hm Hf s. unfold mbind, M_bind. specialize (Hm s).
destruct (m s) as [[a|] s1]; [|done]. by rewrite Hf.
Qed.

Lemma silent_orReturn (m k : M (rstate W E) (option error)) :
silent m → silent k → silent (orReturn m k).
Proof.
intros Hm Hk. apply silent_bind; [done|]. intros [e|]; [apply silent_ret|done].
Qed.

Lemma atmost_silent {A} L (m : M (rstate W E) A) : silent m → atmost L m.
Proof.
intros Hm s. exists []. rewrite Hm, app_nil_r. split; [done|apply prefix_nil].
Qed.

Lemma atmost_bind_silent {A B} L (m : M (rstate W E) A) (f : A → M (rstate W E) B) :
silent m → (∀ a, atmost L (f a)) → atmost L (m ≫= f).
Proof.
intros Hm Hf s. unfold mbind, M_bind. specialize (Hm s).
destruct (m s) as [[a|] s1]; simpl in Hm.
- destruct (Hf a s1) as (l & Hl & Hp). exists l. by rewrite Hl, Hm.
- exists []. simpl. rewrite Hm, app_nil_r. split; [done|apply prefix_nil].
Qed.

Lemma atmost_bind_invoke {B} L (conn : Conn W E R) c
  (f : option (R c) * option error → M (rstate W E) B) :
(∀ r, atmost L (f r)) → atmost (c :: L) (invoke conn c ≫= f).
Proof.
intros Hf s. unfold mbind, M_bind, invoke, send.
destruct (conn c _) as [r w].
destruct (Hf r {| res := res s; remote := {| world := w; calls := calls (remote s) ++ [c] |} |})
  as (l & Hl & Hp).
exists (c :: l). rewrite Hl. simpl. split; [by rewrite <- app_assoc|].
by apply prefix_cons.
Qed.

Lemma atmost_orReturn_silent L (m k : M (rstate W E) (option error)) :
silent m → atmost L k → atmost L (orReturn m k).
Proof.
intros Hm Hk. apply atmost_bind_silent; [done|].
intros [e|]; [apply atmost_silent, silent_ret|done].
Qed.

Lemma atmost_issued {A} L (m : M (rstate W E) A) s :
atmost L m → issued s (m s).2 `prefix_of` L.
Proof. intros Hm. destruct (Hm s) as (l & Hl & Hp). by rewrite (issued_app _ _ _ Hl). Qed.
End ordered_calls.

Ltac silent_step :=
  first
    [ apply silent_ret | apply silent_liftO | apply silent_getData | apply silent_putData
    | apply silent_orReturn
    | apply silent_bind; [|intros ?]
    | match goal with
      | |- silent (let '(_, _) := ?x in _) => destruct x
      | |- silent (match ?x with _ => _ end) => destruct x
      | |- silent (if ?b then _ else _) => destruct b
      end ].

Section access_point_calls.
Context {W : Type}.
Implicit Types (meta : s3control.AWSClient W) (s : rstate W s3control.call).
Import s3control.

Lemma silent_AP_Set_ key v : silent (W:=W) (Set_ key v).
Proof. unfold Set_. repeat silent_step. Qed.

Lemma silent_AP_SetId id : silent (W:=W) (SetId id).
Proof. unfold SetId. repeat silent_step. Qed.

Lemma readSecondary_atmost meta accountId name :
atmost [GetAccessPointPolicy (key accountId name);
        GetAccessPointPolicyStatus (key accountId name)]
  (readSecondary meta accountId name).
Proof.
unfold readSecondary.
apply (atmost_bind_invoke (R:=output)). intros [policyOutput err].
apply atmost_orReturn_silent.
{ repeat first [apply silent_AP_Set_ | silent_step]. }
destruct (strings.HasPrefix name "arn:").
{ apply atmost_silent. repeat first [apply silent_AP_Set_ | silent_step]. }
apply (atmost_bind_invoke (R:=output)). intros [policyStatusOutput err'].
apply atmost_silent. repeat first [apply silent_AP_Set_ | silent_step].
Qed.

(** X2.  Whatever the remote answers, Read of the access point issues
  only lookups, at most one of each and in a fixed order: the access
  point, then its policy, then its policy status, all for the account
  id and name parsed from the stored identifier. *)
Theorem Read_lookups_in_order meta s :
let '(accountId, name, _) := AccessPointParseID (rd_id (res s)) in
issued s (resourceAccessPointRead meta s).2
  `prefix_of` [GetAccessPoint (key accountId name);
               GetAccessPointPolicy (key accountId name);
               GetAccessPointPolicyStatus (key accountId name)].
Proof.
destruct (AccessPointParseID (rd_id (res s))) as [[accountId name] err] eqn:Hid.
unfold resourceAccessPointRead.
unfold mbind at 1, M_bind at 1, getData. rewrite Hid.
destruct err as [e|].
{ rewrite issued_refl. apply prefix_nil. }
apply atmost_issued.
apply (atmost_bind_invoke (R:=output)). intros [output err].
destruct (negb _ && _).
{ apply atmost_silent. repeat first [apply silent_AP_SetId | silent_step]. }
destruct err as [e|]; [apply atmost_silent, silent_ret|].
destruct output as [output|]; [|apply atmost_silent, silent_ret].
apply atmost_orReturn_silent.
{ repeat first [apply silent_AP_Set_ | silent_step]. }
do 4 (apply atmost_bind_silent; [apply silent_AP_Set_|intros _]).
do 2 (apply atmost_orReturn_silent;
      [repeat first [apply silent_AP_Set_ | silent_step]|]).
apply readSecondary_atmost.
Qed.
End access_point_calls.

Section access_point_data.
Context {W : Type}.
Implicit Types (meta : s3control.AWSClient W) (s : rstate W s3control.call).
Import s3control.

Lemma evolves_AP_Set_ keys key v :
key ∈ keys → evolves (W:=W) (touches keys) (Set_ key v).
Proof. intros Hin s. rewrite Set__run. by apply touches_Set_. Qed.

Ltac evolves_AP :=
repeat first
  [ apply evolves_AP_Set_; set_solver
  | match goal with
    | |- evolves ?Rel (invoke ?conn ?c) => by apply (evolves_invoke (R:=output) Rel conn c)
    end
  | evolves_step ].

Lemma readSecondary_touches meta accountId name :
evolves (touches ["policy"; "has_public_access_policy"]) (readSecondary meta accountId name).
Proof. unfold readSecondary. evolves_AP. Qed.

Lemma Read_identity meta s :
let result := resourceAccessPointRead meta s in
rd_isNew (res result.2) = rd_isNew (res s)
∧ rd_state (res result.2) = rd_state (res s)
∧ (rd_id (res result.2) = rd_id (res s)
   ∨ (rd_id (res result.2) = "" ∧ result.1 = Done None
      ∧ rd_isNew (res s) = false ∧ rd_attrs (res result.2) = rd_attrs (res s))).
Proof.
intros result. assert (result = resourceAccessPointRead meta s) as Hr by done.
clearbody result. unfold resourceAccessPointRead in Hr.
unfold mbind at 1, M_bind at 1, getData in Hr.
destruct (AccessPointParseID (rd_id (res s))) as [[accountId name] [e|]].
{ subst result. split; [done|split; [done|by left]]. }
unfold mbind at 1, M_bind at 1 in Hr.
unfold invoke at 1, send at 1 in Hr.
destruct (S3ControlConn meta _ _) as [[output err] w].
destruct (negb (rd_isNew (res s)) && _) eqn:Hcond.
- apply andb_prop in Hcond as [Hnew _]. apply negb_true_iff in Hnew.
  subst result. split; [done|]. split; [done|]. by right.
- match type of Hr with
  | _ = ?m ?s1 =>
      assert (evolves (touches allKeys) m) as Hev
        by (evolves_AP; eapply touches_weaken, readSecondary_touches; set_solver);
      destruct (Hev s1) as (Hi & Hn & Hs & _)
  end.
  subst result. split; [done|]. split; [done|]. by left.
Qed.

(** X1.  Read of the access point never changes the new-resource flag
  or the prior state, and it changes the stored identifier only by
  clearing it: in that case it returns no error, the resource is not
  new and no attribute was set. *)
Theorem Read_keeps_identity meta s :
let result := resourceAccessPointRead meta s in
rd_isNew (res result.2) = rd_isNew (res s)
∧ rd_state (res result.2) = rd_state (res s)
∧ (rd_id (res result.2) = rd_id (res s)
   ∨ (rd_id (res result.2) = "" ∧ result.1 = Done None
      ∧ rd_isNew (res s) = false ∧ rd_attrs (res result.2) = rd_attrs (res s))).
Proof. apply Read_identity. Qed.

Implicit Types (d : ResourceData).

Lemma Set__bind {B} key v (f : option error → M (rstate W call) B) s :
(Set_ key v ≫= f) s
= f (schema.Set_ Schema (res s) key v).2
    (withData (schema.Set_ Schema (res s) key v).1 s).
Proof. by rewrite (bind_run _ _ _ _ _ (Set__run _ _ _)). Qed.

Lemma Get_Set__list d key l :
Schema !! key = Some TypeList →
schema.Get Schema (schema.Set_ Schema d key (VList l)).1 key = VList l.
Proof.
intros Hk. unfold schema.Get, schema.read, schema.Set_. rewrite Hk. simpl.
by rewrite lookup_insert_eq.
Qed.

Lemma touches_Set__after sch keys d0 d key v :
touches keys d0 d → key ∈ keys → touches keys d0 (schema.Set_ sch d key v).1.
Proof. intros Hd Hin. etrans; [exact Hd|by apply touches_Set_]. Qed.

Ltac run_primary :=
unfold orReturn at 1; unfold mbind at 1, M_bind at 1;
rewrite !Set__bind; cbn [withData res remote mret M_ret]; cbv beta iota;
rewrite !Set__bind; cbn [withData res remote mret M_ret]; cbv beta iota;
unfold orReturn at 1; unfold mbind at 1, M_bind at 1;
rewrite !Set__bind; cbn [withData res remote mret M_ret]; cbv beta iota;
rewrite Set__list by done; cbn [fmap option_fmap option_map]; cbv beta iota;
unfold orReturn at 1; unfold mbind at 1, M_bind at 1;
rewrite !Set__bind; cbn [withData res remote mret M_ret]; cbv beta iota;
rewrite Set__list by done; cbn [fmap option_fmap option_map]; cbv beta iota;
reflexivity.

Ltac get_attr :=
rewrite ?Get_Set__ne by done;
first [ by apply (Get_Set__string _ _ (Some _))
      | by apply Get_Set__string
      | by apply Get_Set__list
      | by apply (Get_Set__bool _ _ (Some _))
      | by apply Get_Set__bool ].

Ltac primary_attrs :=
split; [repeat (apply touches_Set__after; [|set_solver]); done|];
repeat split; get_attr.

Lemma Read_primary_attrs meta s accountId name out w1 :
AccessPointParseID (rd_id (res s)) = (accountId, name, None) →
answers (S3ControlConn meta) (GetAccessPoint (key accountId name)) s (Some out, None) w1 →
(strings.HasPrefix name "arn:" = true → (arn.Parse name).2 = None) →
∃ d, resourceAccessPointRead meta s
     = readSecondary meta accountId name
         (withData d (called s (GetAccessPoint (key accountId name)) w1))
     ∧ touches allKeys (res s) d
     ∧ schema.Get Schema d "arn" = VString (arnOf meta accountId name out)
     ∧ schema.Get Schema d "bucket" = VString (bucketOf name out)
     ∧ schema.Get Schema d "account_id" = VString accountId
     ∧ schema.Get Schema d "domain_name"
       = VString (RegionalHostname meta
                    (aws.StringValue (GetAccessPointOutput.Name out) +:+ "-"
                       +:+ accountId +:+ ".s3-accesspoint"))
     ∧ schema.Get Schema d "name" = VString (aws.StringValue (GetAccessPointOutput.Name out))
     ∧ schema.Get Schema d "network_origin"
       = VString (aws.StringValue (GetAccessPointOutput.NetworkOrigin out))
     ∧ schema.Get Schema d "public_access_block_configuration"
       = VList (flattenS3AccessPointPublicAccessBlockConfiguration
                  (GetAccessPointOutput.PublicAccessBlockConfiguration out))
     ∧ schema.Get Schema d "vpc_configuration"
       = VList (flattenS3AccessPointVpcConfiguration
                  (GetAccessPointOutput.VpcConfiguration out)).
Proof.
intros Hid Hget Harn.
unfold resourceAccessPointRead.
unfold mbind at 1, M_bind at 1, getData. rewrite Hid. cbv beta iota.
rewrite (bind_invoke _ _ _ _ _ _ Hget).
replace (tfawserr.ErrCodeEquals None errCodeNoSuchAccessPoint) with false by done.
rewrite andb_false_r.
set (s1 := called s _ w1).
unfold arnOf, bucketOf.
destruct (strings.HasPrefix name "arn:") eqn:Hpre.
- specialize (Harn eq_refl). destruct (arn.Parse name) as [p err].
  simpl in Harn. subst err. cbn [fst].
  eexists. split; [run_primary|]. primary_attrs.
- eexists. split; [run_primary|]. primary_attrs.
Qed.

Lemma Get_touches sch keys d d' k :
touches keys d d' → k ∉ keys → schema.Get sch d' k = schema.Get sch d k.
Proof.
intros (_ & _ & _ & Ha) Hk. unfold schema.Get, schema.read. by rewrite Ha.
Qed.

(** X6.  Read of an access point whose name is not an ARN, when the
  three lookups succeed (or the secondary ones report absence),
  returns no error, keeps the identifier and leaves every attribute
  set from the remote object: the ARN built from the provider's
  partition and region, the account id and name parsed from the
  identifier, the bucket, the network origin, the regional host name,
  the two flattened blocks, the policy and the public-policy flag. *)
Theorem Read_populates meta s accountId name out w1 r2 w2 pol r3 w3 pub :
let get := GetAccessPoint (key accountId name) in
let getPolicy := GetAccessPointPolicy (key accountId name) in
let getStatus := GetAccessPointPolicyStatus (key accountId name) in
let d' := res (resourceAccessPointRead meta s).2 in
let apName := aws.StringValue (GetAccessPointOutput.Name out) in
AccessPointParseID (rd_id (res s)) = (accountId, name, None) →
strings.HasPrefix name "arn:" = false →
answers (S3ControlConn meta) get s (Some out, None) w1 →
answers (S3ControlConn meta) getPolicy (called s get w1) r2 w2 →
policy_of r2 = Some pol →
answers (S3ControlConn meta) getStatus (called (called s get w1) getPolicy w2) r3 w3 →
public_of r3 = Some pub →
(resourceAccessPointRead meta s).1 = Done None
∧ touches allKeys (res s) d'
∧ schema.Get Schema d' "arn"
  = VString ("arn:" +:+ Partition meta +:+ ":s3:" +:+ Region meta +:+ ":" +:+ accountId
               +:+ ":accesspoint/" +:+ apName)
∧ schema.Get Schema d' "bucket" = VString (aws.StringValue (GetAccessPointOutput.Bucket out))
∧ schema.Get Schema d' "account_id" = VString accountId
∧ schema.Get Schema d' "domain_name"
  = VString (RegionalHostname meta (apName +:+ "-" +:+ accountId +:+ ".s3-accesspoint"))
∧ schema.Get Schema d' "name" = VString apName
∧ schema.Get Schema d' "network_origin"
  = VString (aws.StringValue (GetAccessPointOutput.NetworkOrigin out))
∧ schema.Get Schema d' "public_access_block_configuration"
  = VList (flattenS3AccessPointPublicAccessBlockConfiguration
             (GetAccessPointOutput.PublicAccessBlockConfiguration out))
∧ schema.Get Schema d' "vpc_configuration"
  = VList (flattenS3AccessPointVpcConfiguration (GetAccessPointOutput.VpcConfiguration out))
∧ schema.Get Schema d' "policy" = VString pol
∧ schema.Get Schema d' "has_public_access_policy" = VBool pub.
Proof.
cbv zeta. intros Hid Hpre Hget Hpol Hof Hst Hpub.
destruct (Read_primary_attrs meta s accountId name out w1 Hid Hget)
  as (d & -> & Ht & Harn & Hb & Hacc & Hdom & Hname & Hnet & Hpab & Hvpc);
  [by rewrite Hpre|].
set (s0 := withData d (called s _ w1)) in *.
pose proof (readSecondary_touches meta accountId name s0) as Hsec.
destruct (Secondary_status meta accountId name s0 r2 w2 pol r3 w3 Hpol Hof Hpre Hst)
  as (d2 & _ & Hp & Hres).
rewrite Hpub in Hres. destruct Hres as [Hpublic Hrun].
rewrite Hrun in Hsec |- *. cbn [fst snd res withData] in Hsec |- *.
unfold arnOf in Harn. unfold bucketOf in Hb. rewrite Hpre in Harn, Hb.
split; [done|]. split; [by etrans; [exact Ht|eapply touches_weaken, Hsec; set_solver]|].
repeat split; try done;
  (erewrite Get_touches; [|exact Hsec|set_solver]); done.
Qed.

(** X7.  Read of an access point whose name is an ARN (S3 on Outposts)
  stores the name itself as the ARN, stores as bucket the parsed ARN
  with the first [accesspoint/<name>] of its resource replaced by
  [bucket/<bucket>], always stores [false] for the public-policy flag,
  and sets the other attributes as for any access point. *)
Theorem Read_populates_outposts meta s accountId name p out w1 r2 w2 pol :
let get := GetAccessPoint (key accountId name) in
let getPolicy := GetAccessPointPolicy (key accountId name) in
let d' := res (resourceAccessPointRead meta s).2 in
let apName := aws.StringValue (GetAccessPointOutput.Name out) in
AccessPointParseID (rd_id (res s)) = (accountId, name, None) →
strings.HasPrefix name "arn:" = true →
arn.Parse name = (p, None) →
answers (S3ControlConn meta) get s (Some out, None) w1 →
answers (S3ControlConn meta) getPolicy (called s get w1) r2 w2 →
policy_of r2 = Some pol →
(resourceAccessPointRead meta s).1 = Done None
∧ issued s (resourceAccessPointRead meta s).2 = [get; getPolicy]
∧ touches allKeys (res s) d'
∧ schema.Get Schema d' "arn" = VString name
∧ schema.Get Schema d' "bucket"
  = VString (arn.String
               {| arn.AccountID := arn.AccountID p; arn.Partition := arn.Partition p;
                  arn.Region := arn.Region p;
                  arn.Resource :=
                    strings.Replace1 (arn.Resource p) ("accesspoint/" +:+ apName)
                      ("bucket/" +:+ aws.StringValue (GetAccessPointOutput.Bucket out));
                  arn.Service := arn.Service p |})
∧ schema.Get Schema d' "account_id" = VString accountId
∧ schema.Get Schema d' "domain_name"
  = VString (RegionalHostname meta (apName +:+ "-" +:+ accountId +:+ ".s3-accesspoint"))
∧ schema.Get Schema d' "name" = VString apName
∧ schema.Get Schema d' "network_origin"
  = VString (aws.StringValue (GetAccessPointOutput.NetworkOrigin out))
∧ schema.Get Schema d' "public_access_block_configuration"
  = VList (flattenS3AccessPointPublicAccessBlockConfiguration
             (GetAccessPointOutput.PublicAccessBlockConfiguration out))
∧ schema.Get Schema d' "vpc_configuration"
  = VList (flattenS3AccessPointVpcConfiguration (GetAccessPointOutput.VpcConfiguration out))
∧ schema.Get Schema d' "policy" = VString pol
∧ schema.Get Schema d' "has_public_access_policy" = VBool false.
Proof.
cbv zeta. intros Hid Hpre Hparse Hget Hpol Hof.
destruct (Read_primary_attrs meta s accountId name out w1 Hid Hget)
  as (d & -> & Ht & Harn & Hb & Hacc & Hdom & Hname & Hnet & Hpab & Hvpc);
  [by rewrite Hparse|].
set (s0 := withData d (called s _ w1)) in *.
pose proof (readSecondary_touches meta accountId name s0) as Hsec.
destruct (Secondary_outposts meta accountId name s0 r2 w2 pol Hpol Hof Hpre)
  as (d2 & _ & Hp & Hpublic & Hrun).
rewrite Hrun in Hsec |- *. cbn [fst snd res withData] in Hsec |- *.
unfold arnOf in Harn. unfold bucketOf in Hb. rewrite Hpre in Harn, Hb.
rewrite Hparse in Hb. cbn [fst] in Hb.
split; [done|]. split; [apply issued_app; subst s0; cbn [withData called remote calls]; by rewrite <- app_assoc|].
split; [by etrans; [exact Ht|eapply touches_weaken, Hsec; set_solver]|].
repeat split; try done;
  (erewrite Get_touches; [|exact Hsec|set_solver]); done.
Qed.
End access_point_data.

Lemma Read_populates_witness :
  let s := sample.state "123456789012:ap" false true ∅ ∅ in
  let d' := res (s3control.resourceAccessPointRead (sample.meta false) s).2 in
  (s3control.resourceAccessPointRead (sample.meta false) s).1 = Done None
  ∧ schema.Get s3control.Schema d' "arn" = VString "arn:aws:s3:us-west-2:123456789012:accesspoint/ap"
  ∧ schema.Get s3control.Schema d' "domain_name"
    = VString "ap-123456789012.s3-accesspoint.us-west-2.amazonaws.com"
  ∧ schema.Get s3control.Schema d' "has_public_access_policy" = VBool false.
Proof.
  intros s d'.
  destruct (Read_populates (sample.meta false) s "123456789012" "ap" sample.found true
              (None, Some sample.noSuchAccessPointPolicy) true ""
              (None, Some sample.noSuchAccessPointPolicy) true false)
    as (Hret & _ & Harn & _ & _ & Hdom & _ & _ & _ & _ & _ & Hpub); try reflexivity.
  exact (conj Hret (conj Harn (conj Hdom Hpub))).
Defined.

Lemma Read_populates_outposts_witness :
  let id := "arn:aws:s3-outposts:us-west-2:123456789012:outpost/op-1/accesspoint/ap" in
  let s := sample.state id false true ∅ ∅ in
  let d' := res (s3control.resourceAccessPointRead (sample.meta false) s).2 in
  schema.Get s3control.Schema d' "arn" = VString id
  ∧ schema.Get s3control.Schema d' "bucket"
    = VString "arn:aws:s3-outposts:us-west-2:123456789012:outpost/op-1/bucket/bucket-1"
  ∧ schema.Get s3control.Schema d' "account_id" = VString "123456789012".
Proof.
  intros id s d'.
  destruct (Read_populates_outposts (sample.meta false) s "123456789012" id
              (arn.Parse id).1 sample.found true
              (None, Some sample.noSuchAccessPointPolicy) true "")
    as (_ & _ & _ & Harn & Hb & Hacc & _); try reflexivity.
  exact (conj Harn (conj Hb Hacc)).
Defined.

(** ** Identifiers: rejection, inversion and the round trip through Create *)

(** X3.  When the stored identifier does not parse, Read, Update and
    Delete of the access point each return the parse error, issue no
    call and leave the resource data and the remote untouched. *)
Theorem Malformed_id_rejected {W} (meta : s3control.AWSClient W) s accountId name e :
  s3control.AccessPointParseID (rd_id (res s)) = (accountId, name, Some e) →
  s3control.resourceAccessPointRead meta s = (Done (Some e), s)
  ∧ s3control.resourceAccessPointUpdate meta s = (Done (Some e), s)
  ∧ s3control.resourceAccessPointDelete meta s = (Done (Some e), s).
Proof.
  intros Hid. split; [|split].
  - by eapply Read_malformed.
  - by eapply Update_malformed.
  - by eapply Delete_malformed.
Qed.

Lemma Malformed_id_rejected_witness :
  let s := sample.state "invalid" false true ∅ ∅ in
  let e := errorString "unexpected format of ID (invalid), expected ACCOUNT_ID:NAME" in
  s3control.resourceAccessPointRead (sample.meta false) s = (Done (Some e), s)
  ∧ s3control.resourceAccessPointUpdate (sample.meta false) s = (Done (Some e), s)
  ∧ s3control.resourceAccessPointDelete (sample.meta false) s = (Done (Some e), s).
Proof.
  intros s e. apply (Malformed_id_rejected (sample.meta false) s "" "" e). reflexivity.
Defined.

Lemma composite_SplitN id account name :
  composite id account name → strings.SplitN id ":" 2 = [account; name].
Proof.
  intros (-> & Hc & _ & _). apply SplitN_colon_app. by apply Contains_None.
Qed.

(** X4.  [AccessPointParseID] returns nothing but what its three cases
    give: a successful result comes either from an ARN, with the ARN's
    account id and the whole input as the name, or from an input that
    is not an ARN and is the returned account id, a colon and the
    returned name, the account id free of colons and both non-empty;
    an error comes with two empty strings, is the format error naming
    the input, and is returned only for an input that has neither form. *)
Theorem AccessPointParseID_inv id :
  match s3control.AccessPointParseID id with
  | (accountId, name, None) =>
      (∃ a, arn.Parse id = (a, None) ∧ accountId = arn.AccountID a ∧ name = id)
      ∨ ((arn.Parse id).2 ≠ None ∧ composite id accountId name)
  | (accountId, name, Some e) =>
      accountId = "" ∧ name = ""
      ∧ e = errorString ("unexpected format of ID (" +:+ id +:+ "), expected ACCOUNT_ID:NAME")
      ∧ (arn.Parse id).2 ≠ None
      ∧ ∀ account name', ¬ composite id account name'
  end.
Proof.
  unfold s3control.AccessPointParseID.
  destruct (arn.Parse id) as [p [e|]] eqn:Hp; cbn [snd]; [|left; by exists p].
  destruct (strings.SplitN id ":" 2) as [|part0 [|part1 [|]]] eqn:Hsplit;
    try (repeat split; try done; intros a n Hc;
         apply composite_SplitN in Hc; congruence).
  destruct (bool_decide (part0 = "") || bool_decide (part1 = "")) eqn:Hempty.
  - repeat split; try done. intros a n Hc.
    pose proof Hc as (_ & _ & Ha & Hn). apply composite_SplitN in Hc.
    rewrite Hc in Hsplit. simplify_eq.
    apply orb_true_iff in Hempty as [H|H]; by apply bool_decide_eq_true in H.
  - right. split; [done|].
    apply orb_false_iff in Hempty as [H0 H1].
    apply bool_decide_eq_false in H0, H1.
    rewrite SplitN_colon_2 in Hsplit.
    destruct (strings.Index id ":") as [i|] eqn:Hi; [|done].
    destruct (Index_colon_split _ _ Hi) as [Hid Hno].
    simplify_eq. repeat split; [exact Hid| |done..].
    by apply Contains_None.
Qed.

Section created.
Local Open Scope string_scope.

Lemma HasPrefix_cons c s c' p :
strings.HasPrefix (String c s) (String c' p)
= if ascii_dec c' c then strings.HasPrefix s p else false.
Proof. unfold strings.HasPrefix. cbn [prefix]. by destruct (ascii_dec c' c). Qed.

Lemma Index_None_cons c s :
strings.Index (String c s) ":" = None → c ≠ ":"%char ∧ strings.Index s ":" = None.
Proof.
rewrite Index_colon_cons. destruct (ascii_dec ":" c) as [<-|Hc]; [done|].
destruct (strings.Index s ":"); [done|]. by split.
Qed.

(** A composite identifier starts with ["arn:"] only when its account
  part is ["arn"]. *)
Lemma composite_not_arn account name :
strings.Contains account ":" = false → account ≠ "arn" →
strings.HasPrefix (account +:+ ":" +:+ name) "arn:" = false.
Proof.
intros Hc%Contains_None Hne.
destruct account as [|c1 a1]; [done|].
change (String c1 a1 +:+ ":" +:+ name) with (String c1 (a1 +:+ ":" +:+ name)).
rewrite HasPrefix_cons. destruct (ascii_dec "a" c1) as [<-|]; [|done].
apply Index_None_cons in Hc as [_ Hc].
destruct a1 as [|c2 a2]; [done|].
change (String c2 a2 +:+ ":" +:+ name) with (String c2 (a2 +:+ ":" +:+ name)).
rewrite HasPrefix_cons. destruct (ascii_dec "r" c2) as [<-|]; [|done].
apply Index_None_cons in Hc as [_ Hc].
destruct a2 as [|c3 a3]; [done|].
change (String c3 a3 +:+ ":" +:+ name) with (String c3 (a3 +:+ ":" +:+ name)).
rewrite HasPrefix_cons. destruct (ascii_dec "n" c3) as [<-|]; [|done].
apply Index_None_cons in Hc as [_ Hc].
destruct a3 as [|c4 a4]; [done|].
change (String c4 a4 +:+ ":" +:+ name) with (String c4 (a4 +:+ ":" +:+ name)).
rewrite HasPrefix_cons. destruct (ascii_dec ":" c4) as [<-|]; [|done].
by apply Index_None_cons in Hc as [? _].
Qed.
End created.

(** X5.  The identifier Create stores parses back to what Read needs.
    When the created ARN names an Outposts resource, the identifier is
    that ARN and it parses to the ARN's account id and the ARN itself.
    Otherwise it is [accountId:name], and it parses back to exactly
    that account id and name provided both are non-empty and the
    account id has no colon and is not the word [arn]. *)
Theorem createdId_parses_back accountId name accessPointArn :
  (isOutposts accessPointArn = true →
   s3control.AccessPointParseID (createdId accountId name accessPointArn)
   = (arn.AccountID (arn.Parse accessPointArn).1, accessPointArn, None))
  ∧ (isOutposts accessPointArn = false →
     accountId ≠ "" → name ≠ "" →
     strings.Contains accountId ":" = false → accountId ≠ "arn" →
     s3control.AccessPointParseID (createdId accountId name accessPointArn)
     = (accountId, name, None)).
Proof.
  unfold createdId. split.
  - intros Hout. rewrite Hout. unfold isOutposts in Hout.
    apply andb_true_iff in Hout as [Hp%bool_decide_eq_true _].
    apply AccessPointParseID_arn. destruct (arn.Parse accessPointArn); simpl in *.
    by subst.
  - intros -> Ha Hn Hc Harn.
    apply (AccessPointParseID_composite _ _ _ (errorString "arn: invalid prefix"));
      [|done].
    unfold arn.Parse. by rewrite composite_not_arn.
Qed.

Lemma createdId_parses_back_witness :
  s3control.AccessPointParseID
    (createdId "123456789012" "ap"
       "arn:aws:s3-outposts:us-west-2:123456789012:outpost/op-1/accesspoint/ap")
  = ("123456789012",
     "arn:aws:s3-outposts:us-west-2:123456789012:outpost/op-1/accesspoint/ap", None)
  ∧ s3control.AccessPointParseID
      (createdId "123456789012" "ap" "arn:aws:s3:us-west-2:123456789012:accesspoint/ap")
    = ("123456789012", "ap", None).
Proof.
  split.
  - apply (createdId_parses_back "123456789012" "ap"
             "arn:aws:s3-outposts:us-west-2:123456789012:outpost/op-1/accesspoint/ap").
    reflexivity.
  - apply (createdId_parses_back "123456789012" "ap"
             "arn:aws:s3:us-west-2:123456789012:accesspoint/ap");
      [reflexivity|done|done|reflexivity|done].
Defined.

(** ** Failures of the remote calls *)

Section access_point_failures.
Context {W : Type}.
Implicit Types (meta : s3control.AWSClient W) (s : rstate W s3control.call).
Import s3control.

Lemma Read_empty meta s accountId name w :
AccessPointParseID (rd_id (res s)) = (accountId, name, None) →
answers (S3ControlConn meta) (GetAccessPoint (key accountId name)) s (None, None) w →
resourceAccessPointRead meta s
= (Done (Some (errorString ("error reading S3 Access Point (" +:+ rd_id (res s)
                              +:+ "): empty response"))),
   called s (GetAccessPoint (key accountId name)) w).
Proof.
intros Hid Hget. unfold resourceAccessPointRead.
unfold mbind at 1, M_bind at 1, getData. rewrite Hid. cbv beta iota.
rewrite (bind_invoke _ _ _ _ _ _ Hget). cbv beta iota.
by rewrite andb_false_r.
Qed.

(** X8.  An answer with neither an output nor an error is an error for
  Create and for Read: Create returns the empty-response error naming
  the access point and stores no identifier; Read returns the
  empty-response error naming the identifier and sets no attribute.
  In both cases the call is the only one issued. *)
Theorem Empty_response_is_error meta :
(∀ s accountId name input w,
   configured meta (res s) accountId name input →
   answers (S3ControlConn meta) (CreateAccessPoint input) s (None, None) w →
   resourceAccessPointCreate meta s
   = (Done (Some (errorString ("error creating S3 Control Access Point (" +:+ name
                                 +:+ "): empty response"))),
      called s (CreateAccessPoint input) w))
∧ (∀ s accountId name w,
     AccessPointParseID (rd_id (res s)) = (accountId, name, None) →
     answers (S3ControlConn meta) (GetAccessPoint (key accountId name)) s (None, None) w →
     resourceAccessPointRead meta s
     = (Done (Some (errorString ("error reading S3 Access Point (" +:+ rd_id (res s)
                                   +:+ "): empty response"))),
        called s (GetAccessPoint (key accountId name)) w)).
Proof.
split.
- intros s accountId name input w Hconf Hcall.
  by rewrite (Create_call _ _ _ _ _ _ _ Hconf Hcall).
- intros s accountId name w. apply Read_empty.
Qed.

(** X9.  When the creation call succeeds and the policy call that
  follows fails, Create returns the policy error naming the
  identifier, the identifier derived from the created access point
  stays stored, and nothing runs after the failed call: no Read, no
  lookup, no attribute set. *)
Theorem Create_policy_failure meta s accountId name input output w policy o2 e w2 :
let create := CreateAccessPoint input in
let accessPointArn := aws.StringValue (CreateAccessPointOutput.AccessPointArn output) in
let id := createdId accountId name accessPointArn in
let s1 := withData (schema.SetId (res s) id) (called s create w) in
let put := putPolicyInput accountId
             (if isOutposts accessPointArn then accessPointArn else name) policy in
configured meta (res s) accountId name input →
answers (S3ControlConn meta) create s (Some output, None) w →
schema.GetOk Schema (res s) "policy" = (VString policy, true) →
answers (S3ControlConn meta) put s1 (o2, Some e) w2 →
resourceAccessPointCreate meta s
= (Done (Some (errorString (("error putting S3 Access Point (" +:+ id +:+ ") policy: ")
                              +:+ Error e))),
   called s1 put w2)
∧ issued s (resourceAccessPointCreate meta s).2 = [create; put].
Proof.
cbv zeta. intros Hconf Hcall Hok Hput.
rewrite (Create_call _ _ _ _ _ _ _ Hconf Hcall). cbv zeta.
change (schema.GetOk Schema (res (withData _ _)) "policy")
  with (schema.GetOk Schema (res s) "policy").
rewrite Hok.
rewrite (orReturn_error _ _ _ _ _ (putPolicy_run _ _ _ _ _ _ _ Hput)).
split; [done|].
apply issued_app. cbn [withData called remote calls snd]. by rewrite <- app_assoc.
Qed.

(** X10.  When the policy changed and the mutation call of Update (the
  put for a non-empty policy, the delete for an empty one) fails,
  Update returns the error naming the identifier right after that
  call: the resource data is unchanged and no Read follows. *)
Theorem Update_failure meta s accountId name :
AccessPointParseID (rd_id (res s)) = (accountId, name, None) →
schema.HasChange Schema (res s) "policy" = true →
(∀ policy o e w,
   let put := putPolicyInput accountId name policy in
   schema.GetOk Schema (res s) "policy" = (VString policy, true) →
   answers (S3ControlConn meta) put s (o, Some e) w →
   resourceAccessPointUpdate meta s
   = (Done (Some (errorString (("error putting S3 Access Point (" +:+ rd_id (res s)
                                  +:+ ") policy: ") +:+ Error e))),
      called s put w))
∧ (∀ v o e w,
     let del := DeleteAccessPointPolicy (key accountId name) in
     schema.GetOk Schema (res s) "policy" = (v, false) →
     answers (S3ControlConn meta) del s (o, Some e) w →
     resourceAccessPointUpdate meta s
     = (Done (Some (errorString (("error deleting S3 Access Point (" +:+ rd_id (res s)
                                    +:+ ") policy: ") +:+ Error e))),
        called s del w)).
Proof.
intros Hid Hch. split.
- intros policy o e w put Hok Hput.
  by rewrite (Update_put _ _ _ _ _ _ _ Hid Hch Hok Hput).
- intros v o e w del Hok Hdel.
  by rewrite (Update_delete_policy _ _ _ _ _ _ _ Hid Hch Hok Hdel).
Qed.
End access_point_failures.

Lemma Empty_response_is_error_witness :
  let meta := failing.meta failing.emptyConn in
  s3control.resourceAccessPointCreate meta (sample.state "" true false ∅ sample.planned)
  = (Done (Some (errorString
                   "error creating S3 Control Access Point (ap): empty response")),
     called (sample.state "" true false ∅ sample.planned)
       (s3control.CreateAccessPoint failing.input) false)
  ∧ s3control.resourceAccessPointRead meta (sample.state "123456789012:ap" false true ∅ ∅)
    = (Done (Some (errorString
                     "error reading S3 Access Point (123456789012:ap): empty response")),
       called (sample.state "123456789012:ap" false true ∅ ∅)
         (s3control.GetAccessPoint (s3control.key "123456789012" "ap")) true).
Proof.
  intros meta. destruct (Empty_response_is_error meta) as [Hc Hr]. split.
  - apply (Hc _ "123456789012" "ap" failing.input false); [|reflexivity].
    split; [reflexivity|]. split; [reflexivity|].
    exists "bucket-1", [], [], None, None. by repeat split.
  - exact (Hr (sample.state "123456789012:ap" false true ∅ ∅) "123456789012" "ap" true
             eq_refl eq_refl).
Defined.

Lemma Create_policy_failure_witness :
  let s := sample.state "" true false ∅ failing.planned in
  let result := s3control.resourceAccessPointCreate (failing.meta failing.denyingConn) s in
  result.1 = Done (Some (errorString
    "error putting S3 Access Point (123456789012:ap) policy: AccessDenied: Access Denied"))
  ∧ rd_id (res result.2) = "123456789012:ap"
  ∧ issued s result.2
    = [s3control.CreateAccessPoint failing.input; putPolicyInput "123456789012" "ap" "{}"].
Proof.
  intros s result.
  destruct (Create_policy_failure (failing.meta failing.denyingConn) s "123456789012" "ap"
              failing.input
              {| s3control.CreateAccessPointOutput.AccessPointArn :=
                   Some "arn:aws:s3:us-west-2:123456789012:accesspoint/ap" |}
              true "{}" None sample.accessDenied true) as [Hrun Hcalls].
  - split; [reflexivity|]. split; [reflexivity|].
    exists "bucket-1", [], [], None, None. by repeat split.
  - reflexivity.
  - reflexivity.
  - reflexivity.
  - subst result. rewrite Hcalls. rewrite Hrun. by repeat split.
Defined.

Lemma Update_failure_witness :
  let s := sample.state "123456789012:ap" false true ∅ {[ "policy" := VString "{}" ]} in
  s3control.resourceAccessPointUpdate (failing.meta failing.denyingConn) s
  = (Done (Some (errorString
       "error putting S3 Access Point (123456789012:ap) policy: AccessDenied: Access Denied")),
     called s (putPolicyInput "123456789012" "ap" "{}") true).
Proof.
  intros s.
  destruct (Update_failure (failing.meta failing.denyingConn) s "123456789012" "ap"
              eq_refl eq_refl) as [Hput _].
  apply (Hput "{}" None sample.accessDenied true); reflexivity.
Defined.

(** ** Panics *)

Section no_panic.
Context {S : Type}.

Lemma post_ret {A} (Q : A → Prop) (a : A) : Q a → post (S:=S) Q (mret a).
Proof. by intros H s. Qed.

Lemma post_liftO {A} (Q : A → Prop) (a : A) : Q a → post (S:=S) Q (liftO (Done a)).
Proof. by intros H s. Qed.

Lemma post_bind {A B} (P : A → Prop) (Q : B → Prop) (m : M S A) (f : A → M S B) :
post P m → (∀ a, P a → post Q (f a)) → post Q (m ≫= f).
Proof.
intros Hm Hf s. unfold mbind, M_bind. specialize (Hm s).
destruct (m s) as [[a|] s1]; [|done]. by apply Hf.
Qed.

Lemma post_weaken {A} (P Q : A → Prop) (m : M S A) :
(∀ a, P a → Q a) → post P m → post Q m.
Proof. intros HPQ Hm s. specialize (Hm s). destruct (m s).1; auto. Qed.

Lemma post_orReturn (Q : option error → Prop) (m k : M S (option error)) :
post (λ _, True) m → (∀ e, Q (Some e)) → post Q k → post Q (orReturn m k).
Proof.
intros Hm He Hk. unfold orReturn. eapply post_bind; [exact Hm|].
intros [e|] _; [by apply post_ret|done].
Qed.
End no_panic.

Section access_point_no_panic.
Context {W : Type}.
Implicit Types (meta : s3control.AWSClient W) (s : rstate W s3control.call).
Import s3control.

Lemma post_getData : post (S:=rstate W call) (λ _, True) getData.
Proof. by intros s. Qed.

Lemma post_invoke (conn : Conn W call output) c :
sdkContract conn → post (sdkAnswer c) (invoke conn c).
Proof.
intros Hc s. unfold invoke, send. specialize (Hc c (world (remote s))).
by destruct (conn c (world (remote s))) as [r w].
Qed.

Lemma post_Set_ key v : post (λ _, True) (Set_ (W:=W) key v).
Proof. intros s. unfold Set_, mbind, M_bind, getData. simpl. by destruct (schema.Set_ _ _ _ _). Qed.

Lemma post_SetId id : post (λ _, True) (SetId (W:=W) id).
Proof. by intros s. Qed.

Lemma post_Set__then key v (o : option error) :
post (λ _, True) (Set_ (W:=W) key v;; mret o).
Proof. eapply post_bind; [apply post_Set_|]. intros _ _. by apply post_ret. Qed.

Ltac post_leaf :=
first [ by apply post_ret | apply post_Set__then | apply post_Set_ | apply post_SetId
      | apply post_getData ].

Lemma readSecondary_no_panic meta accountId name :
sdkContract (S3ControlConn meta) →
post (λ _, True) (readSecondary meta accountId name).
Proof.
intros Hc. unfold readSecondary.
apply (post_bind (sdkAnswer (GetAccessPointPolicy (key accountId name))));
  [by apply post_invoke|]. intros [policyOutput err] Hwf.
apply post_orReturn; [|done|].
- destruct (tfawserr.ErrMessageContains _ _ _); [apply post_Set__then|].
  destruct err as [e|].
  + eapply post_bind; [apply post_getData|]. intros d _. by apply post_ret.
  + destruct (Hwf eq_refl) as [out Hout]. cbn [fst] in Hout. subst policyOutput.
    apply post_Set__then.
- destruct (strings.HasPrefix name "arn:"); [apply post_Set__then|].
  apply (post_bind (sdkAnswer (GetAccessPointPolicyStatus (key accountId name))));
    [by apply post_invoke|]. intros [statusOutput err'] Hwf'.
  destruct (tfawserr.ErrMessageContains _ _ _); [apply post_Set__then|].
  destruct err' as [e|].
  + eapply post_bind; [apply post_getData|]. intros d _. by apply post_ret.
  + destruct (Hwf' eq_refl) as [st Hst]. cbn [fst] in Hst. rewrite Hst.
    apply post_Set__then.
Qed.

Ltac post_step :=
first [ post_leaf
      | by apply readSecondary_no_panic
      | (apply post_orReturn; [|done|])
      | (eapply post_bind; [post_leaf|intros ? _])
      | match goal with
        | |- post _ (let '(_, _) := ?x in _) => destruct x
        | |- post _ (match ?x with _ => _ end) => destruct x
        | |- post _ (if ?b then _ else _) => destruct b
        end ].

Lemma Read_no_panic meta :
sdkContract (S3ControlConn meta) → post (λ _, True) (resourceAccessPointRead meta).
Proof.
intros Hc. unfold resourceAccessPointRead.
eapply post_bind; [apply post_getData|]. intros d _.
destruct (AccessPointParseID (rd_id d)) as [[accountId name] [e|]]; [by apply post_ret|].
apply (post_bind (sdkAnswer (GetAccessPoint (key accountId name))));
  [by apply post_invoke|]. intros [out err] _.
destruct (negb (rd_isNew d) && _).
{ eapply post_bind; [apply post_SetId|]. intros _ _. by apply post_ret. }
destruct err as [e|]; [by apply post_ret|].
destruct out as [out|]; [|by apply post_ret].
repeat post_step.
Qed.

Lemma readSecondary_panic meta accountId name s w2 :
answers (S3ControlConn meta) (GetAccessPointPolicy (key accountId name)) s (None, None) w2 →
(readSecondary meta accountId name s).1 = Panic.
Proof.
intros Hpol. unfold readSecondary.
rewrite (bind_invoke _ _ _ _ _ _ Hpol). cbv beta iota.
by erewrite orReturn_panic.
Qed.

(** X11.  Read of the access point never panics as long as the remote
  keeps the SDK's contract (a policy lookup without an error carries
  an output, a status lookup without an error carries a status); the
  contract is needed: when the lookup of the access point succeeds and
  the policy lookup answers with neither an output nor an error, Read
  panics on the missing output. *)
Theorem Read_never_panics meta :
(sdkContract (S3ControlConn meta) → ∀ s, (resourceAccessPointRead meta s).1 ≠ Panic)
∧ (∀ s accountId name out w1 w2,
     let get := GetAccessPoint (key accountId name) in
     AccessPointParseID (rd_id (res s)) = (accountId, name, None) →
     (strings.HasPrefix name "arn:" = true → (arn.Parse name).2 = None) →
     answers (S3ControlConn meta) get s (Some out, None) w1 →
     answers (S3ControlConn meta) (GetAccessPointPolicy (key accountId name))
       (called s get w1) (None, None) w2 →
     (resourceAccessPointRead meta s).1 = Panic).
Proof.
split.
- intros Hc s Hp. pose proof (Read_no_panic meta Hc s) as H. by rewrite Hp in H.
- intros s accountId name out w1 w2 get Hid Harn Hget Hpol.
  destruct (Read_primary_attrs meta s accountId name out w1 Hid Hget Harn) as (d & -> & _).
  by eapply readSecondary_panic.
Qed.
End access_point_no_panic.

Lemma Read_never_panics_witness :
  (s3control.resourceAccessPointRead (sample.meta false)
     (sample.state "123456789012:ap" false true ∅ ∅)).1 ≠ Panic
  ∧ (s3control.resourceAccessPointRead (failing.meta failing.hollowConn)
       (sample.state "123456789012:ap" false true ∅ ∅)).1 = Panic.
Proof.
  split.
  - destruct (Read_never_panics (sample.meta false)) as [Hsafe _].
    apply Hsafe. intros [] w; simpl; try done; by destruct w.
  - destruct (Read_never_panics (failing.meta failing.hollowConn)) as [_ Hpanic].
    apply (Hpanic _ "123456789012" "ap" sample.found true true); try reflexivity.
    discriminate.
Defined.

(** ** The shape translators beyond the round trip *)

Section translators.
Import s3control.

Lemma flatten_vpc_valid c :
block_valid vpc_configuration_elem (flattenS3AccessPointVpcConfiguration c) = true.
Proof. destruct c as [[v]|]; [|done]. simpl. unfold conforms. by rewrite !bool_decide_eq_true_2
by (first [set_solver | apply map_Forall_singleton; by rewrite lookup_singleton_eq]). Qed.

Lemma flatten_pab_valid c :
block_valid public_access_block_configuration_elem
  (flattenS3AccessPointPublicAccessBlockConfiguration c) = true.
Proof.
destruct c as [[a b i r]|]; [|done]. simpl. unfold conforms.
apply andb_true_iff. split; apply bool_decide_eq_true.
- unfold public_access_block_configuration_elem. rewrite !dom_insert_L, !dom_singleton_L.
  done.
- unfold public_access_block_configuration_elem.
  repeat (apply map_Forall_insert_2; [done|]).
  apply map_Forall_empty.
Qed.

(** X12.  Whatever struct it is given (nil, or with nil fields),
  each flatten function yields a structurally valid block list, and
  expanding and flattening that list again gives the same list.
  Expanding the flattened struct gives the struct itself back exactly
  when none of its fields is nil: a nil field comes back as a pointer
  to the zero value. *)
Theorem flatten_normalises :
(∀ c, block_valid vpc_configuration_elem (flattenS3AccessPointVpcConfiguration c) = true
      ∧ flattenS3AccessPointVpcConfiguration
          <$> expandS3AccessPointVpcConfiguration (flattenS3AccessPointVpcConfiguration c)
        = Done (flattenS3AccessPointVpcConfiguration c))
∧ (∀ y, expandS3AccessPointVpcConfiguration (flattenS3AccessPointVpcConfiguration (Some y))
        = Done (Some y)
        ↔ is_Some (VpcId y))
∧ (∀ c, block_valid public_access_block_configuration_elem
          (flattenS3AccessPointPublicAccessBlockConfiguration c) = true
        ∧ flattenS3AccessPointPublicAccessBlockConfiguration
            <$> expandS3AccessPointPublicAccessBlockConfiguration
                  (flattenS3AccessPointPublicAccessBlockConfiguration c)
          = Done (flattenS3AccessPointPublicAccessBlockConfiguration c))
∧ (∀ y, expandS3AccessPointPublicAccessBlockConfiguration
          (flattenS3AccessPointPublicAccessBlockConfiguration (Some y))
        = Done (Some y)
        ↔ is_Some (BlockPublicAcls y) ∧ is_Some (BlockPublicPolicy y)
          ∧ is_Some (IgnorePublicAcls y) ∧ is_Some (RestrictPublicBuckets y)).
Proof.
split; [|split; [|split]].
- intros c. split; [apply flatten_vpc_valid|]. by destruct c as [[[v|]]|].
- intros [[v|]]; split; first [done | by intros ?%is_Some_None].
- intros c. split; [apply flatten_pab_valid|].
  by destruct c as [[[a|] [b|] [i|] [r|]]|].
- intros [[a|] [b|] [i|] [r|]]; split;
    first [ done
          | intros H; by vm_compute in H
          | intros (Ha & Hb & Hi & Hr);
            first [ by apply is_Some_None in Ha | by apply is_Some_None in Hb
                  | by apply is_Some_None in Hi | by apply is_Some_None in Hr ] ].
Qed.

(** X13.  Each expand function looks at the first element of the list
  only, whatever follows it, and returns nil for an empty list and for
  a list whose first element is nil; the expansion of the VPC block
  panics exactly when the first element is neither nil nor a map that
  holds a string under [vpc_id]. *)
Theorem expand_first_element :
(∀ v rest, expandS3AccessPointVpcConfiguration (v :: rest)
           = expandS3AccessPointVpcConfiguration [v])
∧ (∀ v rest, expandS3AccessPointPublicAccessBlockConfiguration (v :: rest)
             = expandS3AccessPointPublicAccessBlockConfiguration [v])
∧ (∀ rest, expandS3AccessPointVpcConfiguration [] = Done None
           ∧ expandS3AccessPointVpcConfiguration (VNil :: rest) = Done None
           ∧ expandS3AccessPointPublicAccessBlockConfiguration [] = Done None
           ∧ expandS3AccessPointPublicAccessBlockConfiguration (VNil :: rest) = Done None)
∧ (∀ x, expandS3AccessPointVpcConfiguration x = Panic
        ↔ ∃ v rest, x = v :: rest ∧ v ≠ VNil
                    ∧ ∀ m s, v = VMap m → m !! "vpc_id" ≠ Some (VString s)).
Proof.
split; [|split; [|split]].
- by intros [].
- by intros [].
- done.
- intros [|v rest]; split.
  + done.
  + by intros (? & ? & ? & _).
  + intros Hp. exists v, rest. split; [done|].
    destruct v as [| | | |m]; try done.
    split; [done|]. intros m' s [= <-] Hm. simpl in Hp.
    unfold mapIndex in Hp. by rewrite Hm in Hp.
  + intros (v' & rest' & [= <- <-] & Hnil & Hm).
    destruct v as [| | | |m]; try done. simpl. unfold mapIndex.
    destruct (m !! "vpc_id") as [[]|] eqn:Hv; try done.
    by edestruct Hm.
Qed.
End translators.

(** ** The configuration recorder: what Read does to the resource data *)

Section recorder_data.
Context {W RecordingGroup : Type}.
Context (flattenRecordingGroup : RecordingGroup → list value).
Context (goSyntax : list (option (config.ConfigurationRecorder RecordingGroup)) → string).
Implicit Types (meta : config.AWSClient W RecordingGroup).
Implicit Types (s : rstate W (config.call RecordingGroup)).
Implicit Types (d : ResourceData).
Import config.

Abbreviation Read := (resourceConfigurationRecorderRead flattenRecordingGroup goSyntax).
Abbreviation describeCall s := (DescribeConfigurationRecorders [aws.String (rd_id (res s))]).

Lemma recorder_Set__run key v s :
Set_ key v s = (Done (schema.Set_ Schema (res s) key v).2,
                withData (schema.Set_ Schema (res s) key v).1 s).
Proof.
unfold Set_, mbind, M_bind, getData, putData, mret, M_ret, withData.
by destruct (schema.Set_ _ _ _ _).
Qed.

Lemma recorder_Set__bind {B} key v
  (f : option error → M (rstate W (call RecordingGroup)) B) s :
(Set_ key v ≫= f) s
= f (schema.Set_ Schema (res s) key v).2
    (withData (schema.Set_ Schema (res s) key v).1 s).
Proof. by rewrite (bind_run _ _ _ _ _ (recorder_Set__run _ _ _)). Qed.

Lemma recorder_Get_Set__string d key p :
Schema !! key = Some TypeString →
schema.Get Schema (schema.Set_ Schema d key (ptrString p)).1 key
= VString (aws.StringValue p).
Proof.
intros Hk. unfold schema.Get, schema.read, schema.Set_. rewrite Hk.
destruct p as [p|]; simpl.
- by rewrite lookup_insert_eq.
- by rewrite lookup_delete_eq.
Qed.

Lemma recorder_Get_Set__ne d key key' v :
key ≠ key' →
schema.Get Schema (schema.Set_ Schema d key v).1 key' = schema.Get Schema d key'.
Proof.
intros Hne. unfold schema.Get, schema.read, schema.Set_.
destruct (Schema !! key) as [t|]; [|done].
destruct v; simpl; rewrite ?lookup_delete_ne by done; try done;
  destruct t; simpl; by rewrite ?lookup_insert_ne by done.
Qed.

Lemma recorder_Get_Set__list d key l :
Schema !! key = Some TypeList →
schema.Get Schema (schema.Set_ Schema d key (VList l)).1 key = VList l.
Proof.
intros Hk. unfold schema.Get, schema.read, schema.Set_. rewrite Hk. simpl.
by rewrite lookup_insert_eq.
Qed.

Lemma Set__attrs_ne sch d key key' v :
key ≠ key' → rd_attrs (schema.Set_ sch d key v).1 !! key' = rd_attrs d !! key'.
Proof.
intros Hne. unfold schema.Set_.
destruct (sch !! key) as [t|]; [|done].
destruct v; simpl; rewrite ?lookup_delete_ne by done; try done;
  destruct t; simpl; by rewrite ?lookup_insert_ne by done.
Qed.

(** Read, when the describe call returns exactly one recorder. *)
Lemma recorder_Read_one meta s recorder w :
answers (ConfigConn meta) (describeCall s) s
  (Some {| ConfigurationRecorders := [Some recorder] |}, None) w →
let d1 := (schema.Set_ Schema (res s) "name" (ptrString (Name recorder))).1 in
let d2 := (schema.Set_ Schema d1 "role_arn" (ptrString (RoleARN recorder))).1 in
Read meta s
= (Done None,
   withData (match RecordingGroup_ recorder with
             | Some g =>
                 (schema.Set_ Schema d2 "recording_group"
                    (VList (flattenRecordingGroup g))).1
             | None => d2
             end) (called s (describeCall s) w)).
Proof.
intros Hd d1 d2. unfold resourceConfigurationRecorderRead.
unfold mbind at 1, M_bind at 1, getData.
rewrite (bind_invoke _ _ _ _ _ _ Hd). cbv beta iota zeta.
cbn [ConfigurationRecorders List.length].
rewrite bool_decide_eq_false_2 by lia.
rewrite !recorder_Set__bind. cbn [withData res remote]. cbv beta.
destruct (RecordingGroup_ recorder) as [g|]; [|done].
by rewrite recorder_Set__bind.
Qed.

(** X14.  When the describe call returns exactly one recorder, Read
  returns no error, keeps the identifier, and stores the recorder's
  name and role ARN (the empty string for a nil pointer).  The
  recording group is stored flattened when the recorder has one; when
  it has none, the attribute keeps whatever value it had before.  No
  other attribute is touched. *)
Theorem recorder_Read_populates meta s recorder w :
let d' := res (Read meta s).2 in
answers (ConfigConn meta) (describeCall s) s
  (Some {| ConfigurationRecorders := [Some recorder] |}, None) w →
(Read meta s).1 = Done None
∧ touches recorderKeys (res s) d'
∧ schema.Get Schema d' "name" = VString (aws.StringValue (Name recorder))
∧ schema.Get Schema d' "role_arn" = VString (aws.StringValue (RoleARN recorder))
∧ match RecordingGroup_ recorder with
  | Some g => schema.Get Schema d' "recording_group" = VList (flattenRecordingGroup g)
  | None => rd_attrs d' !! "recording_group" = rd_attrs (res s) !! "recording_group"
  end.
Proof.
cbv zeta. intros Hd. rewrite (recorder_Read_one _ _ _ _ Hd). cbv zeta.
cbn [fst snd withData res].
split; [done|].
set (d1 := (schema.Set_ Schema (res s) "name" _).1).
set (d2 := (schema.Set_ Schema d1 "role_arn" _).1).
assert (touches recorderKeys (res s) d2) as Ht2.
{ etrans; [|apply touches_Set_; set_solver]. apply touches_Set_. set_solver. }
assert (schema.Get Schema d2 "name" = VString (aws.StringValue (Name recorder))) as Hn.
{ subst d2. rewrite recorder_Get_Set__ne by done. by apply recorder_Get_Set__string. }
assert (schema.Get Schema d2 "role_arn" = VString (aws.StringValue (RoleARN recorder)))
  as Hr by (by apply recorder_Get_Set__string).
destruct (RecordingGroup_ recorder) as [g|].
- split; [etrans; [exact Ht2|apply touches_Set_; set_solver]|].
  rewrite !recorder_Get_Set__ne by done. split; [done|]. split; [done|].
  by apply recorder_Get_Set__list.
- split; [done|]. split; [done|]. split; [done|].
  subst d2 d1. by rewrite !Set__attrs_ne by done.
Qed.

(** X15.  Whatever the remote answers, Read of the recorder issues
  exactly one call, the describe call for the stored identifier; it
  never changes the new-resource flag or the prior state, touches no
  attribute besides name, role ARN and recording group, and changes
  the identifier only by clearing it, in which case it returns no
  error and sets no attribute. *)
Theorem recorder_Read_one_call meta s :
let result := Read meta s in
issued s result.2 = [describeCall s]
∧ rd_isNew (res result.2) = rd_isNew (res s)
∧ rd_state (res result.2) = rd_state (res s)
∧ (∀ k, k ∉ recorderKeys → rd_attrs (res result.2) !! k = rd_attrs (res s) !! k)
∧ (rd_id (res result.2) = rd_id (res s)
   ∨ (rd_id (res result.2) = "" ∧ result.1 = Done None
      ∧ rd_attrs (res result.2) = rd_attrs (res s))).
Proof.
intros result. assert (result = Read meta s) as Hr by done. clearbody result.
unfold resourceConfigurationRecorderRead in Hr.
unfold mbind at 1 2, M_bind at 1 2, getData in Hr.
unfold invoke at 1, send at 1 in Hr.
destruct (ConfigConn meta _ _) as [[out err] w].
set (s1 := {| res := res s; remote := _ |}) in Hr.
assert (issued s s1 = [describeCall s]) as Hcalls by apply issued_called.
assert (∀ o : outcome (option error), issued s (o, s1).2 = [describeCall s]
             ∧ rd_isNew (res (o, s1).2) = rd_isNew (res s)
             ∧ rd_state (res (o, s1).2) = rd_state (res s)
             ∧ (∀ k, k ∉ recorderKeys → rd_attrs (res (o, s1).2) !! k = rd_attrs (res s) !! k)
             ∧ (rd_id (res (o, s1).2) = rd_id (res s)
                ∨ (rd_id (res (o, s1).2) = "" ∧ (o, s1).1 = Done None
                   ∧ rd_attrs (res (o, s1).2) = rd_attrs (res s)))) as Hsame.
{ intros o. repeat split; try done. by left. }
assert ((SetId (W:=W) (RecordingGroup:=RecordingGroup) "" ≫= (λ _, mret (None : option error)))
          s1 = (Done None, withData (schema.SetId (res s) "") s1)) as Hclear by done.
destruct err as [e|].
{ destruct (tfawserr.ErrMessageContains _ _ _).
  - rewrite Hclear in Hr. subst result. repeat split; try done. right. by repeat split.
  - subst result. apply Hsame. }
destruct out as [out|]; [|subst result; apply Hsame].
cbv zeta in Hr.
destruct (bool_decide (_ < 1)).
{ rewrite Hclear in Hr. subst result. repeat split; try done. right. by repeat split. }
destruct (bool_decide (1 < _)); [subst result; apply Hsame|].
destruct (ConfigurationRecorders out) as [|[recorder|] rest];
  [subst result; apply Hsame| |subst result; apply Hsame].
rewrite !recorder_Set__bind in Hr. cbn [withData res remote] in Hr. cbv beta in Hr.
change (res s1) with (res s) in Hr.
set (d1 := (schema.Set_ Schema (res s) "name" (ptrString (Name recorder))).1) in Hr.
set (d2 := (schema.Set_ Schema d1 "role_arn" (ptrString (RoleARN recorder))).1) in Hr.
assert (touches recorderKeys (res s) d2) as Ht2.
{ etrans; [|apply touches_Set_; set_solver]. apply touches_Set_. set_solver. }
destruct (RecordingGroup_ recorder) as [g|].
- rewrite recorder_Set__bind in Hr. cbn [withData res remote] in Hr.
  set (d3 := (schema.Set_ Schema d2 "recording_group" (VList (flattenRecordingGroup g))).1)
    in Hr.
  assert (touches recorderKeys (res s) d3) as (Hi & Hn & Hs & Ha)
    by (etrans; [exact Ht2|apply touches_Set_; set_solver]).
  subst result. repeat split; try done. by left.
- destruct Ht2 as (Hi & Hn & Hs & Ha).
  subst result. repeat split; try done. by left.
Qed.
End recorder_data.

Lemma recorder_Read_populates_witness :
  let s := sample.configState "default" [sample.recorder "default"] ∅ in
  let d' := res (config.resourceConfigurationRecorderRead (λ _ : unit, []) (λ _, "")
                   sample.configMeta s).2 in
  schema.Get config.Schema d' "name" = VString "default"
  ∧ schema.Get config.Schema d' "role_arn" = VString "arn:aws:iam::123456789012:role/r".
Proof.
  intros s d'.
  destruct (recorder_Read_populates (λ _ : unit, []) (λ _, "") sample.configMeta s
              {| config.Name := Some "default";
                 config.RoleARN := Some "arn:aws:iam::123456789012:role/r";
                 config.RecordingGroup_ := None |}
              [sample.recorder "default"]) as (_ & _ & Hn & Hr & _); [reflexivity|].
  exact (conj Hn Hr).
Defined.

(** ** The identifier through Create, and a name that only looks like an ARN *)

Section access_point_created.
Context {W : Type}.
Implicit Types (meta : s3control.AWSClient W) (s : rstate W s3control.call).
Import s3control.

Lemma putPolicy_touches meta accountId name v :
evolves (touches []) (putPolicy meta accountId name v).
Proof.
unfold putPolicy.
repeat first
  [ match goal with
    | |- evolves ?Rel (invoke ?conn ?c) => by apply (evolves_invoke (R:=output) Rel conn c)
    end
  | evolves_step ].
Qed.

(** X16.  Once the creation call for a new resource has succeeded, the
  identifier derived from its result is the identifier Create leaves
  stored, whatever the policy call and the trailing Read answer or
  do: an error, a panic or an absent access point never clears or
  replaces it. *)
Theorem Create_id_stable meta s accountId name input output w :
let accessPointArn := aws.StringValue (CreateAccessPointOutput.AccessPointArn output) in
configured meta (res s) accountId name input →
answers (S3ControlConn meta) (CreateAccessPoint input) s (Some output, None) w →
rd_isNew (res s) = true →
rd_id (res (resourceAccessPointCreate meta s).2) = createdId accountId name accessPointArn.
Proof.
cbv zeta. intros Hconf Hcall Hnew.
rewrite (Create_call _ _ _ _ _ _ _ Hconf Hcall). cbv zeta.
set (s1 := withData _ _).
assert (rd_id (res s1) = createdId accountId name
                           (aws.StringValue (CreateAccessPointOutput.AccessPointArn output))
        ∧ rd_isNew (res s1) = true) as [Hid1 Hnew1] by done.
clearbody s1.
unfold orReturn, mbind, M_bind.
match goal with
| |- context [match ?m s1 with _ => _ end] =>
    assert (evolves (touches []) m) as Hev
      by (destruct (schema.GetOk Schema (res s1) "policy") as [v []];
          [apply putPolicy_touches|by apply evolves_ret]);
    specialize (Hev s1); destruct (m s1) as [[[e|]|] s2]
end; destruct Hev as (Hi & Hn & _); unfold mret, M_ret; cbn [snd] in *; try congruence.
pose proof (Read_identity meta s2) as Hread. cbv zeta in Hread.
destruct Hread as (_ & _ & [Hsame|(_ & _ & Hold & _)]); congruence.
Qed.

(** X17.  When the name parsed from the identifier starts with [arn:]
  but is not an ARN, Read fails right after the lookup of the access
  point with the error of the ARN parser, wrapped with the name; no
  attribute is set and no further lookup is issued. *)
Theorem Read_name_not_an_arn meta s accountId name out w e :
let get := GetAccessPoint (key accountId name) in
AccessPointParseID (rd_id (res s)) = (accountId, name, None) →
strings.HasPrefix name "arn:" = true →
(arn.Parse name).2 = Some e →
answers (S3ControlConn meta) get s (Some out, None) w →
resourceAccessPointRead meta s
= (Done (Some (wrapError (("error parsing S3 Control Access Point ARN (" +:+ name +:+ "): ")
                            +:+ Error e) e)),
   called s get w).
Proof.
cbv zeta. intros Hid Hpre Hparse Hget. unfold resourceAccessPointRead.
unfold mbind at 1, M_bind at 1, getData. rewrite Hid. cbv beta iota.
rewrite (bind_invoke _ _ _ _ _ _ Hget). cbv beta iota.
rewrite andb_false_r. rewrite Hpre.
destruct (arn.Parse name) as [p err]. cbn [snd] in Hparse. subst err.
by erewrite orReturn_error.
Qed.
End access_point_created.

Lemma Create_id_stable_witness :
  rd_id (res (s3control.resourceAccessPointCreate (failing.meta failing.denyingConn)
                (sample.state "" true false ∅ failing.planned)).2)
  = "123456789012:ap".
Proof.
  apply (Create_id_stable (failing.meta failing.denyingConn)
           (sample.state "" true false ∅ failing.planned) "123456789012" "ap" failing.input
           {| s3control.CreateAccessPointOutput.AccessPointArn :=
                Some "arn:aws:s3:us-west-2:123456789012:accesspoint/ap" |} true).
  - split; [reflexivity|]. split; [reflexivity|].
    exists "bucket-1", [], [], None, None. by repeat split.
  - reflexivity.
  - reflexivity.
Defined.

Lemma Read_name_not_an_arn_witness :
  let s := sample.state "123456789012:arn:ap" false true ∅ ∅ in
  s3control.resourceAccessPointRead (sample.meta false) s
  = (Done (Some (wrapError
       "error parsing S3 Control Access Point ARN (arn:ap): arn: not enough sections"
       (errorString "arn: not enough sections"))),
     called s (s3control.GetAccessPoint (s3control.key "123456789012" "arn:ap")) true).
Proof.
  intros s.
  exact (Read_name_not_an_arn (sample.meta false) s "123456789012" "arn:ap" sample.found
           true (errorString "arn: not enough sections") eq_refl eq_refl eq_refl eq_refl).
Defined.
